(** * terraform-provider-pinot: identity codec, credential engine, document
    normalizer, response disambiguator and resource lifecycles.

    A shallow embedding of the Go sources under [internal/provider] and
    [internal/client], with the properties of the design document stated
    and settled against it.

    Conventions.
    - Go strings are byte strings; they are embedded as [string].  White
      space is Unicode white space in its UTF-8 encoding, as
      [strings.TrimSpace] sees it.  Case mapping ([strings.ToUpper],
      [strings.EqualFold]) is that of the ASCII letters: the provider
      applies it to the table flavor and to the component of a user, which
      are ASCII words.
    - [map[string]interface{}] is a [gmap string json]; the dynamically typed
      [interface{}] values produced by [encoding/json] are the tagged union
      [json]; their strings are valid UTF-8, which [json.Marshal] writes and
      [json.Unmarshal] reads back unchanged.  A nil map is [None] where the
      code distinguishes it.
    - Documents that are only held by one local variable are threaded
      explicitly (a Go in-place update [m[k] = v] becomes the map
      [<[k:=v]> m]).  Where aliasing matters (that the redaction never writes
      to its argument) the store of map and slice objects is modelled
      explicitly in module [Store].
    - Network effects are a state monad over a [World]: the replies the
      controller is going to give, and the requests sent so far. *)

From Stdlib Require Import Ascii String DecimalString.
From stdpp Require Import gmap strings list fin_maps sorting.

#[local] Set Warnings "-register-all".

(* ================================================================== *)
(** * Go's [strings] package, as far as the provider uses it *)
(* ================================================================== *)

Module gostrings.

Definition is_lower (c : ascii) : bool :=
  (97 <=? nat_of_ascii c) && (nat_of_ascii c <=? 122).

Definition upper (c : ascii) : ascii :=
  if is_lower c then ascii_of_nat (nat_of_ascii c - 32) else c.

Fixpoint ToUpper (s : string) : string :=
  match s with
  | EmptyString => EmptyString
  | String c s' => String (upper c) (ToUpper s')
  end.

(** [strings.EqualFold]: equality under simple case folding. *)
Definition EqualFold (s t : string) : bool :=
  String.eqb (ToUpper s) (ToUpper t).

(** ** White space

    [strings.TrimSpace] removes leading and trailing white space "as
    defined by Unicode": the runes for which [unicode.IsSpace] holds.  In
    UTF-8 these are the six ASCII bytes tab, line feed, vertical tab, form
    feed, carriage return and space; the two-byte sequences [C2 85]
    (U+0085) and [C2 A0] (U+00A0); and the three-byte sequences of U+1680,
    U+2000..U+200A, U+2028, U+2029, U+202F, U+205F and U+3000.  Go decodes
    forwards at the start of the string and backwards at its end; either
    way a white-space rune is found exactly where its encoding stands,
    since an invalid or truncated sequence decodes to U+FFFD, which is not
    white space. *)

(** [C2 85] and [C2 A0]. *)
Definition is_space2 (c1 c2 : ascii) : bool :=
  Ascii.eqb c1 "194" && (Ascii.eqb c2 "133" || Ascii.eqb c2 "160").

(** [E1 9A 80]; [E2 80 80] to [E2 80 8A], [E2 80 A8], [E2 80 A9],
    [E2 80 AF]; [E2 81 9F]; [E3 80 80]. *)
Definition is_space3 (c1 c2 c3 : ascii) : bool :=
  (Ascii.eqb c1 "225" && Ascii.eqb c2 "154" && Ascii.eqb c3 "128")
  || (Ascii.eqb c1 "226" && Ascii.eqb c2 "128"
      && ((128 <=? nat_of_ascii c3) && (nat_of_ascii c3 <=? 138)
          || Ascii.eqb c3 "168" || Ascii.eqb c3 "169" || Ascii.eqb c3 "175"))
  || (Ascii.eqb c1 "226" && Ascii.eqb c2 "129" && Ascii.eqb c3 "159")
  || (Ascii.eqb c1 "227" && Ascii.eqb c2 "128" && Ascii.eqb c3 "128").

(** The encoding of a white-space rune of two or three bytes, in the order
    of the string ([fwd]) or, for a string that has been reversed, with its
    bytes in reverse. *)
Definition space2 (fwd : bool) (c1 c2 : ascii) : bool :=
  if fwd then is_space2 c1 c2 else is_space2 c2 c1.

Definition space3 (fwd : bool) (c1 c2 c3 : ascii) : bool :=
  if fwd then is_space3 c1 c2 c3 else is_space3 c3 c2 c1.

(** Removes the white-space runes at the head of [s]. *)
Fixpoint trim_head (fwd : bool) (s : string) : string :=
  match s with
  | EmptyString => EmptyString
  | String c1 s1 =>
      if Ascii.is_space c1 then trim_head fwd s1
      else
        match s1 with
        | EmptyString => s
        | String c2 s2 =>
            if space2 fwd c1 c2 then trim_head fwd s2
            else
              match s2 with
              | EmptyString => s
              | String c3 s3 =>
                  if space3 fwd c1 c2 c3 then trim_head fwd s3 else s
              end
        end
  end.

Definition reverse (s : string) : string :=
  string_of_list_ascii (rev (list_ascii_of_string s)).

Definition TrimLeftSpace (s : string) : string := trim_head true s.

Definition TrimRightSpace (s : string) : string :=
  reverse (trim_head false (reverse s)).

Definition TrimSpace (s : string) : string :=
  TrimRightSpace (TrimLeftSpace s).

(** [len(s) >= len(suffix) && s[len(s)-len(suffix):] == suffix] *)
Definition HasSuffix (s suffix : string) : bool :=
  (String.length suffix <=? String.length s) &&
  String.eqb
    (substring (String.length s - String.length suffix)
               (String.length suffix) s)
    suffix.

Definition TrimSuffix (s suffix : string) : string :=
  if HasSuffix s suffix
  then substring 0 (String.length s - String.length suffix) s
  else s.

Definition HasPrefix (s pre : string) : bool := String.prefix pre s.

(** [strings.Contains(s, substr)] *)
Fixpoint Contains (s substr : string) : bool :=
  HasPrefix s substr ||
  match s with
  | EmptyString => false
  | String _ s' => Contains s' substr
  end.

(** [%d] for a non-negative integer. *)
Definition Itoa (n : nat) : string :=
  NilEmpty.string_of_uint (Nat.to_uint n).

Fixpoint Join (elems : list string) (sep : string) : string :=
  match elems with
  | [] => EmptyString
  | [e] => e
  | e :: rest => e +:+ sep +:+ Join rest sep
  end.

(** The double-quote character, for the [%q] verb and literal quotes. *)
Definition dquote : string := String "034"%char EmptyString.

(** [%q] on text without characters that need escaping. *)
Definition Quote (s : string) : string := dquote +:+ s +:+ dquote.

End gostrings.

Import gostrings.

(* ================================================================== *)
(** * Terraform framework values *)
(* ================================================================== *)

(** [types.String]: null, unknown, or a known value. *)
Inductive TfString : Type :=
| StringNull
| StringUnknown
| StringValue (s : string).

Definition IsNull (v : TfString) : bool :=
  match v with StringNull => true | _ => false end.

(** [ValueString] is the empty string for null and unknown. *)
Definition ValueString (v : TfString) : string :=
  match v with StringValue s => s | _ => "" end.

(** Go's [error] values; only their text is observed. *)
Record error : Type := Errorf { Error : string }.

(* ================================================================== *)
(** * Identity codec ([table_resource.go], helpers) *)
(* ================================================================== *)

(** [splitTableID] parses IDs like [mytable_OFFLINE] / [mytable_REALTIME]. *)
Definition splitTableID (id : string) : string * string :=
  if HasSuffix id "_OFFLINE" then (TrimSuffix id "_OFFLINE", "OFFLINE")
  else if HasSuffix id "_REALTIME" then (TrimSuffix id "_REALTIME", "REALTIME")
  else (id, "").

(** [joinTableID] builds [logical_TYPE] for the state ID. *)
Definition joinTableID (logical typ : string) : string :=
  let logical := TrimSpace logical in
  let typ := ToUpper (TrimSpace typ) in
  if String.eqb logical "" || String.eqb typ "" then logical
  else logical +:+ "_" +:+ typ.

(* ================================================================== *)
(** * Credential engine *)
(* ================================================================== *)

(** [buildSaslJaas] constructs the [sasl.jaas.config] string for Kafka
    SCRAM; the two values are embedded verbatim. *)
Definition buildSaslJaas (username password : string) : string :=
  "org.apache.kafka.common.security.scram.ScramLoginModule required username="
  +:+ dquote +:+ username +:+ dquote
  +:+ " password=" +:+ dquote +:+ password +:+ dquote +:+ ";".

(* ================================================================== *)
(** * JSON documents *)
(* ================================================================== *)

(** What [encoding/json] decodes into an [interface{}]: nil, bool,
    float64, string, [[]interface{}] and [map[string]interface{}].  Numbers
    are only carried around by the provider; a float64 is represented by
    its IEEE-754 bit pattern. *)
Inductive json : Type :=
| JNull
| JBool (b : bool)
| JNum (bits : N)
| JStr (s : string)
| JArr (elems : list json)
| JObj (fields : gmap string json).

(** Treat table config as a passthrough JSON object so we don't drop
    fields: [type TableConfig = map[string]interface{}]. *)
Abbreviation obj := (gmap string json).

(** [v, _ := x.(string)]: the zero value when the assertion fails, also
    when the key is absent. *)
Definition as_string (x : option json) : string :=
  match x with Some (JStr s) => s | _ => "" end.

(** [m, ok := x.(map[string]interface{})] *)
Definition as_map (x : option json) : option obj :=
  match x with Some (JObj m) => Some m | _ => None end.

(** The attributes of [TableResourceModel]; [table_config] is JSON text
    ([jsontypes.Normalized]), held here as the value it denotes. *)
Record TableResourceModel : Type := {
  ID : TfString;
  TableName : TfString;
  TableType : TfString;
  TableConfig : json;
  KafkaUsername : TfString;
  KafkaPassword : TfString;
  SaslJaasConfig : TfString
}.

Definition buildSaslIfProvided (data : TableResourceModel)
  : string * option error :=
  if IsNull (KafkaUsername data) && IsNull (KafkaPassword data) then
    ("", None)
  else if IsNull (KafkaUsername data) || IsNull (KafkaPassword data) then
    ("", Some (Errorf
      "both kafka_username and kafka_password must be provided together"))
  else
    let username := ValueString (KafkaUsername data) in
    let password := ValueString (KafkaPassword data) in
    if String.eqb (TrimSpace username) ""
       || String.eqb (TrimSpace password) "" then
      ("", Some (Errorf
        "both kafka_username and kafka_password must be non-empty"))
    else (buildSaslJaas username password, None).

(* ================================================================== *)
(** * Secret injection and redaction on the document tree *)
(* ================================================================== *)

Definition sasl_key : string := "sasl.jaas.config".

(** [out := make(map); for k, v := range src { out[k] = v }] *)
Definition copy_map {A} (src : gmap string A) : gmap string A :=
  map_fold (λ k v out, <[k:=v]> out) ∅ src.

(** The same loop with [if k == key { continue }]. *)
Definition copy_map_without {A} (key : string) (src : gmap string A)
  : gmap string A :=
  map_fold (λ k v out, if decide (k = key) then out else <[k:=v]> out) ∅ src.

(** [injectKafkaSasl] injects [sasl.jaas.config] into the payload that will
    be sent to Pinot.  [streamConfigMaps] may be a map or a list of maps;
    when it is created the list-of-maps shape is preferred.  The Go function
    updates the maps in place; here the updated document is returned.  (On a
    nil [tableConfig] map the first assignment panics; the callers below
    account for that.) *)
Definition injectKafkaSasl (tableConfig : obj) (sasl : string) : obj :=
  let ingestion :=
    default ∅ (as_map (tableConfig !! "ingestionConfig")) in
  let streamIngestion :=
    default ∅ (as_map (ingestion !! "streamIngestionConfig")) in
  let streamConfigMaps :=
    match streamIngestion !! "streamConfigMaps" with
    | Some (JObj v) => JObj (<[sasl_key := JStr sasl]> v)
    | Some (JArr v) =>
        match v with
        | [] => JArr [JObj {[ sasl_key := JStr sasl ]}]
        | JObj firstMap :: rest =>
            JArr (JObj (<[sasl_key := JStr sasl]> firstMap) :: rest)
        | _ :: rest => JArr (JObj {[ sasl_key := JStr sasl ]} :: rest)
        end
    | _ => JArr [JObj {[ sasl_key := JStr sasl ]}]
    end in
  <["ingestionConfig" :=
      JObj (<["streamIngestionConfig" :=
                JObj (<["streamConfigMaps" := streamConfigMaps]>
                        streamIngestion)]> ingestion)]> tableConfig.

(** One element of the list-of-maps shape: a map loses the secret,
    non-map elements are left untouched. *)
Definition strip_element (el : json) : json :=
  match el with
  | JObj m => JObj (copy_map_without sasl_key m)
  | _ => el
  end.

(** [removeSaslJaasFromTableConfig] returns a copy of the table config with
    [sasl.jaas.config] removed from any [streamConfigMaps] shape. *)
Definition removeSaslJaasFromTableConfig (input : option obj) : option obj :=
  match input with
  | None => None
  | Some input =>
      let out := copy_map input in
      match as_map (out !! "ingestionConfig") with
      | None => Some out
      | Some ingestion =>
          let newIngestion := copy_map ingestion in
          match as_map (newIngestion !! "streamIngestionConfig") with
          | None => Some (<["ingestionConfig" := JObj newIngestion]> out)
          | Some streamIngestion =>
              let newStreamIngestion := copy_map streamIngestion in
              let newStreamIngestion :=
                match newStreamIngestion !! "streamConfigMaps" with
                | Some (JObj scm) =>
                    <["streamConfigMaps" :=
                        JObj (copy_map_without sasl_key scm)]>
                      newStreamIngestion
                | Some (JArr scmList) =>
                    <["streamConfigMaps" :=
                        JArr (strip_element <$> scmList)]>
                      newStreamIngestion
                | _ => newStreamIngestion
                end in
              Some (<["ingestionConfig" :=
                        JObj (<["streamIngestionConfig" :=
                                  JObj newStreamIngestion]> newIngestion)]>
                      out)
          end
      end
  end.

(** A dotted path of object keys, and the subtree found there. *)
Fixpoint at_path (p : list string) (v : json) : option json :=
  match p with
  | [] => Some v
  | k :: p' =>
      match v with
      | JObj m => m !! k ≫= at_path p'
      | _ => None
      end
  end.

Definition scm_location : list string :=
  ["ingestionConfig"; "streamIngestionConfig"; "streamConfigMaps"].

(** Redaction of the document obtained by injecting [s] into [d]. *)
Definition inject_then_redact (d : obj) (s : string) : json :=
  match removeSaslJaasFromTableConfig (Some (injectKafkaSasl d s)) with
  | Some d' => JObj d'
  | None => JNull
  end.

(* ================================================================== *)
(** * The same redaction over an explicit store of Go objects *)
(* ================================================================== *)

(** Go maps and slices are references.  [removeSaslJaasFromTableConfig]
    copies only the maps on the way to [streamConfigMaps]; everything else
    in its result is shared with its argument.  To say that it never writes
    to its argument, the objects live in a store and values refer to them
    by location. *)
Module Store.

Definition loc : Type := positive.

Inductive value : Type :=
| VNull
| VBool (b : bool)
| VNum (bits : N)
| VStr (s : string)
| VSlice (l : loc)
| VMap (l : loc).

Inductive object : Type :=
| OMap (m : gmap string value)
| OSlice (elems : list value).

Abbreviation store := (gmap loc object).

(** [make(...)]: a new object at a location not in use. *)
Definition alloc (o : object) (σ : store) : loc * store :=
  let l := fresh (dom σ) in (l, <[l := o]> σ).

Definition map_at (σ : store) (l : loc) : gmap string value :=
  match σ !! l with Some (OMap m) => m | _ => ∅ end.

Definition slice_at (σ : store) (l : loc) : list value :=
  match σ !! l with Some (OSlice a) => a | _ => [] end.

(** [m[k] = v] *)
Definition map_set (l : loc) (k : string) (v : value) (σ : store) : store :=
  match σ !! l with
  | Some (OMap m) => <[l := OMap (<[k := v]> m)]> σ
  | _ => σ
  end.

(** [a[i] = v], for [i] in range *)
Definition slice_set (l : loc) (i : nat) (v : value) (σ : store) : store :=
  match σ !! l with
  | Some (OSlice a) => <[l := OSlice (<[i := v]> a)]> σ
  | _ => σ
  end.

(** The body of [for i, el := range scmList], from index [i] on. *)
Fixpoint strip_loop (newList : loc) (i : nat) (els : list value)
    (σ : store) : store :=
  match els with
  | [] => σ
  | el :: rest =>
      let σ :=
        match el with
        | VMap m =>
            let '(newMap, σ) :=
              alloc (OMap (copy_map_without sasl_key (map_at σ m))) σ in
            slice_set newList i (VMap newMap) σ
        | _ =>
            (* leave non-map elements untouched *)
            slice_set newList i el σ
        end in
      strip_loop newList (S i) rest σ
  end.

Definition removeSaslJaasFromTableConfig (input : option loc) (σ : store)
  : option loc * store :=
  match input with
  | None => (None, σ)
  | Some input =>
      (* shallow copy top-level *)
      let '(out, σ) := alloc (OMap (copy_map (map_at σ input))) σ in
      match map_at σ out !! "ingestionConfig" with
      | Some (VMap ingestion) =>
          (* copy ingestion map *)
          let '(newIngestion, σ) :=
            alloc (OMap (copy_map (map_at σ ingestion))) σ in
          let σ := map_set out "ingestionConfig" (VMap newIngestion) σ in
          match map_at σ newIngestion !! "streamIngestionConfig" with
          | Some (VMap streamIngestion) =>
              let '(newStreamIngestion, σ) :=
                alloc (OMap (copy_map (map_at σ streamIngestion))) σ in
              let σ := map_set newIngestion "streamIngestionConfig"
                         (VMap newStreamIngestion) σ in
              match map_at σ newStreamIngestion !! "streamConfigMaps" with
              | Some (VMap scm) =>
                  (* Handle map shape *)
                  let '(newScm, σ) :=
                    alloc (OMap (copy_map_without sasl_key (map_at σ scm)))
                          σ in
                  (Some out,
                   map_set newStreamIngestion "streamConfigMaps"
                     (VMap newScm) σ)
              | Some (VSlice scmList) =>
                  (* Handle list-of-maps shape *)
                  let els := slice_at σ scmList in
                  let '(newList, σ) :=
                    alloc (OSlice (replicate (length els) VNull)) σ in
                  let σ := strip_loop newList 0 els σ in
                  (Some out,
                   map_set newStreamIngestion "streamConfigMaps"
                     (VSlice newList) σ)
              | _ => (Some out, σ)
              end
          | _ => (Some out, σ)
          end
      | _ => (Some out, σ)
      end
  end.

(** [represents σ v j]: in store [σ] the value [v] is the root of the
    document [j]. *)
Inductive represents (σ : store) : value → json → Prop :=
| rep_null : represents σ VNull JNull
| rep_bool b : represents σ (VBool b) (JBool b)
| rep_num n : represents σ (VNum n) (JNum n)
| rep_str s : represents σ (VStr s) (JStr s)
| rep_slice l vs js :
    σ !! l = Some (OSlice vs) →
    Forall2 (represents σ) vs js →
    represents σ (VSlice l) (JArr js)
| rep_map l vm jm :
    σ !! l = Some (OMap vm) →
    (∀ k, option_Forall2 (represents σ) (vm !! k) (jm !! k)) →
    represents σ (VMap l) (JObj jm).

End Store.

(* ================================================================== *)
(** * Transport client ([internal/client/client.go]) *)
(* ================================================================== *)

Inductive result (A : Type) : Type :=
| Ok (a : A)
| Err (e : error).
Arguments Ok {A} a.
Arguments Err {A} e.

(** What [encoding/json] makes of a byte string. *)
Inductive decoded : Type :=
| Invalid (why : string)
| Valid (j : json).

(** A response body: its bytes, and their reading as JSON. *)
Record Body : Type := { raw : string; parsed : decoded }.

(** The outcome of [httpClient.Do]: a transport failure, or a response. *)
Inductive Reply : Type :=
| NetErr (msg : string)
| Resp (status : nat) (b : Body).

(** A request target.  Where the client formats the target by pasting a
    name after the controller URL ([fmt.Sprintf("%s/tables/%s",
    c.controllerURL, tableName)]) the target is that text, [Pasted]: a name
    that holds [/], [?] or [#] changes the path or the query.  Where the
    code escapes every part it adds ([url.PathEscape], [url.QueryEscape],
    [url.Values.Encode]) the target is recorded by its parts before
    escaping, [Escaped]: the base as it is, the path segments and the query
    parameters. *)
Inductive Url : Type :=
| Pasted (text : string)
| Escaped (base : string) (segments : list string)
    (query : list (string * string)).

Record Request : Type := {
  method : string;
  url : Url;
  payload : option json
}.

(** The controller, seen from the provider: the replies it will give, in
    order, and the requests it has received. *)
Record World : Type := { replies : list Reply; sent : list Request }.

Definition M (A : Type) : Type := World → A * World.
Definition ret {A} (a : A) : M A := λ w, (a, w).
Definition bind {A B} (m : M A) (k : A → M B) : M B :=
  λ w, let '(a, w') := m w in k a w'.

Notation "'let*' x ':=' m 'in' k" := (bind m (λ x, k))
  (at level 10, x pattern, m at level 100, k at level 200).

(** [c.httpClient.Do(req)]; a controller that has stopped answering
    refuses the connection. *)
Definition roundTrip (req : Request) : M Reply :=
  λ w,
    match replies w with
    | [] => (NetErr "connection refused",
             {| replies := []; sent := sent w ++ [req] |})
    | r :: rs => (r, {| replies := rs; sent := sent w ++ [req] |})
    end.

Record PinotClient : Type := { controllerURL : string }.

Definition endpoint (c : PinotClient) (segs : list string)
    (q : list (string * string)) : Url :=
  Escaped (controllerURL c) segs q.

(** [fmt.Sprintf("%s...", c.controllerURL, ...)] without escaping. *)
Definition pasted (c : PinotClient) (rest : string) : Url :=
  Pasted (controllerURL c +:+ rest).

(** [doRequest]: any transport failure and any status [>= 400] is an
    error carrying the status code and the raw body.  (Headers and
    authentication do not influence the result and are not modelled.) *)
Definition doRequest (method : string) (u : Url) (body : option json)
  : M (result Body) :=
  let* reply := roundTrip {| method := method; url := u; payload := body |} in
  match reply with
  | NetErr msg => ret (Err (Errorf ("request failed: " +:+ msg)))
  | Resp status b =>
      if 400 <=? status then
        ret (Err (Errorf ("API error (status " +:+ Itoa status +:+ "): "
                          +:+ raw b)))
      else ret (Ok b)
  end.

(** [json.Unmarshal(resp, &m)] for [m map[string]interface{}]: JSON
    [null] leaves the nil map, an object fills it, anything else is an
    error. *)
Definition unmarshal_map (b : decoded) : result (option obj) :=
  match b with
  | Invalid why => Err (Errorf why)
  | Valid JNull => Ok None
  | Valid (JObj m) => Ok (Some m)
  | Valid _ =>
      Err (Errorf
        "json: cannot unmarshal value into Go value of type map[string]interface {}")
  end.

(** Indexing a possibly nil map. *)
Definition map_index (m : option obj) (k : string) : option json :=
  m ≫= λ m, m !! k.

(** [json.Marshal] of a possibly nil map. *)
Definition marshal_map (m : option obj) : json :=
  match m with Some m => JObj m | None => JNull end.

Definition wrap (prefix : string) (e : error) : error :=
  Errorf (prefix +:+ Error e).

Definition GetSchema (c : PinotClient) (schemaName : string)
  : M (result (option obj)) :=
  let* r := doRequest "GET" (pasted c ("/schemas/" +:+ schemaName)) None in
  match r with
  | Err e => ret (Err e)
  | Ok resp =>
      match unmarshal_map (parsed resp) with
      | Err e => ret (Err (wrap "failed to unmarshal schema: " e))
      | Ok schema => ret (Ok schema)
      end
  end.

Definition CreateTable (c : PinotClient) (tableConfig : json)
  : M (option error) :=
  let* r := doRequest "POST" (pasted c "/tables") (Some tableConfig) in
  match r with Err e => ret (Some e) | Ok _ => ret None end.

(** The unwrapping step of [GetTable]. *)
Definition unwrap_table (response : option obj) : option obj :=
  match as_map (map_index response "OFFLINE") with
  | Some offlineConfig => Some offlineConfig
  | None =>
      match as_map (map_index response "REALTIME") with
      | Some realtimeConfig => Some realtimeConfig
      | None => response
      end
  end.

Definition GetTable (c : PinotClient) (tableName : string)
  : M (result (option obj)) :=
  let* r := doRequest "GET" (pasted c ("/tables/" +:+ tableName)) None in
  match r with
  | Err e => ret (Err e)
  | Ok resp =>
      match unmarshal_map (parsed resp) with
      | Err e => ret (Err (wrap "failed to unmarshal table config: " e))
      | Ok response => ret (Ok (unwrap_table response))
      end
  end.

Definition UpdateTable (c : PinotClient) (tableConfig : json)
  : M (option error) :=
  match tableConfig with
  | JObj tableMap =>
      match tableMap !! "tableName" with
      | Some (JStr tableName) =>
          let* r := doRequest "PUT" (pasted c ("/tables/" +:+ tableName))
                      (Some tableConfig) in
          match r with Err e => ret (Some e) | Ok _ => ret None end
      | _ => ret (Some (Errorf "table name not found"))
      end
  | _ => ret (Some (Errorf "table name not found"))
  end.

Definition ReloadTable (c : PinotClient) (logicalName tableType : string)
  : M (option error) :=
  let missing :=
    (if String.eqb logicalName "" then ["logicalName"] else []) ++
    (if String.eqb tableType "" then ["tableType"] else []) in
  if 0 <? length missing then
    ret (Some (Errorf (Join missing " and " +:+ " is required")))
  else
    let* r := doRequest "POST"
                (endpoint c ["segments"; logicalName; "reload"]
                   [("type", ToUpper tableType)]) None in
    match r with Err e => ret (Some e) | Ok _ => ret None end.

(** [GetUser] requires the component in the query (both parameter names
    are sent) and returns the top-level JSON object. *)
Definition GetUser (c : PinotClient) (username component : string)
  : M (result (option obj)) :=
  let* r := doRequest "GET"
              (endpoint c ["users"; username]
                 [("component", ToUpper component);
                  ("componentType", ToUpper component)]) None in
  match r with
  | Err e => ret (Err e)
  | Ok resp =>
      match unmarshal_map (parsed resp) with
      | Err e => ret (Err (wrap "failed to unmarshal user JSON: " e))
      | Ok m => ret (Ok m)
      end
  end.

(* ================================================================== *)
(** * Resource lifecycles: diagnostics and state *)
(* ================================================================== *)

Inductive Severity : Type := SeverityError | SeverityWarning.

Record Diagnostic : Type := {
  severity : Severity;
  summary : string;
  detail : string
}.

Definition AddError (s d : string) (ds : list Diagnostic) : list Diagnostic :=
  ds ++ [{| severity := SeverityError; summary := s; detail := d |}].

Definition AddWarning (s d : string) (ds : list Diagnostic)
  : list Diagnostic :=
  ds ++ [{| severity := SeverityWarning; summary := s; detail := d |}].

Definition is_error (d : Diagnostic) : bool :=
  match severity d with SeverityError => true | SeverityWarning => false end.

Definition HasError (ds : list Diagnostic) : bool := existsb is_error ds.

(** The response of a lifecycle call: diagnostics, and the state the
    framework will record afterwards ([None]: the resource is not, or no
    longer, tracked).  The framework hands [Read] and [Update] a response
    whose state is the prior state, and [Create] one without state; a call
    that returns early leaves that in place. *)
Record Response (Model : Type) : Type := {
  Diagnostics : list Diagnostic;
  State : option Model
}.
Arguments Diagnostics {Model} _.
Arguments State {Model} _.

(** A Go call either returns or panics. *)
Inductive Outcome (A : Type) : Type :=
| Returned (a : A)
| Panicked (msg : string).
Arguments Returned {A} a.
Arguments Panicked {A} msg.

(* ------------------------------------------------------------------ *)
(** ** Tables ([internal/provider/table_resource.go]) *)

(** [data.TableConfig.Unmarshal(&tableConfig)] *)
Definition unmarshal_table_config (cfg : json)
  : result (option obj) := unmarshal_map (Valid cfg).

Definition fail {Model} (s d : string) (st : option Model)
  : Response Model :=
  {| Diagnostics := AddError s d []; State := st |}.

(** The state written at the end of [Create] and [Update]. *)
Definition table_state (data : TableResourceModel) (id : TfString)
    (tableConfig : option obj) (saslValue : string) : TableResourceModel :=
  let cleanForState := removeSaslJaasFromTableConfig tableConfig in
  {| ID := id;
     TableName := TableName data;
     TableType := TableType data;
     TableConfig := marshal_map cleanForState;
     KafkaUsername := KafkaUsername data;
     KafkaPassword := KafkaPassword data;
     SaslJaasConfig :=
       if String.eqb saslValue "" then StringNull
       else StringValue saslValue |}.

(** [if saslValue != "" { injectKafkaSasl(&tableConfig, saslValue) }] *)
Definition inject_if_built (tableConfig : option obj) (saslValue : string)
  : Outcome (option obj) :=
  if String.eqb saslValue "" then Returned tableConfig
  else
    match tableConfig with
    | Some m => Returned (Some (injectKafkaSasl m saslValue))
    | None => Panicked "assignment to entry in nil map"
    end.

Definition TableCreate (c : PinotClient) (data : TableResourceModel)
  : M (Outcome (Response TableResourceModel)) :=
  match unmarshal_table_config (TableConfig data) with
  | Err e => ret (Returned (fail "JSON Unmarshal Error" (Error e) None))
  | Ok tableConfig =>
      let fullTableName :=
        joinTableID (ValueString (TableName data))
                    (ValueString (TableType data)) in
      (* Validate tableName and tableType in the provided JSON. *)
      if negb (String.eqb (as_string (map_index tableConfig "tableName"))
                          fullTableName) then
        ret (Returned (fail "Table Name Mismatch"
               ("The table configuration name must be " +:+ fullTableName)
               None))
      else if negb (EqualFold (as_string (map_index tableConfig "tableType"))
                              (ValueString (TableType data))) then
        ret (Returned (fail "Table Type Mismatch"
               ("The table configuration type must be "
                +:+ ToUpper (ValueString (TableType data))) None))
      else
        match buildSaslIfProvided data with
        | (_, Some err) =>
            ret (Returned (fail "Kafka Credentials Incomplete" (Error err)
                                None))
        | (saslValue, None) =>
            match inject_if_built tableConfig saslValue with
            | Panicked msg => ret (Panicked msg)
            | Returned tableConfig =>
                (* Create table via API (passthrough JSON). *)
                let* err := CreateTable c (marshal_map tableConfig) in
                match err with
                | Some err =>
                    ret (Returned (fail "Error Creating Pinot Table"
                      ("Could not create table, unexpected error: "
                       +:+ Error err) None))
                | None =>
                    ret (Returned
                      {| Diagnostics := [];
                         State := Some (table_state data
                                          (StringValue fullTableName)
                                          tableConfig saslValue) |})
                end
            end
        end
  end.

Definition TableUpdate (c : PinotClient) (prior data : TableResourceModel)
  : M (Outcome (Response TableResourceModel)) :=
  match unmarshal_table_config (TableConfig data) with
  | Err e =>
      ret (Returned (fail "JSON Unmarshal Error" (Error e) (Some prior)))
  | Ok tableConfig =>
      (* Optional sanity validation. *)
      let fullTableName :=
        joinTableID (ValueString (TableName data))
                    (ValueString (TableType data)) in
      let tn := as_string (map_index tableConfig "tableName") in
      let tt := as_string (map_index tableConfig "tableType") in
      if negb (String.eqb tn "") && negb (String.eqb tn fullTableName) then
        ret (Returned (fail "Table Name Mismatch"
               ("The table configuration name must be " +:+ fullTableName)
               (Some prior)))
      else if negb (String.eqb tt "")
              && negb (EqualFold tt (ValueString (TableType data))) then
        ret (Returned (fail "Table Type Mismatch"
               ("The table configuration type must be "
                +:+ ToUpper (ValueString (TableType data))) (Some prior)))
      else
        match buildSaslIfProvided data with
        | (_, Some err) =>
            ret (Returned (fail "Kafka Credentials Incomplete" (Error err)
                                (Some prior)))
        | (saslValue, None) =>
            match inject_if_built tableConfig saslValue with
            | Panicked msg => ret (Panicked msg)
            | Returned tableConfig =>
                (* Update via API (passthrough JSON). *)
                let* err := UpdateTable c (marshal_map tableConfig) in
                match err with
                | Some err =>
                    ret (Returned (fail "Error Updating Pinot Table"
                      ("Could not update table, unexpected error: "
                       +:+ Error err) (Some prior)))
                | None =>
                    (* Always reload segments after a successful update. *)
                    let* rerr := ReloadTable c (ValueString (TableName data))
                                   (ValueString (TableType data)) in
                    let warnings :=
                      match rerr with
                      | Some err =>
                          AddWarning "Pinot Segment Reload Failed"
                            ("Updated table " +:+ fullTableName
                             +:+ " but segment reload failed: "
                             +:+ Error err) []
                      | None => []
                      end in
                    ret (Returned
                      {| Diagnostics := warnings;
                         State := Some (table_state data (ID data)
                                          tableConfig saslValue) |})
                end
            end
        end
  end.

Definition TableRead (c : PinotClient) (data : TableResourceModel)
  : M (Response TableResourceModel) :=
  (* Get table configuration from API by suffixed ID. *)
  let* r := GetTable c (ValueString (ID data)) in
  match r with
  | Err err =>
      (* If the server returns 404, drop state. *)
      if Contains (Error err) "404" then
        ret {| Diagnostics := []; State := None |}
      else
        ret (fail "Error Reading Pinot Table"
               ("Could not read table ID " +:+ ValueString (ID data)
                +:+ ": " +:+ Error err) (Some data))
  | Ok tableConfig =>
      let cleanForState := removeSaslJaasFromTableConfig tableConfig in
      ret {| Diagnostics := [];
             State := Some
               {| ID := ID data;
                  TableName := TableName data;
                  TableType := TableType data;
                  TableConfig := marshal_map cleanForState;
                  KafkaUsername := KafkaUsername data;
                  KafkaPassword := KafkaPassword data;
                  SaslJaasConfig := StringNull |} |}
  end.

(* ------------------------------------------------------------------ *)
(** ** Schemas ([internal/provider/schema_resource.go]) *)

Record SchemaResourceModel : Type := {
  SchemaID : TfString;
  SchemaName : TfString;
  Schema : json
}.

Definition SchemaRead (c : PinotClient) (data : SchemaResourceModel)
  : M (Response SchemaResourceModel) :=
  (* Get schema from API *)
  let* r := GetSchema c (ValueString (SchemaName data)) in
  match r with
  | Err err =>
      ret (fail "Error Reading Pinot Schema"
             ("Could not read schema ID " +:+ ValueString (SchemaID data)
              +:+ ": " +:+ Error err) (Some data))
  | Ok schema =>
      ret {| Diagnostics := [];
             State := Some {| SchemaID := SchemaID data;
                              SchemaName := SchemaName data;
                              Schema := marshal_map schema |} |}
  end.

(* ------------------------------------------------------------------ *)
(** ** Users ([internal/provider/user_resource.go]) *)

(** [types.List] of strings. *)
Inductive TfList : Type :=
| ListNull
| ListUnknown
| ListValue (elems : list TfString).

Record UserResourceModel : Type := {
  UserID : TfString;
  Username : TfString;
  Password : TfString;
  Component : TfString;
  Role : TfString;
  Tables : TfList;
  Permissions : TfList
}.

(** [PinotUser]; a [[]string] may be nil. *)
Record PinotUser : Type := {
  username : string;
  password : string;
  component : string;
  role : string;
  tables : option (list string);
  permissions : option (list string)
}.

Definition known_strings (l : list TfString) : option (list string) :=
  mapM (λ v, match v with StringValue s => Some s | _ => None end) l.

(** [toStringSlice]: nil for a null or unknown list; [ElementsAs] reports
    an error for an element that is not a known string. *)
Definition toStringSlice (diags : list Diagnostic) (l : TfList)
  : option (list string) * list Diagnostic :=
  match l with
  | ListNull | ListUnknown => (None, diags)
  | ListValue elems =>
      match known_strings elems with
      | Some out => (Some out, diags)
      | None =>
          (None, AddError "Value Conversion Error"
                   "unhandled null or unknown list element" diags)
      end
  end.

(** [types.ListValueFrom(ctx, types.StringType, s)] *)
Definition ListValueFrom (s : option (list string)) : TfList :=
  match s with
  | None => ListNull
  | Some l => ListValue (StringValue <$> l)
  end.

(** [json.Marshal] of a [PinotUser]: [omitempty] drops an empty password
    and empty or nil lists. *)
Definition marshal_user (u : PinotUser) : json :=
  let strings (l : list string) := JArr (JStr <$> l) in
  let opt_list (k : string) (l : option (list string)) (m : obj) : obj :=
    match l with
    | None | Some [] => m
    | Some l => <[k := strings l]> m
    end in
  JObj (opt_list "permissions" (permissions u)
       (opt_list "tables" (tables u)
       ((if String.eqb (password u) "" then λ m, m
         else <["password" := JStr (password u)]>)
       (<["username" := JStr (username u)]>
       (<["component" := JStr (component u)]>
       (<["role" := JStr (role u)]> ∅)))))).

(** ** Decoding into a struct

    [encoding/json] takes the members of an object one after the other.
    A member is matched to the struct field of the same name, exactly or
    under case folding; a member that matches no field is ignored.  Folding
    maps the ASCII letters to upper case; of all other runes only U+017F
    and U+212A fold to an ASCII letter ([S] and [K]), so [foldName] decides
    rightly whether a key matches a field, whose names are ASCII. *)
Fixpoint foldName (s : string) : string :=
  match s with
  | EmptyString => EmptyString
  | String c1 s1 =>
      match s1 with
      | EmptyString => String (upper c1) EmptyString
      | String c2 s2 =>
          if Ascii.eqb c1 "197" && Ascii.eqb c2 "191" then
            String "S" (foldName s2)
          else
            match s2 with
            | EmptyString => String (upper c1) (foldName s1)
            | String c3 s3 =>
                if Ascii.eqb c1 "226" && Ascii.eqb c2 "132"
                   && Ascii.eqb c3 "170" then String "K" (foldName s3)
                else String (upper c1) (foldName s1)
            end
      end
  end.

(** Whether the key [k] names the field whose JSON name is [name]. *)
Definition names (name k : string) : bool :=
  String.eqb (foldName k) (foldName name).

(** The members of an object in the order in which [json.Marshal] writes
    them: sorted by key, byte-wise. *)
Definition sorted_members (m : obj) : list (string * json) :=
  merge_sort (λ a b, String.le a.1 b.1) (map_to_list m).

Definition zero_user : PinotUser :=
  {| username := ""; password := ""; component := ""; role := "";
     tables := None; permissions := None |}.

(** A value decoded into a [string] that already holds [cur]: a string
    replaces it, [null] leaves it, anything else is an
    [UnmarshalTypeError] ([None]) and leaves it too. *)
Definition string_into (cur : string) (v : json) : option string :=
  match v with
  | JStr s => Some s
  | JNull => Some cur
  | _ => None
  end.

(** A [[]string] while it is being decoded: the slice, the elements of its
    array (also those behind the length of the slice, which a later and
    longer array brings back), and whether a type error has been met. *)
Record strings_decoding : Type := {
  slice : option (list string);
  array : list string;
  mismatch : bool
}.

(** The elements of a JSON array decoded one by one into the elements the
    array of the slice already holds. *)
Fixpoint elements_into (arr : list string) (l : list json)
  : list string * bool :=
  match l with
  | [] => ([], false)
  | v :: l' =>
      let cur := hd EmptyString arr in
      let '(rest, bad) := elements_into (tl arr) l' in
      match string_into cur v with
      | Some s => (s :: rest, bad)
      | None => (cur :: rest, true)
      end
  end.

(** A value decoded into a [[]string]: [null] makes it nil, an empty array
    makes it empty, another array is decoded element by element into what
    is there and the slice cut to its length; anything else is a type
    error. *)
Definition strings_into (d : strings_decoding) (v : json)
  : strings_decoding :=
  match v with
  | JNull => {| slice := None; array := []; mismatch := mismatch d |}
  | JArr [] => {| slice := Some []; array := []; mismatch := mismatch d |}
  | JArr l =>
      let '(elems, bad) := elements_into (array d) l in
      {| slice := Some elems;
         array := elems ++ drop (length l) (array d);
         mismatch := mismatch d || bad |}
  | _ => {| slice := slice d; array := array d; mismatch := true |}
  end.

Record user_decoding : Type := {
  dec_username : string;
  dec_password : string;
  dec_component : string;
  dec_role : string;
  dec_tables : strings_decoding;
  dec_permissions : strings_decoding;
  dec_mismatch : bool
}.

Definition no_strings : strings_decoding :=
  {| slice := None; array := []; mismatch := false |}.

Definition user_start : user_decoding :=
  {| dec_username := ""; dec_password := ""; dec_component := "";
     dec_role := ""; dec_tables := no_strings;
     dec_permissions := no_strings; dec_mismatch := false |}.

(** One member decoded into the [PinotUser] built so far. *)
Definition user_member (d : user_decoding) (kv : string * json)
  : user_decoding :=
  let '(k, v) := kv in
  let put (cur : string) (set : string → user_decoding) : user_decoding :=
    match string_into cur v with
    | Some s => set s
    | None =>
        {| dec_username := dec_username d; dec_password := dec_password d;
           dec_component := dec_component d; dec_role := dec_role d;
           dec_tables := dec_tables d;
           dec_permissions := dec_permissions d; dec_mismatch := true |}
    end in
  if names "username" k then
    put (dec_username d) (λ s,
      {| dec_username := s; dec_password := dec_password d;
         dec_component := dec_component d; dec_role := dec_role d;
         dec_tables := dec_tables d; dec_permissions := dec_permissions d;
         dec_mismatch := dec_mismatch d |})
  else if names "password" k then
    put (dec_password d) (λ s,
      {| dec_username := dec_username d; dec_password := s;
         dec_component := dec_component d; dec_role := dec_role d;
         dec_tables := dec_tables d; dec_permissions := dec_permissions d;
         dec_mismatch := dec_mismatch d |})
  else if names "component" k then
    put (dec_component d) (λ s,
      {| dec_username := dec_username d; dec_password := dec_password d;
         dec_component := s; dec_role := dec_role d;
         dec_tables := dec_tables d; dec_permissions := dec_permissions d;
         dec_mismatch := dec_mismatch d |})
  else if names "role" k then
    put (dec_role d) (λ s,
      {| dec_username := dec_username d; dec_password := dec_password d;
         dec_component := dec_component d; dec_role := s;
         dec_tables := dec_tables d; dec_permissions := dec_permissions d;
         dec_mismatch := dec_mismatch d |})
  else if names "tables" k then
    {| dec_username := dec_username d; dec_password := dec_password d;
       dec_component := dec_component d; dec_role := dec_role d;
       dec_tables := strings_into (dec_tables d) v;
       dec_permissions := dec_permissions d;
       dec_mismatch := dec_mismatch d |}
  else if names "permissions" k then
    {| dec_username := dec_username d; dec_password := dec_password d;
       dec_component := dec_component d; dec_role := dec_role d;
       dec_tables := dec_tables d;
       dec_permissions := strings_into (dec_permissions d) v;
       dec_mismatch := dec_mismatch d |}
  else d.

(** [json.Marshal(v)] followed by [json.Unmarshal(b, &u)] for
    [u PinotUser].  The members arrive sorted by key; [Unmarshal] goes
    through all of them and then returns the first type error it has met,
    if any. *)
Definition decode_user (v : json) : result PinotUser :=
  let type_error :=
    Err (Errorf "json: cannot unmarshal value into Go value of type provider.PinotUser") in
  match v with
  | JNull => Ok zero_user
  | JObj m =>
      let d := foldl user_member user_start (sorted_members m) in
      if dec_mismatch d || mismatch (dec_tables d)
         || mismatch (dec_permissions d) then type_error
      else
        Ok {| username := dec_username d; password := dec_password d;
              component := dec_component d; role := dec_role d;
              tables := slice (dec_tables d);
              permissions := slice (dec_permissions d) |}
  | _ => type_error
  end.

Definition fetchUser (c : PinotClient) (username component : string)
  : M (result PinotUser) :=
  let* r := GetUser c username component in
  match r with
  | Err err => ret (Err err)
  | Ok top =>
      match map_index top "username" with
      | Some _ => ret (decode_user (marshal_map top))
      | None =>
          let key := username +:+ "_" +:+ component in
          let unexpected :=
            Err (Errorf
              ("unexpected user response; neither plain object nor wrapper with key "
               +:+ Quote key)) in
          match map_index top key with
          | Some raw => ret (decode_user raw)
          | None =>
              (* Case 3: Fallback: if wrapper has a single entry, take its
                 value. *)
              if size (default ∅ top) =? 1 then
                match map_to_list (default ∅ top) with
                | (_, v) :: _ => ret (decode_user v)
                | [] => ret unexpected
                end
              else ret unexpected
          end
      end
  end.

Definition CreateUser (c : PinotClient) (user : json) : M (option error) :=
  let* r := doRequest "POST" (pasted c "/users") (Some user) in
  match r with Err e => ret (Some e) | Ok _ => ret None end.

Definition UserCreate (c : PinotClient) (data : UserResourceModel)
  : M (Response UserResourceModel) :=
  if IsNull (Password data) || String.eqb (ValueString (Password data)) ""
  then
    ret (fail "Missing password"
           "Creating a Pinot user requires a non-empty `password`." None)
  else
    let '(tables_, diags) := toStringSlice [] (Tables data) in
    let '(perms_, diags) := toStringSlice diags (Permissions data) in
    if HasError diags then ret {| Diagnostics := diags; State := None |}
    else
      let payload :=
        {| username := ValueString (Username data);
           password := ValueString (Password data);
           component := ValueString (Component data);
           role := ValueString (Role data);
           tables := tables_;
           permissions := perms_ |} in
      let* err := CreateUser c (marshal_user payload) in
      match err with
      | Some err =>
          ret {| Diagnostics := AddError "Error Creating Pinot User"
                                  (Error err) diags;
                 State := None |}
      | None =>
          let* fetched :=
            fetchUser c (username payload) (component payload) in
          let u := match fetched with Ok u => u | Err _ => payload end in
          ret {| Diagnostics := diags;
                 State := Some
                   {| UserID := StringValue (username payload);
                      Username := StringValue (username u);
                      Password := Password data;
                      Component := StringValue (component u);
                      Role := StringValue (role u);
                      Tables := ListValueFrom (tables u);
                      Permissions := ListValueFrom (permissions u) |} |}
      end.

Definition UserRead (c : PinotClient) (data : UserResourceModel)
  : M (Response UserResourceModel) :=
  let* fetched := fetchUser c (ValueString (Username data))
                    (ValueString (Component data)) in
  match fetched with
  | Err err =>
      ret (fail "Error Reading Pinot User"
             ("Could not read user " +:+ Quote (ValueString (Username data))
              +:+ ": " +:+ Error err) (Some data))
  | Ok u =>
      ret {| Diagnostics := [];
             State := Some
               {| UserID := StringValue (username u);
                  Username := StringValue (username u);
                  Password := Password data;
                  Component := StringValue (component u);
                  Role := StringValue (role u);
                  Tables := ListValueFrom (tables u);
                  Permissions := ListValueFrom (permissions u) |} |}
  end.

(* ================================================================== *)
(** * Further operations of the provider and the client *)
(* ================================================================== *)

(** ** More of Go's [strings] package *)

Definition in_cutset (cutset : string) (c : ascii) : bool :=
  existsb (Ascii.eqb c) (list_ascii_of_string cutset).

(** [strings.TrimRight(s, cutset)], for a cutset of single bytes. *)
Fixpoint TrimRight (s cutset : string) : string :=
  match s with
  | EmptyString => EmptyString
  | String c s' =>
      match TrimRight s' cutset with
      | EmptyString => if in_cutset cutset c then EmptyString
                       else String c EmptyString
      | t => String c t
      end
  end.

(** [strings.Count(s, substr)], for a one-byte [substr]. *)
Fixpoint Count (s : string) (c : ascii) : nat :=
  match s with
  | EmptyString => 0
  | String c' s' => (if Ascii.eqb c' c then 1 else 0) + Count s' c
  end.

(** [strings.Cut(s, sep)] for a one-byte separator: the text before and
    after its first occurrence. *)
Fixpoint Cut (s : string) (sep : ascii) : option (string * string) :=
  match s with
  | EmptyString => None
  | String c s' =>
      if Ascii.eqb c sep then Some (EmptyString, s')
      else match Cut s' sep with
           | Some (before, after) => Some (String c before, after)
           | None => None
           end
  end.

(** [strings.SplitN(s, sep, 2)] for a one-byte separator. *)
Definition SplitN2 (s : string) (sep : ascii) : list string :=
  match Cut s sep with
  | Some (before, after) => [before; after]
  | None => [s]
  end.

(** ** Authentication ([doRequest], [NewPinotClientWithToken]) *)

(** The fields of [PinotClient] that select the [Authorization] header. *)
Record Credentials : Type := {
  client_username : string;
  client_password : string;
  client_token : string
}.

(** What [doRequest] puts on the request: nothing, a header value, or
    [req.SetBasicAuth(username, password)]. *)
Inductive Authorization : Type :=
| NoAuthorization
| AuthorizationHeader (value : string)
| BasicAuth (user pass : string).

(** The header selection of [doRequest]. *)
Definition authorization (k : Credentials) : Authorization :=
  let tok := TrimSpace (client_token k) in
  if negb (String.eqb tok "") then
    if HasPrefix tok "Bearer " || HasPrefix tok "Basic " then
      AuthorizationHeader tok
    else if 2 <=? Count tok "."%char then
      AuthorizationHeader ("Bearer " +:+ tok)
    else AuthorizationHeader ("Basic " +:+ tok)
  else if negb (String.eqb (client_username k) "")
          || negb (String.eqb (client_password k) "") then
    BasicAuth (client_username k) (client_password k)
  else NoAuthorization.

(** [NewPinotClientWithToken]; it never fails. *)
Definition NewPinotClientWithToken (controllerURL username password
    token : string) : PinotClient * Credentials :=
  ({| controllerURL := TrimRight controllerURL "/" |},
   {| client_username := username; client_password := password;
      client_token := token |}).

(** ** Provider configuration ([internal/provider/provider.go]) *)

(** The environment variables the provider reads. *)
Record Env : Type := {
  PINOT_CONTROLLER_URL : string;
  PINOT_DATABASE : string;
  PINOT_TOKEN : string;
  PINOT_USERNAME : string;
  PINOT_PASSWORD : string
}.

Record PinotProviderModel : Type := {
  ControllerURL : TfString;
  ProviderUsername : TfString;
  ProviderPassword : TfString;
  Token : TfString
}.

(** [if !v.IsNull() && v.ValueString() != "" { x = v.ValueString() }] *)
Definition or_from_config (x : string) (v : TfString) : string :=
  if negb (IsNull v) && negb (String.eqb (ValueString v) "")
  then ValueString v else x.

Definition Configure (env : Env) (config : PinotProviderModel)
  : list Diagnostic * option (PinotClient * Credentials) :=
  let controllerURL :=
    or_from_config (PINOT_CONTROLLER_URL env) (ControllerURL config) in
  let diags :=
    if String.eqb controllerURL "" then
      AddError "Missing Pinot Controller URL"
        "Set controller_url or PINOT_CONTROLLER_URL." []
    else [] in
  let username :=
    or_from_config (PINOT_USERNAME env) (ProviderUsername config) in
  let password :=
    or_from_config (PINOT_PASSWORD env) (ProviderPassword config) in
  let token := or_from_config (PINOT_TOKEN env) (Token config) in
  if HasError diags then (diags, None)
  else (diags,
        Some (NewPinotClientWithToken controllerURL username password token)).

(** ** Table deletion and import ([table_resource.go]) *)

Definition DeleteTable (c : PinotClient) (tableName : string)
  : M (option error) :=
  let* r := doRequest "DELETE" (pasted c ("/tables/" +:+ tableName)) None in
  match r with Err e => ret (Some e) | Ok _ => ret None end.

(** The header selection of [deleteTableByLogical]. *)
Definition delete_authorization (env : Env) : Authorization :=
  let token := TrimSpace (PINOT_TOKEN env) in
  if negb (String.eqb token "") then
    AuthorizationHeader ("Basic " +:+ token)
  else if negb (String.eqb (PINOT_USERNAME env) "")
          || negb (String.eqb (PINOT_PASSWORD env) "") then
    BasicAuth (PINOT_USERNAME env) (PINOT_PASSWORD env)
  else NoAuthorization.

Section Deletion.

(** Two functions of Go's [net/url]: escaping of a path segment, and the
    error, if any, that [url.Parse] reports for a raw URL. *)
Variable PathEscape : string → string.
Variable url_Parse_error : string → option error.

(** [deleteTableByLogical] performs
    [DELETE {PINOT_CONTROLLER_URL}/tables/{logical}?type={typ}] with the
    default HTTP client.  200, 202 and 204 mean deleted, 404 already
    gone. *)
Definition deleteTableByLogical (env : Env) (logical typ : string)
  : M (option error) :=
  let base := TrimRight (PINOT_CONTROLLER_URL env) "/" in
  if String.eqb base "" then
    ret (Some (Errorf "PINOT_CONTROLLER_URL not set"))
  else
    match url_Parse_error (base +:+ "/tables/" +:+ PathEscape logical) with
    | Some err => ret (Some err)
    | None =>
        let* reply :=
          roundTrip {| method := "DELETE";
                       url := Escaped base ["tables"; logical]
                                [("type", ToUpper typ)];
                       payload := None |} in
        match reply with
        | NetErr msg => ret (Some (Errorf msg))
        | Resp status _ =>
            if (status =? 200) || (status =? 202) || (status =? 204)
               || (status =? 404) then ret None
            else
              ret (Some (Errorf
                ("unexpected status deleting table " +:+ Quote logical
                 +:+ " type " +:+ Quote typ +:+ ": " +:+ Itoa status)))
        end
    end.

(** [TableResource.Delete].  The framework removes the resource from the
    state when the call returns without an error diagnostic. *)
Definition TableDelete (env : Env) (c : PinotClient)
    (data : TableResourceModel) : M (Response TableResourceModel) :=
  (* Prefer attributes; fall back to parsing ID if needed. *)
  let logical := TrimSpace (ValueString (TableName data)) in
  let typ := ToUpper (TrimSpace (ValueString (TableType data))) in
  let '(logical, typ) :=
    if String.eqb logical "" || String.eqb typ "" then
      let '(l, t) := splitTableID (ValueString (ID data)) in
      (if String.eqb logical "" then l else logical,
       if String.eqb typ "" then t else typ)
    else (logical, typ) in
  if String.eqb logical "" || String.eqb typ "" then
    ret (fail "Error Deleting Pinot Table"
           "Missing table_name or table_type; cannot compute DELETE endpoint."
           (Some data))
  else
    (* Primary path: DELETE /tables/{logical}?type=OFFLINE|REALTIME *)
    let* err := deleteTableByLogical env logical typ in
    match err with
    | None => ret {| Diagnostics := []; State := None |}
    | Some err =>
        (* Fallback: try legacy suffixed delete via client *)
        let* fallbackErr := DeleteTable c (joinTableID logical typ) in
        match fallbackErr with
        | None => ret {| Diagnostics := []; State := None |}
        | Some fallbackErr =>
            ret (fail "Error Deleting Pinot Table"
                   ("logical delete failed: " +:+ Error err
                    +:+ "; fallback delete failed: " +:+ Error fallbackErr)
                   (Some data))
        end
    end.

End Deletion.

(** The attributes an import sets. *)
Record Imported : Type := {
  imported_id : option string;
  imported_name : option string;
  imported_kind : option string
}.

(** [TableResource.ImportState]; import ID format [tableName_TYPE]. *)
Definition TableImportState (id : string)
  : list Diagnostic * option Imported :=
  let '(logical, typ) := splitTableID id in
  if String.eqb logical "" || String.eqb typ "" then
    (AddError "Invalid Import ID"
       "Import ID must be in format: tableName_TYPE (e.g., myTable_OFFLINE or myTable_REALTIME)"
       [], None)
  else
    ([], Some {| imported_id := Some (joinTableID logical typ);
                 imported_name := Some logical;
                 imported_kind := Some typ |}).

(** ** User update, deletion and import ([user_resource.go], [client.go]) *)







(** [UserResource.ImportState]: [username|component], or the bare user
    name passed through. *)
Definition UserImportState (id : string) : Imported :=
  match SplitN2 id "|"%char with
  | [user; comp] =>
      {| imported_id := Some user; imported_name := Some user;
         imported_kind := Some comp |}
  | _ =>
      {| imported_id := None; imported_name := Some id;
         imported_kind := None |}
  end.

(** ** Schemas: creation, update and deletion ([schema_resource.go]) *)

Record FieldSpec : Type := {
  field_name : string;
  field_dataType : string;
  field_singleValueField : bool;
  (** an [interface{}]; [JNull] is the nil interface *)
  field_defaultNullValue : json
}.

Record DateTimeSpec : Type := {
  dt_name : string;
  dt_dataType : string;
  dt_format : string;
  dt_granularity : string
}.

(** [PinotSchema].  The slices are lists; a nil and an empty slice are not
    told apart, as both are omitted by [omitempty]. *)
Record PinotSchema : Type := {
  schemaName : string;
  enableColumnBasedNull : bool;
  dimensionFieldSpecs : list FieldSpec;
  metricFieldSpecs : list FieldSpec;
  dateTimeFieldSpecs : list DateTimeSpec
}.

(** What [data.Schema.Unmarshal(&pinotSchema)] makes of a document: the
    struct; a type error; or nothing that a JSON value determines, because
    two members of one object name the same field.  The decoder then takes
    the two in the order of the text and lets the second build on what the
    first has left; the document as a value records neither. *)
Inductive decoding (A : Type) : Type :=
| Decoded (a : A)
| Mismatch
| Undetermined.
Arguments Decoded {A} a.
Arguments Mismatch {A}.
Arguments Undetermined {A}.

Definition and_then {A B} (d : decoding A) (k : A → decoding B)
  : decoding B :=
  match d with
  | Decoded a => k a
  | Mismatch => Mismatch
  | Undetermined => Undetermined
  end.

(** The members of [m] that name the field [name]. *)
Definition members_named (m : obj) (name : string) : list (string * json) :=
  map_to_list (filter (λ kv : string * json, names name kv.1 = true) m).

(** The member for a field, in an object that names it at most once. *)
Definition struct_member (m : obj) (name : string) : decoding (option json) :=
  match members_named m name with
  | [] => Decoded None
  | [(_, v)] => Decoded (Some v)
  | _ => Undetermined
  end.

(** Decoding one field of a struct: JSON [null] and an absent member leave
    the zero value, a value of another type is a type error. *)
Definition field_string (m : obj) (name : string) : decoding string :=
  and_then (struct_member m name) (λ v,
    match v with
    | None | Some JNull => Decoded EmptyString
    | Some (JStr s) => Decoded s
    | Some _ => Mismatch
    end).

Definition field_bool (m : obj) (name : string) : decoding bool :=
  and_then (struct_member m name) (λ v,
    match v with
    | None | Some JNull => Decoded false
    | Some (JBool b) => Decoded b
    | Some _ => Mismatch
    end).

(** An [interface{}] field takes whatever is there. *)
Definition field_any (m : obj) (name : string) : decoding json :=
  and_then (struct_member m name) (λ v, Decoded (default JNull v)).

Definition decode_FieldSpec (v : json) : decoding FieldSpec :=
  match v with
  | JNull =>
      Decoded {| field_name := ""; field_dataType := "";
                 field_singleValueField := false;
                 field_defaultNullValue := JNull |}
  | JObj m =>
      and_then (field_string m "name") (λ n,
      and_then (field_string m "dataType") (λ t,
      and_then (field_bool m "singleValueField") (λ s,
      and_then (field_any m "defaultNullValue") (λ d,
        Decoded {| field_name := n; field_dataType := t;
                   field_singleValueField := s;
                   field_defaultNullValue := d |}))))
  | _ => Mismatch
  end.

Definition decode_DateTimeSpec (v : json) : decoding DateTimeSpec :=
  match v with
  | JNull =>
      Decoded {| dt_name := ""; dt_dataType := ""; dt_format := "";
                 dt_granularity := "" |}
  | JObj m =>
      and_then (field_string m "name") (λ n,
      and_then (field_string m "dataType") (λ t,
      and_then (field_string m "format") (λ f,
      and_then (field_string m "granularity") (λ g,
        Decoded {| dt_name := n; dt_dataType := t; dt_format := f;
                   dt_granularity := g |}))))
  | _ => Mismatch
  end.

Fixpoint decode_elements {A} (decode : json → decoding A) (l : list json)
  : decoding (list A) :=
  match l with
  | [] => Decoded []
  | v :: l' =>
      and_then (decode v) (λ a,
      and_then (decode_elements decode l') (λ rest, Decoded (a :: rest)))
  end.

(** A slice of structs: absent or [null] leaves it nil. *)
Definition field_list {A} (decode : json → decoding A) (m : obj)
    (name : string) : decoding (list A) :=
  and_then (struct_member m name) (λ v,
    match v with
    | None | Some JNull => Decoded []
    | Some (JArr l) => decode_elements decode l
    | Some _ => Mismatch
    end).

(** [data.Schema.Unmarshal(&pinotSchema)]: members that name no field are
    ignored. *)
Definition decode_schema (v : json) : decoding PinotSchema :=
  match v with
  | JNull =>
      Decoded {| schemaName := ""; enableColumnBasedNull := false;
                 dimensionFieldSpecs := []; metricFieldSpecs := [];
                 dateTimeFieldSpecs := [] |}
  | JObj m =>
      and_then (field_string m "schemaName") (λ n,
      and_then (field_bool m "enableColumnBasedNullHandling") (λ e,
      and_then (field_list decode_FieldSpec m "dimensionFieldSpecs") (λ d,
      and_then (field_list decode_FieldSpec m "metricFieldSpecs") (λ ms,
      and_then (field_list decode_DateTimeSpec m "dateTimeFieldSpecs")
        (λ dt,
        Decoded {| schemaName := n; enableColumnBasedNull := e;
                   dimensionFieldSpecs := d; metricFieldSpecs := ms;
                   dateTimeFieldSpecs := dt |})))))
  | _ => Mismatch
  end.

(** The [UnmarshalTypeError] of the decoder.  Its text names the value and
    the field at fault; only that there is an error is observed here. *)
Definition schema_type_error : error :=
  Errorf "json: cannot unmarshal value into Go value of type provider.PinotSchema".

Definition marshal_FieldSpec (f : FieldSpec) : json :=
  JObj ((if field_singleValueField f
         then <["singleValueField" := JBool true]> else λ m, m)
        ((match field_defaultNullValue f with
          | JNull => λ m, m
          | v => <["defaultNullValue" := v]>
          end)
         (<["name" := JStr (field_name f)]>
          (<["dataType" := JStr (field_dataType f)]> ∅)))).

Definition marshal_DateTimeSpec (d : DateTimeSpec) : json :=
  JObj {[ "name" := JStr (dt_name d);
          "dataType" := JStr (dt_dataType d);
          "format" := JStr (dt_format d);
          "granularity" := JStr (dt_granularity d) ]}.

(** [omitempty] on a slice. *)
Definition put_list {A} (k : string) (marshal : A → json) (l : list A)
    (m : obj) : obj :=
  match l with
  | [] => m
  | _ => <[k := JArr (marshal <$> l)]> m
  end.

(** [json.Marshal(&pinotSchema)] *)
Definition marshal_schema (s : PinotSchema) : obj :=
  put_list "dimensionFieldSpecs" marshal_FieldSpec (dimensionFieldSpecs s)
    (put_list "metricFieldSpecs" marshal_FieldSpec (metricFieldSpecs s)
       (put_list "dateTimeFieldSpecs" marshal_DateTimeSpec
          (dateTimeFieldSpecs s)
          ((if enableColumnBasedNull s
            then <["enableColumnBasedNullHandling" := JBool true]>
            else λ m, m)
           {[ "schemaName" := JStr (schemaName s) ]}))).

Definition CreateSchema (c : PinotClient) (schema : json)
  : M (option error) :=
  let* r := doRequest "POST" (pasted c "/schemas") (Some schema) in
  match r with Err e => ret (Some e) | Ok _ => ret None end.


Definition DeleteSchema (c : PinotClient) (name : string)
  : M (option error) :=
  let* r := doRequest "DELETE" (pasted c ("/schemas/" +:+ name)) None in
  match r with Err e => ret (Some e) | Ok _ => ret None end.

(** [SchemaResource.Create]; [None] where the document does not determine
    what the decoder makes of it. *)
Definition SchemaCreate (c : PinotClient) (data : SchemaResourceModel)
  : option (M (Response SchemaResourceModel)) :=
  (* Parse and validate the JSON schema *)
  match decode_schema (Schema data) with
  | Undetermined => None
  | Mismatch =>
      Some (ret (fail "JSON Unmarshal Error" (Error schema_type_error) None))
  | Decoded pinotSchema =>
      Some
      (* Ensure schema name matches *)
      (if negb (String.eqb (ValueString (SchemaName data))
                           (schemaName pinotSchema)) then
         ret (fail "Schema Name Mismatch"
                ("The schema_name attribute ("
                 +:+ ValueString (SchemaName data)
                 +:+ ") must match the schemaName in the JSON configuration ("
                 +:+ schemaName pinotSchema +:+ ")") None)
       else
         let* err := CreateSchema c (JObj (marshal_schema pinotSchema)) in
         match err with
         | Some err =>
             ret (fail "Error Creating Pinot Schema"
                    ("Could not create schema, unexpected error: "
                     +:+ Error err) None)
         | None =>
             ret {| Diagnostics := [];
                    State := Some
                      {| SchemaID := StringValue (schemaName pinotSchema);
                         SchemaName := SchemaName data;
                         Schema := Schema data |} |}
         end)
  end.


Definition SchemaDelete (c : PinotClient) (data : SchemaResourceModel)
  : M (Response SchemaResourceModel) :=
  let* err := DeleteSchema c (ValueString (SchemaName data)) in
  match err with
  | Some err =>
      ret (fail "Error Deleting Pinot Schema"
             ("Could not delete schema, unexpected error: " +:+ Error err)
             (Some data))
  | None => ret {| Diagnostics := []; State := None |}
  end.

(* ================================================================== *)
(** * Auxiliary definitions for the statements *)
(* ================================================================== *)

(** Closed forms of the redaction, with the copying loops resolved; they
    are proved equal to [removeSaslJaasFromTableConfig] below
    ([redact_unfold]) and only serve the proofs. *)
Definition redacted_scm (si : obj) : obj :=
  match si !! "streamConfigMaps" with
  | Some (JObj scm) => <["streamConfigMaps" := JObj (delete sasl_key scm)]> si
  | Some (JArr l) => <["streamConfigMaps" := JArr (strip_element <$> l)]> si
  | _ => si
  end.

Definition redacted_ingestion (ing : obj) : obj :=
  match ing !! "streamIngestionConfig" with
  | Some (JObj si) => <["streamIngestionConfig" := JObj (redacted_scm si)]> ing
  | _ => ing
  end.

Definition redacted (d : obj) : obj :=
  match d !! "ingestionConfig" with
  | Some (JObj ing) => <["ingestionConfig" := JObj (redacted_ingestion ing)]> d
  | _ => d
  end.

(** The values the schema admits for [table_type]
    ([stringvalidator.OneOf("OFFLINE", "REALTIME")]). *)
Definition valid_flavor (v : TfString) : Prop :=
  v = StringValue "OFFLINE" ∨ v = StringValue "REALTIME".



(** The password a user-creation request carries, if any. *)
Definition request_password (req : Request) : option string :=
  match payload req with
  | Some (JObj m) =>
      match m !! "password" with Some (JStr p) => Some p | _ => None end
  | _ => None
  end.

(** The one request a user lookup sends. *)
Definition user_lookup (c : PinotClient) (username component : string)
  : Request :=
  {| method := "GET";
     url := endpoint c ["users"; username]
              [("component", ToUpper component);
               ("componentType", ToUpper component)];
     payload := None |}.

(* ================================================================== *)
(** * Sample inputs *)
(* ================================================================== *)

(** A table model that carries nothing but the two credential
    attributes. *)
Definition credentials_only (u p : TfString) : TableResourceModel :=
  {| ID := StringNull; TableName := StringNull; TableType := StringNull;
     TableConfig := JNull;
     KafkaUsername := u; KafkaPassword := p;
     SaslJaasConfig := StringNull |}.

(** A table document with the list-of-maps shape, and a store holding its
    representation at location 1. *)
Definition sample_doc : obj :=
  {[ "tableName" := JStr "events_REALTIME";
     "ingestionConfig" :=
       JObj {[ "streamIngestionConfig" :=
                 JObj {[ "streamConfigMaps" :=
                           JArr [JObj {[ sasl_key := JStr "secret";
                                         "streamType" := JStr "kafka" ]};
                                 JStr "note"] ]} ]} ]}.

Definition sample_store : Store.store :=
  {[ 1%positive :=
       Store.OMap {[ "tableName" := Store.VStr "events_REALTIME";
                     "ingestionConfig" := Store.VMap 2%positive ]};
     2%positive :=
       Store.OMap {[ "streamIngestionConfig" := Store.VMap 3%positive ]};
     3%positive :=
       Store.OMap {[ "streamConfigMaps" := Store.VSlice 4%positive ]};
     4%positive :=
       Store.OSlice [Store.VMap 5%positive; Store.VStr "note"];
     5%positive :=
       Store.OMap {[ sasl_key := Store.VStr "secret";
                     "streamType" := Store.VStr "kafka" ]} ]}.

Definition sample_client : PinotClient :=
  {| controllerURL := "http://pinot:9000" |}.

(** A plan for table [events], flavor [OFFLINE], whose document carries
    neither [tableName] nor [tableType]. *)
Definition plan_without_identity : TableResourceModel :=
  {| ID := StringUnknown;
     TableName := StringValue "events";
     TableType := StringValue "OFFLINE";
     TableConfig := JObj {[ "segmentsConfig" :=
                              JObj {[ "replication" := JStr "1" ]} ]};
     KafkaUsername := StringNull;
     KafkaPassword := StringNull;
     SaslJaasConfig := StringUnknown |}.


Definition idle_world : World := {| replies := []; sent := [] |}.

(** A user lookup answered with a wrapper that has two entries, keyed by
    user name and upper-cased component. *)
Definition two_user_wrapper : obj :=
  {[ "alice_BROKER" :=
       JObj {[ "username" := JStr "alice"; "component" := JStr "BROKER";
               "role" := JStr "ADMIN" ]};
     "bob_BROKER" :=
       JObj {[ "username" := JStr "bob"; "component" := JStr "BROKER";
               "role" := JStr "USER" ]} ]}.

Definition json_body (j : json) : Body :=
  {| raw := "<json>"; parsed := Valid j |}.

Definition sample_user_plan (pw : TfString) : UserResourceModel :=
  {| UserID := StringUnknown;
     Username := StringValue "alice";
     Password := pw;
     Component := StringValue "BROKER";
     Role := StringValue "ADMIN";
     Tables := ListNull;
     Permissions := ListValue [StringValue "READ"] |}.

(* ================================================================== *)
(** * Auxiliary definitions and sample inputs for the further properties *)
(* ================================================================== *)

(** One white-space rune at the head of [s]: what follows it. *)
Definition cut_space (fwd : bool) (s : string) : option string :=
  match s with
  | String c1 s1 =>
      if Ascii.is_space c1 then Some s1
      else
        match s1 with
        | String c2 s2 =>
            if space2 fwd c1 c2 then Some s2
            else
              match s2 with
              | String c3 s3 => if space3 fwd c1 c2 c3 then Some s3 else None
              | EmptyString => None
              end
        | EmptyString => None
        end
  | EmptyString => None
  end.

(** U+00A0, the no-break space, in UTF-8. *)
Definition nbsp : string := String "194" (String "160" EmptyString).

Definition env_with_url (u : string) : Env :=
  {| PINOT_CONTROLLER_URL := u; PINOT_DATABASE := ""; PINOT_TOKEN := "";
     PINOT_USERNAME := ""; PINOT_PASSWORD := "" |}.

Definition config_with_url (u : TfString) : PinotProviderModel :=
  {| ControllerURL := u; ProviderUsername := StringNull;
     ProviderPassword := StringNull; Token := StringNull |}.

(** The request of the primary deletion path. *)
Definition logical_delete (env : Env) (n t : string) : Request :=
  {| method := "DELETE";
     url := Escaped (TrimRight (PINOT_CONTROLLER_URL env) "/")
              ["tables"; n] [("type", t)];
     payload := None |}.

(** The statuses [deleteTableByLogical] takes for success. *)
Definition deleted_status (status : nat) : bool :=
  (status =? 200) || (status =? 202) || (status =? 204) || (status =? 404).

(** A table as the state holds it. *)
Definition table_in_state (name : string) (kind : TfString) (id : string)
  : TableResourceModel :=
  {| ID := StringValue id; TableName := StringValue name;
     TableType := kind; TableConfig := JNull;
     KafkaUsername := StringNull; KafkaPassword := StringNull;
     SaslJaasConfig := StringNull |}.

(** The table [events], flavor [OFFLINE], under a name that starts with a
    no-break space. *)
Definition padded_table : TableResourceModel :=
  table_in_state (nbsp +:+ "events") (StringValue "OFFLINE") "events_OFFLINE".

(** Whether an element of the list shape carries the secret. *)
Definition element_holds_secret (el : json) : bool :=
  match el with
  | JObj m => bool_decide (is_Some (m !! sasl_key))
  | _ => false
  end.

(** Whether a document carries [sasl.jaas.config] in its
    [streamConfigMaps], in either shape. *)
Definition holds_secret (v : json) : bool :=
  match at_path scm_location v with
  | Some (JObj scm) => bool_decide (is_Some (scm !! sasl_key))
  | Some (JArr l) => existsb element_holds_secret l
  | _ => false
  end.

(** What redaction makes of the value at [streamConfigMaps]. *)
Definition strip_container (v : json) : json :=
  match v with
  | JObj scm => JObj (delete sasl_key scm)
  | JArr l => JArr (strip_element <$> l)
  | _ => v
  end.

(** A plan for the table [events], flavor [REALTIME], with Kafka
    credentials. *)
Definition plan_with_credentials : TableResourceModel :=
  {| ID := StringValue "events_REALTIME";
     TableName := StringValue "events";
     TableType := StringValue "REALTIME";
     TableConfig := JObj {[ "tableName" := JStr "events_REALTIME";
                            "tableType" := JStr "REALTIME" ]};
     KafkaUsername := StringValue "alice";
     KafkaPassword := StringValue "s3cret";
     SaslJaasConfig := StringUnknown |}.

(** The request that addresses one user of one component. *)
Definition user_request (verb : string) (c : PinotClient)
    (username component : string) (body : option json) : Request :=
  {| method := verb;
     url := endpoint c ["users"; username]
              [("component", ToUpper component);
               ("componentType", ToUpper component)];
     payload := body |}.


Definition folded_schema_plan : SchemaResourceModel :=
  {| SchemaID := StringUnknown;
     SchemaName := StringValue "orders";
     Schema := JObj {[ "SCHEMANAME" := JStr "orders";
                       "primaryKeyColumns" := JArr [JStr "id"] ]} |}.


(* ================================================================== *)
(** * Properties *)
(* ================================================================== *)

(** ** Strings *)

Section StringFacts.
Implicit Types a b s t : string.

Lemma app_cons c a b : String c a +:+ b = String c (a +:+ b).
Proof. reflexivity. Qed.

Lemma app_assoc_s a b t : (a +:+ b) +:+ t = a +:+ (b +:+ t).
Proof. induction a as [|c a IH]; [done|]. by rewrite !app_cons, IH. Qed.

Lemma length_app_s a b :
  String.length (a +:+ b) = String.length a + String.length b.
Proof. induction a as [|c a IH]; [done|]. rewrite app_cons. simpl. by rewrite IH. Qed.

Lemma substring_all s : substring 0 (String.length s) s = s.
Proof. induction s as [|c s IH]; [done|]. simpl. by rewrite IH. Qed.

Lemma substring_app_r a b :
  substring (String.length a) (String.length b) (a +:+ b) = b.
Proof.
  induction a as [|c a IH]; [apply substring_all|].
  rewrite app_cons. simpl. exact IH.
Qed.

Lemma substring_app_l a b : substring 0 (String.length a) (a +:+ b) = a.
Proof.
  induction a as [|c a IH]; [by destruct b|].
  rewrite app_cons. simpl. by rewrite IH.
Qed.

(** The last [length suffix] bytes decide [HasSuffix]. *)
Lemma HasSuffix_app a b suffix :
  String.length b = String.length suffix →
  HasSuffix (a +:+ b) suffix = String.eqb b suffix.
Proof.
  intros Hlen. unfold HasSuffix.
  rewrite length_app_s, Hlen.
  replace (String.length a + String.length suffix - String.length suffix)
    with (String.length a) by lia.
  rewrite <- Hlen, substring_app_r.
  destruct (_ <=? _) eqn:Hle; [done|].
  apply Nat.leb_gt in Hle. lia.
Qed.

Lemma TrimSuffix_app a b : TrimSuffix (a +:+ b) b = a.
Proof.
  unfold TrimSuffix. rewrite HasSuffix_app, String.eqb_refl by done.
  rewrite length_app_s.
  replace (String.length a + String.length b - String.length b)
    with (String.length a) by lia.
  apply substring_app_l.
Qed.

Lemma prefix_app a b : String.prefix a (a +:+ b) = true.
Proof.
  induction a as [|c a IH]; [by destruct b|].
  rewrite app_cons. simpl. by destruct (ascii_dec c c).
Qed.

Lemma Contains_prefix s t : HasPrefix s t = true → Contains s t = true.
Proof. intros H. destruct s; cbn [Contains]; by rewrite H. Qed.

Lemma Contains_app_r a s t : Contains s t = true → Contains (a +:+ s) t = true.
Proof.
  intros H. induction a as [|c a IH]; [done|].
  rewrite app_cons. cbn [Contains]. rewrite IH. apply orb_true_r.
Qed.

(** A string contains each of the pieces it is assembled from. *)
Lemma Contains_middle a t b : Contains (a +:+ t +:+ b) t = true.
Proof. apply Contains_app_r, Contains_prefix, prefix_app. Qed.

Lemma eqb_false_ne s t : s ≠ t → String.eqb s t = false.
Proof. apply String.eqb_neq. Qed.
End StringFacts.

(** ** Identity codec *)

Lemma joinTableID_flavor (logical flavor : string) :
  flavor = "OFFLINE" ∨ flavor = "REALTIME" →
  TrimSpace logical ≠ "" →
  joinTableID logical flavor = TrimSpace logical +:+ "_" +:+ flavor.
Proof.
  intros Hf Hl. unfold joinTableID.
  rewrite (eqb_false_ne _ _ Hl).
  by destruct Hf as [-> | ->].
Qed.

(** C8, as stated, fails: [joinTableID] trims the logical name, so a name
    with surrounding white space does not come back. *)
Lemma table_id_roundtrip_padded_name :
  splitTableID (joinTableID " events" "OFFLINE") = ("events", "OFFLINE") ∧
  splitTableID (joinTableID " events" "OFFLINE") ≠ (" events", "OFFLINE").
Proof. split; [reflexivity | discriminate]. Qed.

(** C8 (amended).  For a flavor [OFFLINE] or [REALTIME] and a logical name
    that is not blank, parsing the derived composite identifier returns
    the trimmed logical name and the flavor; a name without surrounding
    white space therefore comes back unchanged. *)
Theorem table_id_roundtrip (logical flavor : string) :
  flavor = "OFFLINE" ∨ flavor = "REALTIME" →
  TrimSpace logical ≠ "" →
  splitTableID (joinTableID logical flavor) = (TrimSpace logical, flavor) ∧
  (TrimSpace logical = logical →
   splitTableID (joinTableID logical flavor) = (logical, flavor)).
Proof.
  intros Hf Hl.
  assert (splitTableID (joinTableID logical flavor)
          = (TrimSpace logical, flavor)) as Heq.
  { rewrite joinTableID_flavor by done. unfold splitTableID.
    destruct Hf as [-> | ->].
    - rewrite HasSuffix_app by done. simpl.
      by rewrite TrimSuffix_app.
    - replace (TrimSpace logical +:+ "_" +:+ "REALTIME")
        with ((TrimSpace logical +:+ "_") +:+ "REALTIME")
        by apply app_assoc_s.
      rewrite HasSuffix_app by done. simpl.
      rewrite app_assoc_s.
      rewrite HasSuffix_app by done. simpl.
      by rewrite (TrimSuffix_app _ "_REALTIME"). }
  split; [done|]. intros Htrim. by rewrite Heq, Htrim.
Qed.

Lemma table_id_roundtrip_witness :
  splitTableID (joinTableID "user_events" "REALTIME")
  = (TrimSpace "user_events", "REALTIME") ∧
  (TrimSpace "user_events" = "user_events" →
   splitTableID (joinTableID "user_events" "REALTIME")
   = ("user_events", "REALTIME")).
Proof.
  apply (table_id_roundtrip "user_events" "REALTIME").
  - right; reflexivity.
  - vm_compute. discriminate.
Defined.

(** ** Credential engine *)

Lemma Contains_piece (a t b s : string) :
  s = a +:+ t +:+ b → Contains s t = true.
Proof. intros ->. apply Contains_middle. Qed.

(** C5, as stated, fails in its third part: two empty strings are not a
    no-op; the explicit non-empty check rejects them. *)
Lemma empty_credentials_rejected :
  buildSaslIfProvided (credentials_only (StringValue "") (StringValue ""))
  = ("", Some (Errorf
       "both kafka_username and kafka_password must be non-empty")) ∧
  buildSaslIfProvided (credentials_only (StringValue "") (StringValue ""))
  ≠ ("", None).
Proof. split; [reflexivity | discriminate]. Qed.

(** C5 (amended).  With a non-blank username [u] and password [p] the
    builder returns a credential containing both [username="u"] and
    [password="p"]; with exactly one of the two absent, or with either one
    supplied but blank, it fails with an incomplete-credentials error; it is
    a no-op without error only when both are absent (null), not when both
    are empty strings. *)
Theorem credential_builder (data : TableResourceModel) :
  (∀ u p,
     KafkaUsername data = StringValue u →
     KafkaPassword data = StringValue p →
     TrimSpace u ≠ "" → TrimSpace p ≠ "" →
     ∃ cred, buildSaslIfProvided data = (cred, None)
       ∧ Contains cred ("username=" +:+ Quote u) = true
       ∧ Contains cred ("password=" +:+ Quote p) = true) ∧
  (IsNull (KafkaUsername data) ≠ IsNull (KafkaPassword data) →
   ∃ e, buildSaslIfProvided data = ("", Some e)) ∧
  (IsNull (KafkaUsername data) = false →
   IsNull (KafkaPassword data) = false →
   TrimSpace (ValueString (KafkaUsername data)) = ""
   ∨ TrimSpace (ValueString (KafkaPassword data)) = "" →
   ∃ e, buildSaslIfProvided data = ("", Some e)) ∧
  (KafkaUsername data = StringNull → KafkaPassword data = StringNull →
   buildSaslIfProvided data = ("", None)).
Proof.
  unfold buildSaslIfProvided. repeat split.
  - intros u p -> -> Hu Hp. simpl.
    rewrite (eqb_false_ne _ _ Hu), (eqb_false_ne _ _ Hp). simpl.
    eexists; split; [reflexivity|]. unfold buildSaslJaas, Quote. split.
    + apply (Contains_piece
        "org.apache.kafka.common.security.scram.ScramLoginModule required "
        _ (" password=" +:+ dquote +:+ p +:+ dquote +:+ ";")).
      rewrite !app_assoc_s. reflexivity.
    + apply (Contains_piece
        ("org.apache.kafka.common.security.scram.ScramLoginModule required username="
         +:+ dquote +:+ u +:+ dquote +:+ " ") _ ";").
      rewrite !app_assoc_s. reflexivity.
  - intros Hne.
    destruct (IsNull (KafkaUsername data)), (IsNull (KafkaPassword data));
      simpl; try done; eauto.
  - intros -> -> Hblank. simpl.
    destruct Hblank as [-> | ->]; simpl; [eauto|].
    rewrite orb_true_r. eauto.
  - by intros -> ->.
Qed.

Lemma credential_builder_witness :
  (∃ cred,
     buildSaslIfProvided
       (credentials_only (StringValue "u") (StringValue "p")) = (cred, None)
     ∧ Contains cred ("username=" +:+ Quote "u") = true
     ∧ Contains cred ("password=" +:+ Quote "p") = true) ∧
  (∃ e, buildSaslIfProvided (credentials_only (StringValue "u") StringNull)
        = ("", Some e)) ∧
  (∃ e, buildSaslIfProvided
          (credentials_only (StringValue "u") (StringValue ""))
        = ("", Some e)) ∧
  buildSaslIfProvided (credentials_only StringNull StringNull) = ("", None).
Proof.
  split; [|split; [|split]].
  - apply (proj1 (credential_builder
             (credentials_only (StringValue "u") (StringValue "p"))) "u" "p");
      [reflexivity | reflexivity | vm_compute; discriminate
      | vm_compute; discriminate].
  - apply (proj1 (proj2 (credential_builder
             (credentials_only (StringValue "u") StringNull)))).
    simpl. discriminate.
  - apply (proj1 (proj2 (proj2 (credential_builder
             (credentials_only (StringValue "u") (StringValue ""))))));
      [reflexivity | reflexivity | right; reflexivity].
  - apply (proj2 (proj2 (proj2 (credential_builder
             (credentials_only StringNull StringNull)))));
      reflexivity.
Defined.

(** ** Redaction and injection on documents *)

(** The copying loops: the order in which Go visits a map is unspecified
    and does not matter. *)
Lemma copy_map_id {A} (src : gmap string A) : copy_map src = src.
Proof.
  unfold copy_map.
  apply (map_fold_weak_ind (λ out m, out = m)); [done|].
  by intros k v m out _ ->.
Qed.

Lemma copy_map_without_delete {A} (key : string) (src : gmap string A) :
  copy_map_without key src = delete key src.
Proof.
  unfold copy_map_without.
  apply (map_fold_weak_ind (λ out m, out = delete key m)).
  - by rewrite delete_empty.
  - intros k v m out _ ->. case_decide as Hk.
    + subst k. by rewrite delete_insert_eq.
    + by rewrite delete_insert_ne.
Qed.

Lemma strip_element_idemp (el : json) :
  strip_element (strip_element el) = strip_element el.
Proof.
  destruct el; simpl; try done.
  by rewrite !copy_map_without_delete, delete_delete_eq.
Qed.

Lemma strip_elements_idemp (l : list json) :
  strip_element <$> (strip_element <$> l) = strip_element <$> l.
Proof.
  rewrite <- list_fmap_compose. apply list_fmap_ext.
  intros _ el _. apply strip_element_idemp.
Qed.

Lemma redact_unfold (d : obj) :
  removeSaslJaasFromTableConfig (Some d) = Some (redacted d).
Proof.
  unfold removeSaslJaasFromTableConfig, redacted, redacted_ingestion,
    redacted_scm, as_map.
  rewrite copy_map_id.
  destruct (d !! "ingestionConfig") as [[| | | | |ing]|] eqn:Hi; try done.
  rewrite copy_map_id.
  destruct (ing !! "streamIngestionConfig") as [[| | | | |si]|] eqn:Hs;
    try (by rewrite insert_id).
  rewrite copy_map_id.
  destruct (si !! "streamConfigMaps") as [[| | | |l|scm]|] eqn:Hc; try done.
  by rewrite copy_map_without_delete.
Qed.

Lemma redacted_scm_idemp (si : obj) :
  redacted_scm (redacted_scm si) = redacted_scm si.
Proof.
  unfold redacted_scm.
  destruct (si !! "streamConfigMaps") as [[| | | |l|scm]|] eqn:Hc;
    rewrite ?Hc, ?lookup_insert_eq, ?insert_insert_eq; try done.
  - by rewrite strip_elements_idemp.
  - by rewrite delete_delete_eq.
Qed.

Lemma redacted_ingestion_idemp (ing : obj) :
  redacted_ingestion (redacted_ingestion ing) = redacted_ingestion ing.
Proof.
  unfold redacted_ingestion.
  destruct (ing !! "streamIngestionConfig") as [[| | | | |si]|] eqn:Hs;
    rewrite ?Hs, ?lookup_insert_eq, ?insert_insert_eq; try done.
  by rewrite redacted_scm_idemp.
Qed.

Lemma redacted_idemp (d : obj) : redacted (redacted d) = redacted d.
Proof.
  unfold redacted.
  destruct (d !! "ingestionConfig") as [[| | | | |ing]|] eqn:Hi;
    rewrite ?Hi, ?lookup_insert_eq, ?insert_insert_eq; try done.
  by rewrite redacted_ingestion_idemp.
Qed.

(** Redaction is idempotent on every document, the nil map included. *)
Lemma redact_idempotent (input : option obj) :
  removeSaslJaasFromTableConfig (removeSaslJaasFromTableConfig input)
  = removeSaslJaasFromTableConfig input.
Proof.
  destruct input as [d|]; [|done].
  by rewrite !redact_unfold, redacted_idemp.
Qed.

(** The document after injection and redaction: the three maps on the way
    to [streamConfigMaps] are those of [d] (empty where [d] has no map
    there), with only the entry leading on replaced. *)
Lemma inject_then_redact_shape (d : obj) (s : string) :
  let ing := default ∅ (as_map (d !! "ingestionConfig")) in
  let si := default ∅ (as_map (ing !! "streamIngestionConfig")) in
  ∃ scm,
    inject_then_redact d s =
    JObj (<["ingestionConfig" :=
             JObj (<["streamIngestionConfig" :=
                       JObj (<["streamConfigMaps" := scm]> si)]> ing)]> d).
Proof.
  intros ing si. unfold inject_then_redact.
  rewrite redact_unfold. unfold injectKafkaSasl. fold ing. fold si.
  unfold redacted. rewrite lookup_insert_eq, insert_insert_eq.
  unfold redacted_ingestion. rewrite lookup_insert_eq, insert_insert_eq.
  unfold redacted_scm. rewrite lookup_insert_eq.
  destruct (si !! "streamConfigMaps") as [[| | | |[|[] ?]|]|];
    rewrite insert_insert_eq; eauto.
Qed.

(** C4, as stated, fails: injection creates [ingestionConfig] (and replaces
    a value there that is not an object), and that path is not inside the
    [streamConfigMaps] location. *)
Lemma frame_broken_above_location :
  ¬ scm_location `prefix_of` ["ingestionConfig"] ∧
  at_path ["ingestionConfig"] (inject_then_redact ∅ "secret")
    ≠ at_path ["ingestionConfig"] (JObj ∅) ∧
  at_path ["ingestionConfig"]
      (inject_then_redact {[ "ingestionConfig" := JStr "legacy" ]} "secret")
    ≠ at_path ["ingestionConfig"]
        (JObj {[ "ingestionConfig" := JStr "legacy" ]}).
Proof.
  split; [|split].
  - intros [k Hk]. discriminate Hk.
  - vm_compute. discriminate.
  - vm_compute. discriminate.
Qed.

(** C4 (amended).  Redacting the document obtained by injecting [s] into
    [d] yields a document equal to [d] at every key path that neither lies
    within the [streamConfigMaps] location nor leads to it. *)
Theorem inject_then_redact_frame (d : obj) (s : string) (p : list string) :
  ¬ scm_location `prefix_of` p →
  ¬ p `prefix_of` scm_location →
  at_path p (inject_then_redact d s) = at_path p (JObj d).
Proof.
  intros Hin Hup.
  destruct (inject_then_redact_shape d s) as [scm ->].
  destruct p as [|k1 p]; [destruct Hup; apply prefix_nil|].
  simpl. destruct (decide (k1 = "ingestionConfig")) as [->|Hk1];
    [|by rewrite lookup_insert_ne].
  rewrite lookup_insert_eq. simpl.
  destruct p as [|k2 p].
  { destruct Hup. by exists ["streamIngestionConfig"; "streamConfigMaps"]. }
  simpl. destruct (decide (k2 = "streamIngestionConfig")) as [->|Hk2].
  - rewrite lookup_insert_eq. simpl.
    destruct p as [|k3 p].
    { destruct Hup. by exists ["streamConfigMaps"]. }
    simpl. destruct (decide (k3 = "streamConfigMaps")) as [->|Hk3].
    { destruct Hin. by exists p. }
    rewrite lookup_insert_ne by done.
    destruct (d !! "ingestionConfig") as [[| | | | |ing]|]; simpl; try done.
    destruct (ing !! "streamIngestionConfig") as [[| | | | |si]|]; simpl;
      done.
  - rewrite lookup_insert_ne by done.
    destruct (d !! "ingestionConfig") as [[| | | | |ing]|]; simpl; done.
Qed.

Lemma inject_then_redact_frame_witness :
  at_path ["ingestionConfig"; "batchIngestionConfig"]
    (inject_then_redact
       {[ "ingestionConfig" :=
            JObj {[ "batchIngestionConfig" := JStr "daily" ]} ]} "secret")
  = at_path ["ingestionConfig"; "batchIngestionConfig"]
      (JObj {[ "ingestionConfig" :=
                 JObj {[ "batchIngestionConfig" := JStr "daily" ]} ]}).
Proof.
  apply inject_then_redact_frame.
  - intros [k Hk]. discriminate Hk.
  - intros [k Hk]. discriminate Hk.
Defined.

(** ** The store-level redaction *)

Section StoreFacts.
Import Store.
Implicit Types (σ : store) (l : loc) (o : object).

Lemma alloc_spec o σ :
  ∃ l, alloc o σ = (l, <[l := o]> σ) ∧ σ !! l = None.
Proof.
  exists (fresh (dom σ)). split; [done|].
  apply not_elem_of_dom, is_fresh.
Qed.

Lemma map_set_spec σ l k v m :
  σ !! l = Some (OMap m) →
  map_set l k v σ = <[l := OMap (<[k := v]> m)]> σ.
Proof. intros H. unfold map_set. by rewrite H. Qed.

Lemma slice_set_spec σ l i v a :
  σ !! l = Some (OSlice a) →
  slice_set l i v σ = <[l := OSlice (<[i := v]> a)]> σ.
Proof. intros H. unfold slice_set. by rewrite H. Qed.

(** Writes to a location that the original store [σ0] does not have leave
    every object of [σ0] as it was. *)
Lemma alloc_extends σ0 σ o :
  σ0 ⊆ σ →
  σ0 ⊆ (alloc o σ).2 ∧ σ0 !! (alloc o σ).1 = None.
Proof.
  intros Hsub. destruct (alloc_spec o σ) as (l & -> & Hl). simpl.
  assert (σ0 !! l = None) as Hl0.
  { destruct (σ0 !! l) eqn:E; [|done].
    by rewrite (lookup_weaken _ _ _ _ E Hsub) in Hl. }
  split; [|done]. by apply insert_subseteq_r.
Qed.

Lemma map_set_extends σ0 σ l k v :
  σ0 ⊆ σ → σ0 !! l = None → σ0 ⊆ map_set l k v σ.
Proof.
  intros Hsub Hl. unfold map_set.
  destruct (σ !! l) as [[m|a]|]; try done. by apply insert_subseteq_r.
Qed.

Lemma slice_set_extends σ0 σ l i v :
  σ0 ⊆ σ → σ0 !! l = None → σ0 ⊆ slice_set l i v σ.
Proof.
  intros Hsub Hl. unfold slice_set.
  destruct (σ !! l) as [[m|a]|]; try done. by apply insert_subseteq_r.
Qed.

Lemma strip_loop_extends σ0 newList els :
  σ0 !! newList = None →
  ∀ i σ, σ0 ⊆ σ → σ0 ⊆ strip_loop newList i els σ.
Proof.
  intros Hnew. induction els as [|el rest IH]; intros i σ Hsub; [done|].
  cbn [strip_loop]. apply IH.
  destruct el as [| | | | |m]; try (by apply slice_set_extends).
  pose proof (alloc_extends σ0 σ
                (OMap (copy_map_without sasl_key (map_at σ m))) Hsub)
    as [Hsub' _].
  destruct (alloc _ σ) as [newMap σ1]. simpl in Hsub'.
  by apply slice_set_extends.
Qed.

(** The redaction only allocates, and writes to what it allocated: every
    object that existed before the call, the argument and all it reaches
    included, is the same object afterwards. *)
Lemma store_redact_preserves (input : option loc) σ :
  σ ⊆ (Store.removeSaslJaasFromTableConfig input σ).2.
Proof.
  destruct input as [input|]; [|done].
  unfold Store.removeSaslJaasFromTableConfig.
  pose proof (alloc_extends σ σ (OMap (copy_map (map_at σ input)))
                (reflexivity σ)) as [H1 Hout].
  destruct (alloc _ σ) as [out σ1]. simpl in H1, Hout.
  destruct (map_at σ1 out !! "ingestionConfig") as [[| | | | |ing]|];
    try done.
  pose proof (alloc_extends σ σ1 (OMap (copy_map (map_at σ1 ing))) H1)
    as [H2 Hni].
  destruct (alloc _ σ1) as [newIngestion σ2]. simpl in H2, Hni.
  pose proof (map_set_extends σ σ2 out "ingestionConfig"
                (VMap newIngestion) H2 Hout) as H3.
  set (σ3 := map_set out _ _ σ2) in *.
  destruct (map_at σ3 newIngestion !! "streamIngestionConfig")
    as [[| | | | |si]|]; try done.
  pose proof (alloc_extends σ σ3 (OMap (copy_map (map_at σ3 si))) H3)
    as [H4 Hnsi].
  destruct (alloc _ σ3) as [newSI σ4]. simpl in H4, Hnsi.
  pose proof (map_set_extends σ σ4 newIngestion "streamIngestionConfig"
                (VMap newSI) H4 Hni) as H5.
  set (σ5 := map_set newIngestion _ _ σ4) in *.
  destruct (map_at σ5 newSI !! "streamConfigMaps") as [[| | | |scmList|scm]|];
    try done.
  - pose proof (alloc_extends σ σ5
        (OSlice (replicate (length (slice_at σ5 scmList)) VNull)) H5)
      as [H6 Hnl].
    destruct (alloc _ σ5) as [newList σ6]. simpl in H6, Hnl. simpl.
    apply map_set_extends; [|done]. by apply strip_loop_extends.
  - pose proof (alloc_extends σ σ5
        (OMap (copy_map_without sasl_key (map_at σ5 scm))) H5) as [H6 _].
    destruct (alloc _ σ5) as [newScm σ6]. simpl in H6. simpl.
    by apply map_set_extends.
Qed.

End StoreFacts.

Section Refinement.
Import Store.
Implicit Types (σ : store) (l : loc) (v : value) (j : json).

(** A document stays represented when the store only grows. *)
Lemma represents_mono σ σ' :
  σ ⊆ σ' → ∀ v j, represents σ v j → represents σ' v j.
Proof.
  intros Hsub. fix IH 3. intros v j H.
  destruct H as [| | | |l vs js Hl Hall|l vm jm Hl Hall].
  - constructor.
  - constructor.
  - constructor.
  - constructor.
  - apply rep_slice with vs; [by eapply lookup_weaken|].
    clear Hl. induction Hall as [|v j vs js Hv _ IHall]; constructor; auto.
  - apply rep_map with vm; [by eapply lookup_weaken|].
    intros k. destruct (Hall k) as [v j Hv|]; constructor. by apply IH.
Qed.

Lemma fields_mono σ σ' (vm : gmap string value) (jm : obj) :
  σ ⊆ σ' →
  map_Forall2 (λ _, represents σ) vm jm →
  map_Forall2 (λ _, represents σ') vm jm.
Proof.
  intros Hsub H. eapply map_Forall2_impl; [exact H|].
  intros k v j. by apply represents_mono.
Qed.

Lemma represents_map_inv σ l j :
  represents σ (VMap l) j →
  ∃ vm jm, j = JObj jm ∧ σ !! l = Some (OMap vm)
           ∧ map_Forall2 (λ _, represents σ) vm jm.
Proof. inversion 1; subst; eauto. Qed.

(** A fresh map holding the fields [vm] represents the object [jm] they
    represent. *)
Lemma represents_new_map σ0 σ l (vm : gmap string value) (jm : obj) :
  σ0 ⊆ σ → σ !! l = Some (OMap vm) →
  map_Forall2 (λ _, represents σ0) vm jm →
  represents σ (VMap l) (JObj jm).
Proof.
  intros Hsub Hl Hf. apply rep_map with vm; [done|].
  by apply (fields_mono σ0).
Qed.

(** One round of the loop: the value [w] written at index [i] represents
    the stripped element in every later store that keeps what this round
    allocated. *)
Lemma strip_step_spec σ0 newList σ a i el j :
  σ0 !! newList = None →
  σ0 ⊆ σ →
  σ !! newList = Some (OSlice a) →
  represents σ0 el j →
  let σ1 :=
    match el with
    | VMap m =>
        let '(newMap, σ1) :=
          alloc (OMap (copy_map_without sasl_key (map_at σ m))) σ in
        slice_set newList i (VMap newMap) σ1
    | _ => slice_set newList i el σ
    end in
  ∃ w,
    σ0 ⊆ σ1 ∧
    σ1 !! newList = Some (OSlice (<[i := w]> a)) ∧
    (∀ l o, l ≠ newList → σ !! l = Some o → σ1 !! l = Some o) ∧
    (∀ σ', σ0 ⊆ σ' →
           (∀ l o, σ !! l = None → σ1 !! l = Some o → σ' !! l = Some o) →
           represents σ' w (strip_element j)).
Proof.
  intros Hnew Hsub Ha Hel.
  assert (∀ w, (∀ m, el ≠ VMap m) → w = el →
            let σ1 := slice_set newList i w σ in
            σ0 ⊆ σ1 ∧
            σ1 !! newList = Some (OSlice (<[i := w]> a)) ∧
            (∀ l o, l ≠ newList → σ !! l = Some o → σ1 !! l = Some o) ∧
            (∀ σ', σ0 ⊆ σ' →
               (∀ l o, σ !! l = None → σ1 !! l = Some o → σ' !! l = Some o) →
               represents σ' w (strip_element j))) as Hplain.
  { intros w Hnm -> σ1. subst σ1.
    rewrite (slice_set_spec _ _ _ _ _ Ha).
    split; [by apply insert_subseteq_r|].
    split; [by rewrite lookup_insert_eq|].
    split; [intros l o Hl Ho; by rewrite lookup_insert_ne|].
    intros σ' Hsub' _.
    replace (strip_element j) with j.
    - by apply (represents_mono σ0).
    - destruct Hel; try done. by destruct (Hnm l). }
  destruct el as [| | | | |m];
    try (by (eexists; apply Hplain)).
  clear Hplain.
  apply represents_map_inv in Hel as (vm & jm & -> & Hm & Hfields).
  unfold map_at. rewrite (lookup_weaken _ _ _ _ Hm Hsub).
  rewrite copy_map_without_delete.
  destruct (alloc_spec (OMap (delete sasl_key vm)) σ) as (newMap & -> & Hfresh).
  assert (newMap ≠ newList) as Hne by (intros ->; congruence).
  rewrite (slice_set_spec _ _ _ _ a) by (by rewrite lookup_insert_ne).
  exists (VMap newMap).
  assert (σ0 !! newMap = None) as Hfresh0.
  { destruct (σ0 !! newMap) eqn:E; [|done].
    by rewrite (lookup_weaken _ _ _ _ E Hsub) in Hfresh. }
  split; [by repeat (apply insert_subseteq_r; [done|])|].
  split; [by rewrite lookup_insert_eq|].
  split.
  { intros l o Hl Ho. rewrite lookup_insert_ne by done.
    rewrite lookup_insert_ne; [done|]. intros ->. congruence. }
  intros σ' Hsub' Hkeep. simpl. rewrite copy_map_without_delete.
  apply (represents_new_map σ0 _ _ (delete sasl_key vm)); [done| |].
  - apply Hkeep; [done|].
    rewrite lookup_insert_ne by done. by rewrite lookup_insert_eq.
  - by apply map_Forall2_delete.
Qed.

(** The loop over the list-of-maps shape.  Before element [i] is visited
    the new list holds the elements already written followed by nils;
    afterwards it holds, from [i] on, values that represent the stripped
    elements. *)
Lemma strip_loop_spec σ0 newList :
  σ0 !! newList = None →
  ∀ els js i σ a,
    σ0 ⊆ σ →
    σ !! newList = Some (OSlice a) →
    length a = i + length els →
    Forall2 (represents σ0) els js →
    let σ' := strip_loop newList i els σ in
    (∀ l o, l ≠ newList → σ !! l = Some o → σ' !! l = Some o) ∧
    ∃ vs, σ' !! newList = Some (OSlice (take i a ++ vs)) ∧
          ∀ σ'', σ0 ⊆ σ'' →
            (∀ l o, σ !! l = None → σ' !! l = Some o → σ'' !! l = Some o) →
            Forall2 (represents σ'') vs (strip_element <$> js).
Proof.
  intros Hnew els. induction els as [|el rest IH];
    intros js i σ a Hsub Ha Hlen Hall; inversion Hall as [|? j ? js' Hel Hrest];
    subst.
  - simpl. split; [done|]. exists []. split; [|by constructor].
    rewrite app_nil_r, take_ge; [done|]. simpl in Hlen. lia.
  - cbn [strip_loop]. simpl in Hlen.
    destruct (strip_step_spec σ0 newList σ a i el j Hnew Hsub Ha Hel)
      as (w & Hsub1 & Hnl1 & Hkeep1 & Hw).
    set (σ1 := match el with VMap _ => _ | _ => _ end) in *.
    destruct (IH js' (S i) σ1 (<[i := w]> a) Hsub1 Hnl1) as (Hkeep & vs & Hnl & Hvs);
      [rewrite length_insert; lia | done |].
    set (σ' := strip_loop newList (S i) rest σ1) in *.
    split; [intros l o Hl Ho; by apply Hkeep, Hkeep1|].
    exists (w :: vs). split.
    + rewrite Hnl. do 2 f_equal.
      rewrite (take_S_r _ _ w) by (apply list_lookup_insert_eq; lia).
      rewrite take_insert_ge by done. by rewrite <- app_assoc.
    + intros σ'' Hsub'' Hkeep''. rewrite fmap_cons. constructor.
      * apply Hw; [done|]. intros l o Hl Ho.
        destruct (decide (l = newList)) as [->|Hne]; [congruence|].
        apply Hkeep''; [done|]. by apply Hkeep.
      * apply Hvs; [done|]. intros l o Hl Ho.
        apply Hkeep''; [|done].
        destruct (σ !! l) as [o'|] eqn:E; [|done].
        destruct (decide (l = newList)) as [->|Hne]; [congruence|].
        rewrite (Hkeep1 l o' Hne E) in Hl. done.
Qed.

Lemma map_at_weaken σ0 σ l (m : gmap string value) :
  σ0 ⊆ σ → σ0 !! l = Some (OMap m) → map_at σ l = m.
Proof. intros Hsub Hl. unfold map_at. by rewrite (lookup_weaken _ _ _ _ Hl Hsub). Qed.

Lemma slice_at_weaken σ0 σ l (a : list value) :
  σ0 ⊆ σ → σ0 !! l = Some (OSlice a) → slice_at σ l = a.
Proof. intros Hsub Hl. unfold slice_at. by rewrite (lookup_weaken _ _ _ _ Hl Hsub). Qed.

(** A new map whose fields are those of an old one, except for one that
    was redirected to a new object. *)
Lemma represents_updated_map σ0 σ l k (vm : gmap string value) (jm : obj)
    v' j' :
  σ0 ⊆ σ →
  σ !! l = Some (OMap (<[k := v']> vm)) →
  map_Forall2 (λ _, represents σ0) vm jm →
  represents σ v' j' →
  represents σ (VMap l) (JObj (<[k := j']> jm)).
Proof.
  intros Hsub Hl Hf Hv. eapply rep_map; [done|].
  apply map_Forall2_insert_2; [done|]. by apply (fields_mono σ0).
Qed.

#[local] Arguments alloc : simpl never.
#[local] Arguments map_set : simpl never.
#[local] Arguments slice_set : simpl never.
#[local] Arguments strip_loop : simpl never.

(** Symbolic execution of one allocation in hypothesis [H]. *)
Ltac step_alloc H l Hl :=
  match type of H with
  | context [alloc ?o ?s] =>
      let E := fresh "E" in
      destruct (alloc_spec o s) as (l & E & Hl);
      rewrite E in H; clear E; cbn beta iota zeta in H
  end.

(** The store-level redaction refines the document-level one: run on the
    representation of [d] it returns a representation of the redacted
    [d]. *)
Lemma store_redact_refines σ input d r σ' :
  represents σ (VMap input) (JObj d) →
  Store.removeSaslJaasFromTableConfig (Some input) σ = (r, σ') →
  ∃ out, r = Some out ∧ represents σ' (VMap out) (JObj (redacted d)).
Proof.
  intros Hrep Hrun.
  apply represents_map_inv in Hrep as (vm & ? & [= <-] & Hin & Hd).
  unfold Store.removeSaslJaasFromTableConfig in Hrun.
  unfold map_at at 1 in Hrun. rewrite Hin, copy_map_id in Hrun.
  step_alloc Hrun out Hout.
  assert (σ ⊆ <[out := OMap vm]> σ) as H1 by (by apply insert_subseteq).
  unfold map_at at 1 in Hrun. rewrite lookup_insert_eq in Hrun.
  assert (represents (<[out := OMap vm]> σ) (VMap out) (JObj d)) as Htop.
  { apply (represents_new_map σ _ _ vm); [done| |done].
    apply lookup_insert_eq. }
  unfold redacted.
  pose proof (Hd "ingestionConfig") as Hic.
  inversion Hic as [v j Hv Ev Ej | Ev Ej]; clear Hic;
    rewrite <- Ev in Hrun; [|simplify_eq; eauto].
  destruct Hv as [| | | | |ing vmi ingj Hing Hi]; simplify_eq; eauto.
  (* level 2: the copy of ingestionConfig *)
  rewrite (map_at_weaken _ _ _ _ H1 Hing), copy_map_id in Hrun.
  step_alloc Hrun newIng HnewIng.
  assert (newIng ≠ out) as Hne1
    by (intros ->; by rewrite lookup_insert_eq in HnewIng).
  rewrite lookup_insert_ne in HnewIng by done.
  rewrite (map_set_spec _ _ _ _ vm) in Hrun
    by (by rewrite lookup_insert_ne, lookup_insert_eq).
  rewrite insert_insert_ne, insert_insert_eq in Hrun by done.
  set (σ3 := <[newIng := OMap vmi]>
               (<[out := OMap (<["ingestionConfig" := VMap newIng]> vm)]> σ))
    in *.
  assert (σ ⊆ σ3) as H3 by (by repeat (apply insert_subseteq_r; [done|])).
  assert (σ3 !! newIng = Some (OMap vmi)) as Hni3 by apply lookup_insert_eq.
  assert (σ3 !! out = Some (OMap (<["ingestionConfig" := VMap newIng]> vm)))
    as Hout3 by (subst σ3; by rewrite lookup_insert_ne, lookup_insert_eq).
  unfold map_at at 1 in Hrun. rewrite Hni3 in Hrun.
  unfold redacted_ingestion.
  assert (represents σ3 (VMap out)
            (JObj (<["ingestionConfig" := JObj ingj]> d))) as Hmid.
  { apply (represents_updated_map σ σ3 out _ vm d (VMap newIng));
      [done..|].
    by apply (represents_new_map σ _ _ vmi). }
  pose proof (Hi "streamIngestionConfig") as Hsic.
  inversion Hsic as [v j Hv Ev2 Ej2 | Ev2 Ej2]; clear Hsic;
    rewrite <- Ev2 in Hrun; [|simplify_eq; eauto].
  destruct Hv as [| | | | |si vms sij Hsi Hs]; simplify_eq; eauto.
  (* level 3: the copy of streamIngestionConfig *)
  rewrite (map_at_weaken _ _ _ _ H3 Hsi), copy_map_id in Hrun.
  step_alloc Hrun newSI HnewSI.
  assert (newSI ≠ newIng) as Hne2 by (intros ->; congruence).
  assert (newSI ≠ out) as Hne3 by (intros ->; congruence).
  rewrite (map_set_spec _ _ _ _ vmi) in Hrun
    by (by rewrite lookup_insert_ne).
  set (σ5 := <[newIng := OMap (<["streamIngestionConfig" := VMap newSI]> vmi)]>
               (<[newSI := OMap vms]> σ3)) in *.
  assert (σ !! newSI = None) as HnewSI0.
  { destruct (σ !! newSI) eqn:E; [|done].
    by rewrite (lookup_weaken _ _ _ _ E H3) in HnewSI. }
  assert (σ ⊆ σ5) as H5 by (by repeat (apply insert_subseteq_r; [done|])).
  assert (σ5 !! newSI = Some (OMap vms)) as Hnsi5
    by (subst σ5; by rewrite lookup_insert_ne, lookup_insert_eq).
  assert (σ5 !! newIng
          = Some (OMap (<["streamIngestionConfig" := VMap newSI]> vmi)))
    as Hni5 by apply lookup_insert_eq.
  assert (σ5 !! out = Some (OMap (<["ingestionConfig" := VMap newIng]> vm)))
    as Hout5 by (subst σ5; by rewrite !lookup_insert_ne).
  unfold map_at at 1 in Hrun. rewrite Hnsi5 in Hrun.
  unfold redacted_scm.
  assert (∀ σf X,
            σ ⊆ σf → σf !! out = σ5 !! out → σf !! newIng = σ5 !! newIng →
            represents σf (VMap newSI) (JObj X) →
            represents σf (VMap out)
              (JObj (<["ingestionConfig" :=
                         JObj (<["streamIngestionConfig" := JObj X]> ingj)]>
                       d))) as Hassemble.
  { intros σf X Hsub Ho Hn HX. rewrite Hout5 in Ho. rewrite Hni5 in Hn.
    apply (represents_updated_map σ σf out _ vm d (VMap newIng)); [done..|].
    by apply (represents_updated_map σ σf newIng _ vmi ingj (VMap newSI)). }
  assert (represents σ5 (VMap out)
            (JObj (<["ingestionConfig" :=
                       JObj (<["streamIngestionConfig" := JObj sij]> ingj)]>
                     d))) as Hplain.
  { apply Hassemble; [done..|]. by apply (represents_new_map σ _ _ vms). }
  pose proof (Hs "streamConfigMaps") as Hscm.
  inversion Hscm as [v j Hv Ev3 Ej3 | Ev3 Ej3]; clear Hscm;
    rewrite <- Ev3 in Hrun; [|simplify_eq; eauto].
  destruct Hv as [| | | |scmList vs js Hlist Hall|scm vmc scmj Hscm Hc];
    simplify_eq; eauto.
  - (* the list-of-maps shape *)
    rewrite (slice_at_weaken _ _ _ _ H5 Hlist) in Hrun.
    step_alloc Hrun newList HnewList.
    assert (σ !! newList = None) as HnewList0.
    { destruct (σ !! newList) eqn:E; [|done].
      by rewrite (lookup_weaken _ _ _ _ E H5) in HnewList. }
    assert (newList ≠ newSI) as Hne4 by (intros ->; congruence).
    assert (newList ≠ newIng) as Hne5 by (intros ->; congruence).
    assert (newList ≠ out) as Hne6 by (intros ->; congruence).
    set (σ6 := <[newList := OSlice (replicate (length vs) VNull)]> σ5) in *.
    destruct (strip_loop_spec σ newList HnewList0 vs js 0 σ6
                (replicate (length vs) VNull))
      as (Hkeep & vs' & Hnl & Hvs);
      [by apply insert_subseteq_r | apply lookup_insert_eq
      | by rewrite length_replicate | done |].
    set (σL := strip_loop newList 0 vs σ6) in *.
    assert (∀ l o, l ≠ newList → σ5 !! l = Some o → σL !! l = Some o)
      as Hkeep5.
    { intros l o Hl Ho. apply Hkeep; [done|].
      subst σ6. by rewrite lookup_insert_ne. }
    rewrite (map_set_spec _ _ _ _ vms) in Hrun by (by apply Hkeep5).
    simplify_eq. eexists; split; [done|].
    assert (σ ⊆ σL) as HL.
    { apply strip_loop_extends; [done|]. by apply insert_subseteq_r. }
    apply Hassemble.
    + by apply insert_subseteq_r.
    + rewrite lookup_insert_ne by done. rewrite Hout5. by apply Hkeep5.
    + rewrite lookup_insert_ne by done. rewrite Hni5. by apply Hkeep5.
    + apply (represents_updated_map σ _ newSI _ vms sij (VSlice newList));
        [by apply insert_subseteq_r | apply lookup_insert_eq | done |].
      apply rep_slice with vs'.
      * by rewrite lookup_insert_ne.
      * apply Hvs; [by apply insert_subseteq_r|].
        intros l o Hl Ho. rewrite lookup_insert_ne; [done|].
        intros <-. subst σ6. rewrite lookup_insert_ne in Hl by done.
        congruence.
  - (* the single-map shape *)
    rewrite (map_at_weaken _ _ _ _ H5 Hscm), copy_map_without_delete in Hrun.
    step_alloc Hrun newScm HnewScm.
    assert (σ !! newScm = None) as HnewScm0.
    { destruct (σ !! newScm) eqn:E; [|done].
      by rewrite (lookup_weaken _ _ _ _ E H5) in HnewScm. }
    assert (newScm ≠ newSI) as Hne4 by (intros ->; congruence).
    assert (newScm ≠ newIng) as Hne5 by (intros ->; congruence).
    assert (newScm ≠ out) as Hne6 by (intros ->; congruence).
    rewrite (map_set_spec _ _ _ _ vms) in Hrun
      by (by rewrite lookup_insert_ne).
    simplify_eq. eexists; split; [done|].
    assert (σ ⊆ <[newSI := OMap (<["streamConfigMaps" := VMap newScm]> vms)]>
                  (<[newScm := OMap (delete sasl_key vmc)]> σ5)) as H7
      by (by repeat (apply insert_subseteq_r; [done|])).
    apply Hassemble; [done | by rewrite !lookup_insert_ne
                     | by rewrite !lookup_insert_ne |].
    apply (represents_updated_map σ _ newSI _ vms sij (VMap newScm));
      [done | apply lookup_insert_eq | done |].
    apply (represents_new_map σ _ _ (delete sasl_key vmc)); [done| |].
    + by rewrite lookup_insert_ne, lookup_insert_eq.
    + by apply map_Forall2_delete.
Qed.

End Refinement.

Lemma sample_store_represents_doc :
  Store.represents sample_store (Store.VMap 1%positive) (JObj sample_doc).
Proof.
  eapply Store.rep_map; [reflexivity|].
  apply map_Forall2_insert_2; [constructor|].
  apply map_Forall2_insert_2; [|apply map_Forall2_empty].
  eapply Store.rep_map; [reflexivity|].
  apply map_Forall2_singleton.
  eapply Store.rep_map; [reflexivity|].
  apply map_Forall2_singleton.
  eapply Store.rep_slice; [reflexivity|].
  repeat constructor.
  eapply Store.rep_map; [reflexivity|].
  apply map_Forall2_insert_2; [constructor|].
  apply map_Forall2_singleton. constructor.
Qed.

(** C3.  The redaction is idempotent, and it never writes to its argument:
    run on a store of Go objects it leaves every object that existed
    before the call unchanged (so the original document, its nested maps
    and its list elements included, still represents what it represented),
    while its result represents the redacted document. *)
Theorem redaction_idempotent_and_pure :
  (∀ input : option obj,
     removeSaslJaasFromTableConfig (removeSaslJaasFromTableConfig input)
     = removeSaslJaasFromTableConfig input) ∧
  (∀ (input : option Store.loc) (σ : Store.store),
     σ ⊆ (Store.removeSaslJaasFromTableConfig input σ).2) ∧
  (∀ (σ : Store.store) (input : Store.loc) (d : obj),
     Store.represents σ (Store.VMap input) (JObj d) →
     ∃ out d',
       (Store.removeSaslJaasFromTableConfig (Some input) σ).1 = Some out ∧
       removeSaslJaasFromTableConfig (Some d) = Some d' ∧
       Store.represents (Store.removeSaslJaasFromTableConfig (Some input) σ).2
         (Store.VMap out) (JObj d') ∧
       Store.represents (Store.removeSaslJaasFromTableConfig (Some input) σ).2
         (Store.VMap input) (JObj d)).
Proof.
  split; [exact redact_idempotent|].
  split; [exact store_redact_preserves|].
  intros σ input d Hrep.
  destruct (Store.removeSaslJaasFromTableConfig (Some input) σ)
    as [r σ'] eqn:Hrun.
  destruct (store_redact_refines σ input d r σ' Hrep Hrun)
    as (out & -> & Hout).
  exists out, (redacted d). simpl.
  split; [done|]. split; [apply redact_unfold|]. split; [done|].
  apply (represents_mono σ); [|done].
  pose proof (store_redact_preserves (Some input) σ) as Hsub.
  by rewrite Hrun in Hsub.
Qed.

Lemma redaction_idempotent_and_pure_witness :
  ∃ out d',
    (Store.removeSaslJaasFromTableConfig (Some 1%positive) sample_store).1
      = Some out ∧
    removeSaslJaasFromTableConfig (Some sample_doc) = Some d' ∧
    Store.represents
      (Store.removeSaslJaasFromTableConfig (Some 1%positive) sample_store).2
      (Store.VMap out) (JObj d') ∧
    Store.represents
      (Store.removeSaslJaasFromTableConfig (Some 1%positive) sample_store).2
      (Store.VMap 1%positive) (JObj sample_doc).
Proof.
  apply (proj2 (proj2 redaction_idempotent_and_pure) sample_store).
  exact sample_store_represents_doc.
Defined.

(** ** Transport client *)

#[local] Arguments Nat.leb : simpl never.

(** One request against a controller whose next reply is [r]. *)
Lemma doRequest_reply method u body r rest snt :
  doRequest method u body {| replies := r :: rest; sent := snt |} =
  (match r with
   | NetErr msg => Err (Errorf ("request failed: " +:+ msg))
   | Resp status b =>
       if 400 <=? status
       then Err (Errorf ("API error (status " +:+ Itoa status +:+ "): "
                         +:+ raw b))
       else Ok b
   end,
   {| replies := rest;
      sent := snt ++ [{| method := method; url := u; payload := body |}] |}).
Proof.
  unfold doRequest, bind, roundTrip, ret. cbn [replies sent].
  destruct r as [msg|status b]; [done|]. by destruct (400 <=? status).
Qed.

(** C9.  When the controller answers a table read with an object, the
    value under [OFFLINE] is returned whenever it is an object, whatever
    [REALTIME] holds: an object too, something else, or nothing.  A wrapper
    key whose value is not an object is ignored: then the object under
    [REALTIME] is returned, and if that is not an object either, the
    response itself. *)
Theorem get_table_unwrap_priority (c : PinotClient) (tableName : string)
    (status : nat) (b : Body) (response : obj) (rest : list Reply)
    (snt : list Request) :
  status < 400 →
  parsed b = Valid (JObj response) →
  let result :=
    (GetTable c tableName
       {| replies := Resp status b :: rest; sent := snt |}).1 in
  (∀ offline,
     response !! "OFFLINE" = Some (JObj offline) →
     result = Ok (Some offline)) ∧
  (∀ realtime,
     as_map (response !! "OFFLINE") = None →
     response !! "REALTIME" = Some (JObj realtime) →
     result = Ok (Some realtime)) ∧
  (as_map (response !! "OFFLINE") = None →
   as_map (response !! "REALTIME") = None →
   result = Ok (Some response)).
Proof.
  intros Hstatus Hparsed result. subst result.
  unfold GetTable, bind. rewrite doRequest_reply.
  apply Nat.leb_gt in Hstatus. rewrite Hstatus, Hparsed. simpl.
  unfold unwrap_table. simpl. repeat split.
  - by intros offline ->.
  - by intros realtime -> ->.
  - by intros -> ->.
Qed.

Lemma get_table_unwrap_priority_witness :
  let both : obj :=
    {[ "OFFLINE" := JObj {[ "tableName" := JStr "events_OFFLINE" ]};
       "REALTIME" := JObj {[ "tableName" := JStr "events_REALTIME" ]} ]} in
  let offline_only : obj :=
    {[ "OFFLINE" := JObj {[ "tableName" := JStr "events_OFFLINE" ]} ]} in
  let offline_beside_text : obj :=
    {[ "OFFLINE" := JObj {[ "tableName" := JStr "events_OFFLINE" ]};
       "REALTIME" := JStr "none" ]} in
  let realtime_beside_text : obj :=
    {[ "OFFLINE" := JStr "none";
       "REALTIME" := JObj {[ "tableName" := JStr "events_REALTIME" ]} ]} in
  let answer (response : obj) :=
    (GetTable {| controllerURL := "http://pinot:9000" |} "events_OFFLINE"
       {| replies := [Resp 200 {| raw := "{...}";
                                  parsed := Valid (JObj response) |}];
          sent := [] |}).1 in
  answer both = Ok (Some {[ "tableName" := JStr "events_OFFLINE" ]}) ∧
  answer offline_only = Ok (Some {[ "tableName" := JStr "events_OFFLINE" ]}) ∧
  answer offline_beside_text
    = Ok (Some {[ "tableName" := JStr "events_OFFLINE" ]}) ∧
  answer realtime_beside_text
    = Ok (Some {[ "tableName" := JStr "events_REALTIME" ]}).
Proof.
  intros both offline_only offline_beside_text realtime_beside_text answer.
  split; [|split; [|split]].
  - refine (proj1 (get_table_unwrap_priority _ _ 200 _ both [] [] _ _) _ _).
    + lia.
    + reflexivity.
    + reflexivity.
  - refine (proj1 (get_table_unwrap_priority _ _ 200 _ offline_only [] []
                     _ _) _ _).
    + lia.
    + reflexivity.
    + reflexivity.
  - refine (proj1 (get_table_unwrap_priority _ _ 200 _ offline_beside_text
                     [] [] _ _) _ _).
    + lia.
    + reflexivity.
    + reflexivity.
  - refine (proj1 (proj2 (get_table_unwrap_priority _ _ 200 _
                            realtime_beside_text [] [] _ _)) _ _ _).
    + lia.
    + reflexivity.
    + reflexivity.
    + reflexivity.
Defined.

(** ** Users *)

Lemma marshal_user_password (u : PinotUser) :
  password u ≠ "" →
  ∃ m, marshal_user u = JObj m ∧ m !! "password" = Some (JStr (password u)).
Proof.
  intros Hp. unfold marshal_user. rewrite (eqb_false_ne _ _ Hp).
  eexists; split; [reflexivity|].
  destruct (permissions u) as [[|]|], (tables u) as [[|]|];
    rewrite ?lookup_insert_ne by done; apply lookup_insert_eq.
Qed.

Lemma sent_doRequest method u body w :
  sent (doRequest method u body w).2
  = sent w ++ [{| method := method; url := u; payload := body |}].
Proof.
  unfold doRequest, bind, roundTrip, ret.
  destruct (replies w) as [|[msg|status b] rest]; cbn [sent snd]; try done.
  by destruct (400 <=? status).
Qed.

Lemma sent_GetUser c username component w :
  sent (GetUser c username component w).2
  = sent w ++ [user_lookup c username component].
Proof.
  unfold GetUser, bind.
  pose proof (sent_doRequest "GET"
    (endpoint c ["users"; username]
       [("component", ToUpper component);
        ("componentType", ToUpper component)]) None w) as Hs.
  destruct (doRequest _ _ _ w) as [[resp|e] w']; simpl in *; [|done].
  by destruct (unmarshal_map (parsed resp)).
Qed.

Lemma sent_fetchUser c username component w :
  sent (fetchUser c username component w).2
  = sent w ++ [user_lookup c username component].
Proof.
  pose proof (sent_GetUser c username component w) as Hs.
  unfold fetchUser, bind.
  destruct (GetUser _ _ _ w) as [[top|e] w']; simpl in *; [|done].
  destruct (map_index top "username"); [done|].
  destruct (map_index top _); [done|].
  destruct (size _ =? 1); [|done].
  by destruct (map_to_list _) as [|[]].
Qed.

Lemma sent_CreateUser c user w :
  sent (CreateUser c user w).2
  = sent w ++ [{| method := "POST"; url := pasted c "/users";
                  payload := Some user |}].
Proof.
  unfold CreateUser, bind.
  pose proof (sent_doRequest "POST" (pasted c "/users") (Some user) w)
    as Hs.
  by destruct (doRequest _ _ _ w) as [[resp|e] w'].
Qed.

(** C10.  With a null or empty planned password, user creation stops with
    the missing-password error and contacts nobody; and whatever the plan,
    every request a creation sends is either the read-back [GET] or a
    [POST] whose body carries the planned, non-empty password. *)
Theorem user_create_requires_password (c : PinotClient)
    (data : UserResourceModel) (w : World) :
  (Password data = StringNull ∨ Password data = StringValue "" →
   UserCreate c data w =
   (fail "Missing password"
      "Creating a Pinot user requires a non-empty `password`." None, w)) ∧
  (∀ req, req ∈ sent (UserCreate c data w).2 →
     req ∈ sent w ∨ method req = "GET" ∨
     ∃ p, request_password req = Some p ∧ p ≠ ""
          ∧ Password data = StringValue p).
Proof.
  split.
  { intros Hpw. unfold UserCreate. by destruct Hpw as [-> | ->]. }
  intros req. unfold UserCreate.
  destruct (IsNull (Password data) || String.eqb (ValueString (Password data)) "")
    eqn:Hpw; [by left|].
  apply orb_false_elim in Hpw as [Hnull Hempty].
  apply String.eqb_neq in Hempty.
  assert (Password data = StringValue (ValueString (Password data))) as Hval.
  { destruct (Password data); simpl in *; try done. }
  destruct (toStringSlice [] (Tables data)) as [tables_ diags1].
  destruct (toStringSlice diags1 (Permissions data)) as [perms_ diags].
  destruct (HasError diags); [by left|].
  set (user := {| username := ValueString (Username data);
                  password := ValueString (Password data);
                  component := ValueString (Component data);
                  role := ValueString (Role data);
                  tables := tables_; permissions := perms_ |}).
  unfold bind.
  pose proof (sent_CreateUser c (marshal_user user) w) as Hpost.
  assert (∀ r, r ∈ sent w ++ [{| method := "POST";
                                 url := pasted c "/users";
                                 payload := Some (marshal_user user) |}] →
            r ∈ sent w ∨ method r = "GET" ∨
            ∃ p, request_password r = Some p ∧ p ≠ ""
                 ∧ Password data = StringValue p) as Hposted.
  { intros r [Hr | ->%list_elem_of_singleton]%elem_of_app; [by left|].
    right; right. exists (ValueString (Password data)).
    destruct (marshal_user_password user Hempty) as (m & Hm & Hp).
    unfold request_password. cbn [payload]. rewrite Hm, Hp.
    by rewrite <- Hval. }
  destruct (CreateUser c (marshal_user user) w) as [[err|] w1];
    cbn [snd] in Hpost.
  - unfold ret. cbn [snd]. rewrite Hpost. apply Hposted.
  - pose proof (sent_fetchUser c (username user) (component user) w1)
      as Hs.
    destruct (fetchUser c (username user) (component user) w1)
      as [fetched w2].
    unfold ret. cbn [snd] in *. rewrite Hs, Hpost.
    intros [Hr | ->%list_elem_of_singleton]%elem_of_app; [by apply Hposted|].
    right; by left.
Qed.

Lemma user_create_requires_password_witness :
  UserCreate sample_client (sample_user_plan (StringValue "")) idle_world =
  (fail "Missing password"
     "Creating a Pinot user requires a non-empty `password`." None,
   idle_world) ∧
  (sent (UserCreate sample_client (sample_user_plan (StringValue "s3cret"))
           idle_world).2 ≠ [] ∧
   ∀ req,
     req ∈ sent (UserCreate sample_client
                   (sample_user_plan (StringValue "s3cret")) idle_world).2 →
     req ∈ sent idle_world ∨ method req = "GET" ∨
     ∃ p, request_password req = Some p ∧ p ≠ ""
          ∧ Password (sample_user_plan (StringValue "s3cret"))
            = StringValue p).
Proof.
  split; [|split].
  - apply (proj1 (user_create_requires_password sample_client
                    (sample_user_plan (StringValue "")) idle_world)).
    right; reflexivity.
  - vm_compute. discriminate.
  - exact (proj2 (user_create_requires_password sample_client
                    (sample_user_plan (StringValue "s3cret")) idle_world)).
Defined.

(** ** Tables: identity validation *)


Lemma injectKafkaSasl_keeps_name (m : obj) (s : string) :
  injectKafkaSasl m s !! "tableName" = m !! "tableName".
Proof. unfold injectKafkaSasl. by rewrite lookup_insert_ne. Qed.




(** ** Reads: what a failed lookup does to the tracked state *)

Lemma api_error_mentions_status (b : Body) :
  Contains ("API error (status " +:+ Itoa 404 +:+ "): " +:+ raw b) "404"
  = true.
Proof.
  apply (Contains_piece "API error (status " "404" ("): " +:+ raw b)).
  reflexivity.
Qed.

(** The table read drops the state exactly when the error text contains
    [404]; any other error is reported and the state is kept. *)
Lemma table_read_on_error (c : PinotClient) (data : TableResourceModel)
    (w : World) (err : error) (w' : World) :
  GetTable c (ValueString (ID data)) w = (Err err, w') →
  (TableRead c data w).1 =
  if Contains (Error err) "404"
  then {| Diagnostics := []; State := None |}
  else fail "Error Reading Pinot Table"
         ("Could not read table ID " +:+ ValueString (ID data) +:+ ": "
          +:+ Error err) (Some data).
Proof.
  intros Hget. unfold TableRead, bind. rewrite Hget.
  by destruct (Contains (Error err) "404").
Qed.

Lemma GetTable_api_error c tableName status b rest snt :
  (400 <=? status) = true →
  GetTable c tableName {| replies := Resp status b :: rest; sent := snt |} =
  (Err (Errorf ("API error (status " +:+ Itoa status +:+ "): " +:+ raw b)),
   {| replies := rest;
      sent := snt ++ [{| method := "GET";
                         url := pasted c ("/tables/" +:+ tableName);
                         payload := None |}] |}).
Proof.
  intros Hs. unfold GetTable, bind. by rewrite doRequest_reply, Hs.
Qed.

(** C2 (code defect).  Only the table read recognises a not-found reply:
    it drops the state on HTTP 404.  The schema read and the user read
    report the 404 as an error and keep the resource in the tracked state.
    And since the table read looks for the text [404] anywhere in the
    error, a failure of another kind whose text mentions 404 drops the
    state as well, without any error being surfaced. *)
Theorem read_not_found_handling (c : PinotClient) (b : Body)
    (rest : list Reply) (snt : list Request) :
  let not_found := {| replies := Resp 404 b :: rest; sent := snt |} in
  (∀ data : TableResourceModel,
     (TableRead c data not_found).1 = {| Diagnostics := []; State := None |}) ∧
  (∀ data : SchemaResourceModel,
     State (SchemaRead c data not_found).1 = Some data ∧
     HasError (Diagnostics (SchemaRead c data not_found).1) = true) ∧
  (∀ data : UserResourceModel,
     State (UserRead c data not_found).1 = Some data ∧
     HasError (Diagnostics (UserRead c data not_found).1) = true) ∧
  (∀ data : TableResourceModel,
     (TableRead c data
        {| replies :=
             Resp 500 {| raw := "upstream answered 404";
                         parsed := Invalid "not JSON" |} :: rest;
           sent := snt |}).1
     = {| Diagnostics := []; State := None |}).
Proof.
  intros not_found. subst not_found. split; [|split; [|split]]; intros data.
  - rewrite (table_read_on_error _ _ _ _ _
               (GetTable_api_error c _ 404 b rest snt eq_refl)).
    cbn [Error]. by rewrite api_error_mentions_status.
  - unfold SchemaRead, GetSchema, bind. by rewrite doRequest_reply.
  - unfold UserRead, fetchUser, GetUser, bind. by rewrite doRequest_reply.
  - rewrite (table_read_on_error _ _ _ _ _
               (GetTable_api_error c _ 500 _ rest snt eq_refl)).
    reflexivity.
Qed.

(** ** Users: the response disambiguator *)

Lemma fetchUser_after_GetUser c username component w r w' :
  GetUser c username component w = (r, w') →
  (fetchUser c username component w).1 =
  match r with
  | Err err => Err err
  | Ok top =>
      match map_index top "username" with
      | Some _ => decode_user (marshal_map top)
      | None =>
          match map_index top (username +:+ "_" +:+ component) with
          | Some raw => decode_user raw
          | None =>
              match map_to_list (default ∅ top) with
              | [(_, v)] => decode_user v
              | _ =>
                  Err (Errorf
                    ("unexpected user response; neither plain object nor wrapper with key "
                     +:+ Quote (username +:+ "_" +:+ component)))
              end
          end
      end
  end.
Proof.
  intros Hget. unfold fetchUser, bind. rewrite Hget.
  destruct r as [top|err]; [|done].
  destruct (map_index top "username"); [done|].
  destruct (map_index top _); [done|].
  rewrite <- (length_map_to_list (default ∅ top)).
  by destruct (map_to_list (default ∅ top)) as [|[k v] [|kv l]].
Qed.

Lemma GetUser_decoded c username component status b rest snt :
  status < 400 →
  (GetUser c username component
     {| replies := Resp status b :: rest; sent := snt |}).1
  = match unmarshal_map (parsed b) with
    | Err e => Err (wrap "failed to unmarshal user JSON: " e)
    | Ok m => Ok m
    end.
Proof.
  intros Hs%Nat.leb_gt. unfold GetUser, bind.
  rewrite doRequest_reply, Hs. by destruct (unmarshal_map (parsed b)).
Qed.

(** The rules of the disambiguator, in the order the code applies them.
    The wrapper key of the second rule is built from the component as it
    was declared. *)
Lemma fetchUser_rules c username component status b rest snt (top : obj) :
  status < 400 →
  parsed b = Valid (JObj top) →
  let result :=
    (fetchUser c username component
       {| replies := Resp status b :: rest; sent := snt |}).1 in
  let key := username +:+ "_" +:+ component in
  (is_Some (top !! "username") → result = decode_user (JObj top)) ∧
  (top !! "username" = None →
   ∀ raw, top !! key = Some raw → result = decode_user raw) ∧
  (top !! "username" = None → top !! key = None →
   ∀ k v, top = {[ k := v ]} → result = decode_user v) ∧
  (top !! "username" = None → top !! key = None → size top ≠ 1 →
   result = Err (Errorf
     ("unexpected user response; neither plain object nor wrapper with key "
      +:+ Quote key))).
Proof.
  intros Hs Hb result key. subst result.
  pose proof (GetUser_decoded c username component status b rest snt Hs)
    as Hget.
  rewrite Hb in Hget. cbn [unmarshal_map] in Hget.
  destruct (GetUser c username component _) as [r w'] eqn:E.
  cbn [fst] in Hget. subst r.
  rewrite (fetchUser_after_GetUser _ _ _ _ _ _ E).
  cbn [map_index mbind option_bind default from_option id marshal_map].
  fold key.
  repeat split.
  - by intros [x ->].
  - by intros -> raw ->.
  - intros -> -> k v ->. by rewrite map_to_list_singleton.
  - intros -> -> Hsize. rewrite <- length_map_to_list in Hsize.
    by destruct (map_to_list top) as [|[k v] [|kv l]].
Qed.

(** C6 (code defect).  The wrapper key is built from the component as
    declared, not upper-cased, although the lookup asks the controller for
    the upper-cased component.  For user [alice] of component [broker] and
    a reply keyed [alice_BROKER] next to a second entry, no rule applies
    and the lookup fails; with the component declared as [BROKER] the same
    reply yields the record. *)
Theorem fetch_user_key_keeps_component_case (rest : list Reply)
    (snt : list Request) :
  let w := {| replies := Resp 200 (json_body (JObj two_user_wrapper)) :: rest;
              sent := snt |} in
  (fetchUser sample_client "alice" "broker" w).1 =
  Err (Errorf
    ("unexpected user response; neither plain object nor wrapper with key "
     +:+ Quote "alice_broker")) ∧
  (fetchUser sample_client "alice" "BROKER" w).1 =
  Ok {| username := "alice"; password := ""; component := "BROKER";
        role := "ADMIN"; tables := None; permissions := None |} ∧
  sent (fetchUser sample_client "alice" "broker" w).2 =
  snt ++ [{| method := "GET";
             url := endpoint sample_client ["users"; "alice"]
                      [("component", "BROKER"); ("componentType", "BROKER")];
             payload := None |}].
Proof.
  intros w. subst w. split; [|split].
  - erewrite fetchUser_after_GetUser
      by (unfold GetUser, bind; rewrite doRequest_reply; reflexivity).
    vm_compute. reflexivity.
  - erewrite fetchUser_after_GetUser
      by (unfold GetUser, bind; rewrite doRequest_reply; reflexivity).
    vm_compute. reflexivity.
  - apply sent_fetchUser.
Qed.

(** C7 (code defect).  An empty JSON object is not treated as "not
    found": no rule of the disambiguator applies to it, so the lookup
    fails with the unrecognized-shape error, and a body that is not JSON
    at all fails with a decoding error.  The user read reports either as
    an error and keeps the resource in the tracked state. *)
Theorem fetch_user_empty_reply_is_error (c : PinotClient)
    (username component : string) (text why : string) (rest : list Reply)
    (snt : list Request) :
  let empty_object :=
    {| replies := Resp 200 {| raw := text; parsed := Valid (JObj ∅) |} :: rest;
       sent := snt |} in
  let blank :=
    {| replies := Resp 200 {| raw := text; parsed := Invalid why |} :: rest;
       sent := snt |} in
  (fetchUser c username component empty_object).1 =
  Err (Errorf
    ("unexpected user response; neither plain object nor wrapper with key "
     +:+ Quote (username +:+ "_" +:+ component))) ∧
  (fetchUser c username component blank).1 =
  Err (Errorf ("failed to unmarshal user JSON: " +:+ why)) ∧
  (∀ data : UserResourceModel,
     State (UserRead c data empty_object).1 = Some data ∧
     HasError (Diagnostics (UserRead c data empty_object).1) = true ∧
     State (UserRead c data blank).1 = Some data ∧
     HasError (Diagnostics (UserRead c data blank).1) = true).
Proof.
  intros empty_object blank. subst empty_object blank.
  assert (∀ u k,
    (fetchUser c u k
       {| replies := Resp 200 {| raw := text; parsed := Valid (JObj ∅) |}
                     :: rest; sent := snt |}).1 =
    Err (Errorf
      ("unexpected user response; neither plain object nor wrapper with key "
       +:+ Quote (u +:+ "_" +:+ k)))) as Hempty.
  { intros u k.
    erewrite fetchUser_after_GetUser
      by (unfold GetUser, bind; rewrite doRequest_reply; reflexivity).
    cbn [map_index mbind option_bind default from_option id].
    by rewrite !lookup_empty, map_to_list_empty. }
  assert (∀ u k,
    (fetchUser c u k
       {| replies := Resp 200 {| raw := text; parsed := Invalid why |}
                     :: rest; sent := snt |}).1 =
    Err (Errorf ("failed to unmarshal user JSON: " +:+ why))) as Hblank.
  { intros u k.
    erewrite fetchUser_after_GetUser
      by (unfold GetUser, bind; rewrite doRequest_reply; reflexivity).
    reflexivity. }
  split; [apply Hempty|]. split; [apply Hblank|].
  intros data. unfold UserRead, bind.
  pose proof (Hempty (ValueString (Username data))
                (ValueString (Component data))) as He.
  pose proof (Hblank (ValueString (Username data))
                (ValueString (Component data))) as Hb.
  destruct (fetchUser c _ _ {| replies := Resp 200 {| parsed := Valid _ |} :: _ |})
    as [r1 w1].
  destruct (fetchUser c _ _ {| replies := Resp 200 {| parsed := Invalid _ |} :: _ |})
    as [r2 w2].
  cbn [fst] in He, Hb. subst r1 r2. done.
Qed.

(* ================================================================== *)
(** * Further properties *)
(* ================================================================== *)

(** ** Identity codec, both directions *)

Lemma HasSuffix_split (s suffix : string) :
  HasSuffix s suffix = true → ∃ a, s = a +:+ suffix.
Proof.
  unfold HasSuffix. intros [Hlen Heq]%andb_true_iff.
  apply Nat.leb_le in Hlen. apply String.eqb_eq in Heq.
  exists (substring 0 (String.length s - String.length suffix) s).
  rewrite <- Heq at 2. clear Heq.
  remember (String.length s - String.length suffix) as n eqn:Hn.
  assert (String.length s = n + String.length suffix) as Hs by lia.
  clear Hn Hlen. revert n Hs.
  induction s as [|c s IH]; intros [|n] Hs; simpl in *.
  - by rewrite <- Hs.
  - lia.
  - rewrite <- Hs. simpl. by rewrite substring_all.
  - rewrite app_cons. f_equal. apply IH. lia.
Qed.

(** A parsed flavor is one of the two suffixes, and is what was cut off. *)
Lemma splitTableID_flavored (id : string) :
  (splitTableID id).2 ≠ "" →
  ((splitTableID id).2 = "OFFLINE" ∨ (splitTableID id).2 = "REALTIME")
  ∧ id = (splitTableID id).1 +:+ "_" +:+ (splitTableID id).2.
Proof.
  unfold splitTableID.
  destruct (HasSuffix id "_OFFLINE") eqn:Ho.
  - intros _. split; [by left|]. simpl.
    destruct (HasSuffix_split _ _ Ho) as [a ->]. by rewrite TrimSuffix_app.
  - destruct (HasSuffix id "_REALTIME") eqn:Hr; [|done].
    intros _. split; [by right|]. simpl.
    destruct (HasSuffix_split _ _ Hr) as [a ->]. by rewrite TrimSuffix_app.
Qed.

(** X1.  What [splitTableID] returns: a flavor [OFFLINE] or [REALTIME]
    together with the text before [_OFFLINE] / [_REALTIME], or the whole
    identifier with an empty flavor exactly when it ends in neither
    suffix. *)
Theorem splitTableID_decomposes (id : string) :
  let '(logical, typ) := splitTableID id in
  (typ = "OFFLINE" ∨ typ = "REALTIME") ∧ id = logical +:+ "_" +:+ typ
  ∨ typ = "" ∧ logical = id
    ∧ HasSuffix id "_OFFLINE" = false ∧ HasSuffix id "_REALTIME" = false.
Proof.
  pose proof (splitTableID_flavored id) as H. revert H.
  unfold splitTableID.
  destruct (HasSuffix id "_OFFLINE") eqn:Ho; simpl.
  - intros H. left. by apply H.
  - destruct (HasSuffix id "_REALTIME") eqn:Hr; simpl.
    + intros H. left. by apply H.
    + intros _. by right.
Qed.

(** X2.  Re-deriving the identifier from its parsed parts gives it back:
    for an identifier that ends in a flavor suffix and whose logical part
    is neither blank nor padded with white space. *)
Theorem joinTableID_after_split (id : string) :
  (splitTableID id).2 ≠ "" →
  TrimSpace (splitTableID id).1 = (splitTableID id).1 →
  (splitTableID id).1 ≠ "" →
  joinTableID (splitTableID id).1 (splitTableID id).2 = id.
Proof.
  intros Htyp Htrim Hne.
  destruct (splitTableID_flavored id Htyp) as [Hf Hid].
  rewrite joinTableID_flavor by (by rewrite ?Htrim).
  by rewrite Htrim.
Qed.

Lemma joinTableID_after_split_witness :
  joinTableID (splitTableID "user_events_REALTIME").1
              (splitTableID "user_events_REALTIME").2
  = "user_events_REALTIME".
Proof.
  apply joinTableID_after_split.
  - vm_compute. discriminate.
  - reflexivity.
  - vm_compute. discriminate.
Defined.

(** ** White space and case *)

Lemma trim_head_step (fwd : bool) (s : string) :
  trim_head fwd s =
  match cut_space fwd s with
  | Some r => trim_head fwd r
  | None => s
  end.
Proof.
  destruct s as [|c1 [|c2 [|c3 s3]]]; cbn [trim_head cut_space]; try done.
  - by destruct (Ascii.is_space c1).
  - destruct (Ascii.is_space c1); [done|]. by destruct (space2 fwd c1 c2).
  - destruct (Ascii.is_space c1); [done|].
    destruct (space2 fwd c1 c2); [done|]. by destruct (space3 fwd c1 c2 c3).
Qed.

Lemma cut_space_split (fwd : bool) (s r : string) :
  cut_space fwd s = Some r → ∃ e, e ≠ "" ∧ s = e +:+ r.
Proof.
  destruct s as [|c1 [|c2 [|c3 s3]]]; cbn [cut_space]; try done.
  - destruct (Ascii.is_space c1); [|done]. intros [= <-].
    by exists (String c1 "").
  - destruct (Ascii.is_space c1); [intros [= <-]; by exists (String c1 "")|].
    destruct (space2 fwd c1 c2); [|done]. intros [= <-].
    by exists (String c1 (String c2 "")).
  - destruct (Ascii.is_space c1); [intros [= <-]; by exists (String c1 "")|].
    destruct (space2 fwd c1 c2);
      [intros [= <-]; by exists (String c1 (String c2 ""))|].
    destruct (space3 fwd c1 c2 c3); [|done]. intros [= <-].
    by exists (String c1 (String c2 (String c3 ""))).
Qed.

Lemma cut_space_shorter (fwd : bool) (s r : string) :
  cut_space fwd s = Some r → String.length r < String.length s.
Proof.
  intros (e & He & ->)%cut_space_split. rewrite length_app_s.
  destruct e; [done|]. simpl. lia.
Qed.

Lemma cut_space_app (fwd : bool) (s r q : string) :
  cut_space fwd s = Some r → cut_space fwd (s +:+ q) = Some (r +:+ q).
Proof.
  destruct s as [|c1 [|c2 [|c3 s3]]]; cbn [cut_space]; try done;
    rewrite ?app_cons; cbn [cut_space].
  - destruct (Ascii.is_space c1); [|done]. by intros [= <-].
  - destruct (Ascii.is_space c1); [by intros [= <-]|].
    destruct (space2 fwd c1 c2); [|done]. by intros [= <-].
  - destruct (Ascii.is_space c1); [by intros [= <-]|].
    destruct (space2 fwd c1 c2); [by intros [= <-]|].
    destruct (space3 fwd c1 c2 c3); [|done]. by intros [= <-].
Qed.

(** Induction along the runes that [trim_head] removes. *)
Lemma trim_head_ind (fwd : bool) (P : string → Prop) :
  (∀ s, cut_space fwd s = None → P s) →
  (∀ s r, cut_space fwd s = Some r → P r → P s) →
  ∀ s, P s.
Proof.
  intros Hstop Hcut s.
  remember (String.length s) as n eqn:Hn. revert s Hn.
  induction n as [n IH] using lt_wf_ind. intros s ->.
  destruct (cut_space fwd s) as [r|] eqn:E; [|by apply Hstop].
  apply (Hcut s r E), (IH (String.length r)); [|done].
  by apply cut_space_shorter in E.
Qed.

Lemma trim_head_clean (fwd : bool) (s : string) :
  cut_space fwd (trim_head fwd s) = None.
Proof.
  induction s as [s E|s r E IH] using (trim_head_ind fwd);
    rewrite trim_head_step, E; done.
Qed.

Lemma trim_head_id (fwd : bool) (s : string) :
  cut_space fwd s = None → trim_head fwd s = s.
Proof. intros E. by rewrite trim_head_step, E. Qed.

Lemma trim_head_idemp (fwd : bool) (s : string) :
  trim_head fwd (trim_head fwd s) = trim_head fwd s.
Proof. apply trim_head_id, trim_head_clean. Qed.

(** What is removed is a prefix. *)
Lemma trim_head_suffix (fwd : bool) (s : string) :
  ∃ p, s = p +:+ trim_head fwd s.
Proof.
  induction s as [s E|s r E (p & Hp)] using (trim_head_ind fwd);
    rewrite trim_head_step, E.
  - by exists "".
  - destruct (cut_space_split _ _ _ E) as (e & _ & ->).
    exists (e +:+ p). by rewrite app_assoc_s, <- Hp.
Qed.

(** A string that does not start with white space has no prefix that
    does. *)
Lemma cut_space_prefix (fwd : bool) (s q : string) :
  cut_space fwd (s +:+ q) = None → s ≠ "" → cut_space fwd s = None.
Proof.
  intros E Hs. destruct (cut_space fwd s) as [r|] eqn:Er; [|done].
  by rewrite (cut_space_app _ _ _ q Er) in E.
Qed.

Lemma list_ascii_app (a b : string) :
  list_ascii_of_string (a +:+ b)
  = list_ascii_of_string a ++ list_ascii_of_string b.
Proof. induction a as [|c a IH]; [done|]. rewrite app_cons. simpl. by rewrite IH. Qed.

Lemma string_of_list_app (a b : list ascii) :
  string_of_list_ascii (a ++ b)
  = string_of_list_ascii a +:+ string_of_list_ascii b.
Proof. induction a as [|c a IH]; [done|]. simpl. by rewrite IH. Qed.

Lemma reverse_involutive (s : string) : reverse (reverse s) = s.
Proof.
  unfold reverse. rewrite list_ascii_of_string_of_list_ascii, rev_involutive.
  apply string_of_list_ascii_of_string.
Qed.

Lemma reverse_app (a b : string) :
  reverse (a +:+ b) = reverse b +:+ reverse a.
Proof.
  unfold reverse. by rewrite list_ascii_app, rev_app_distr, string_of_list_app.
Qed.

Lemma reverse_empty (s : string) : reverse s = "" → s = "".
Proof.
  intros H. apply (f_equal reverse) in H. by rewrite reverse_involutive in H.
Qed.

(** What [TrimRightSpace] removes is a suffix. *)
Lemma TrimRightSpace_prefix (s : string) : ∃ q, s = TrimRightSpace s +:+ q.
Proof.
  unfold TrimRightSpace.
  destruct (trim_head_suffix false (reverse s)) as [p Hp].
  exists (reverse p). rewrite <- reverse_app, <- Hp.
  by rewrite reverse_involutive.
Qed.

Lemma TrimRightSpace_idemp (s : string) :
  TrimRightSpace (TrimRightSpace s) = TrimRightSpace s.
Proof.
  unfold TrimRightSpace. by rewrite reverse_involutive, trim_head_idemp.
Qed.

Lemma TrimSpace_idemp (s : string) : TrimSpace (TrimSpace s) = TrimSpace s.
Proof.
  unfold TrimSpace.
  assert (TrimLeftSpace (TrimRightSpace (TrimLeftSpace s))
          = TrimRightSpace (TrimLeftSpace s)) as ->;
    [|apply TrimRightSpace_idemp].
  set (t := TrimLeftSpace s).
  destruct (TrimRightSpace_prefix t) as [q Hq].
  destruct (TrimRightSpace t) as [|c u] eqn:E; [done|].
  apply trim_head_id, (cut_space_prefix _ _ q); [|done].
  rewrite <- Hq. apply trim_head_clean.
Qed.

(** Case mapping touches no byte of a white-space rune. *)
Lemma upper_idemp (c : ascii) : upper (upper c) = upper c.
Proof. by destruct c as [[] [] [] [] [] [] [] []]. Qed.

Lemma is_space_upper (c : ascii) : Ascii.is_space (upper c) = Ascii.is_space c.
Proof. by destruct c as [[] [] [] [] [] [] [] []]. Qed.

Lemma is_space2_upper (c1 c2 : ascii) :
  is_space2 (upper c1) (upper c2) = is_space2 c1 c2.
Proof.
  destruct c1 as [[] [] [] [] [] [] [] []]; try reflexivity.
  by destruct c2 as [[] [] [] [] [] [] [] []].
Qed.

Lemma is_space3_upper (c1 c2 c3 : ascii) :
  is_space3 (upper c1) (upper c2) (upper c3) = is_space3 c1 c2 c3.
Proof.
  destruct c1 as [[] [] [] [] [] [] [] []]; try reflexivity;
    destruct c2 as [[] [] [] [] [] [] [] []]; try reflexivity;
    by destruct c3 as [[] [] [] [] [] [] [] []].
Qed.

Lemma ToUpper_idemp (s : string) : ToUpper (ToUpper s) = ToUpper s.
Proof. induction s as [|c s IH]; [done|]. simpl. by rewrite upper_idemp, IH. Qed.

Lemma ToUpper_app (a b : string) : ToUpper (a +:+ b) = ToUpper a +:+ ToUpper b.
Proof. induction a as [|c a IH]; [done|]. rewrite app_cons. simpl. by rewrite IH. Qed.

Lemma cut_space_ToUpper (fwd : bool) (s : string) :
  cut_space fwd (ToUpper s) = ToUpper <$> cut_space fwd s.
Proof.
  destruct s as [|c1 [|c2 [|c3 s3]]]; cbn [ToUpper cut_space]; try done;
    rewrite ?is_space_upper.
  - by destruct (Ascii.is_space c1).
  - destruct (Ascii.is_space c1); [done|].
    assert (space2 fwd (upper c1) (upper c2) = space2 fwd c1 c2) as ->
      by (destruct fwd; apply is_space2_upper).
    by destruct (space2 fwd c1 c2).
  - destruct (Ascii.is_space c1); [done|].
    assert (space2 fwd (upper c1) (upper c2) = space2 fwd c1 c2) as ->
      by (destruct fwd; apply is_space2_upper).
    destruct (space2 fwd c1 c2); [done|].
    assert (space3 fwd (upper c1) (upper c2) (upper c3)
            = space3 fwd c1 c2 c3) as ->
      by (destruct fwd; apply is_space3_upper).
    by destruct (space3 fwd c1 c2 c3).
Qed.

Lemma trim_head_ToUpper (fwd : bool) (s : string) :
  trim_head fwd (ToUpper s) = ToUpper (trim_head fwd s).
Proof.
  induction s as [s E|s r E IH] using (trim_head_ind fwd);
    rewrite (trim_head_step _ (ToUpper s)), (trim_head_step _ s),
      cut_space_ToUpper, E; [done|]. exact IH.
Qed.

Lemma reverse_ToUpper (s : string) : reverse (ToUpper s) = ToUpper (reverse s).
Proof.
  induction s as [|c s IH]; [done|].
  change (String c s) with (String c "" +:+ s).
  rewrite ToUpper_app, !reverse_app, IH, ToUpper_app. done.
Qed.

Lemma TrimSpace_ToUpper (s : string) :
  TrimSpace (ToUpper s) = ToUpper (TrimSpace s).
Proof.
  unfold TrimSpace, TrimLeftSpace, TrimRightSpace.
  by rewrite trim_head_ToUpper, reverse_ToUpper, trim_head_ToUpper,
    reverse_ToUpper.
Qed.

(** The no-break space is trimmed like a blank. *)
Lemma TrimSpace_no_break_space :
  TrimSpace (nbsp +:+ "events" +:+ nbsp) = "events" ∧ TrimSpace nbsp = "".
Proof. split; reflexivity. Qed.

(** X3.  The composite identifier does not depend on white space around
    the name or the flavor, nor on the case of the flavor: it is the
    identifier of the trimmed name and the trimmed, upper-cased flavor. *)
Theorem joinTableID_normalises (logical typ : string) :
  joinTableID logical typ
  = joinTableID (TrimSpace logical) (ToUpper (TrimSpace typ)).
Proof.
  unfold joinTableID.
  by rewrite TrimSpace_idemp, TrimSpace_ToUpper, TrimSpace_idemp,
    ToUpper_idemp.
Qed.

(** ** Authentication *)

Lemma HasSuffix_self_app (a s : string) : HasSuffix (a +:+ s) s = true.
Proof. rewrite HasSuffix_app by done. apply String.eqb_refl. Qed.

(** X4.  A token that is not blank always decides the [Authorization]
    header: the header is the token itself when it already starts with
    [Bearer ] or [Basic ], and that scheme put in front of it otherwise, so
    it always starts with one of the two schemes and ends with the trimmed
    token; user name and password play no role. *)
Theorem token_takes_precedence (k : Credentials) :
  TrimSpace (client_token k) ≠ "" →
  ∃ v,
    authorization k = AuthorizationHeader v ∧
    (HasPrefix v "Bearer " || HasPrefix v "Basic ") = true ∧
    HasSuffix v (TrimSpace (client_token k)) = true ∧
    ∀ u p, authorization {| client_username := u; client_password := p;
                            client_token := client_token k |}
           = AuthorizationHeader v.
Proof.
  intros Htok. unfold authorization. cbn [client_token].
  rewrite (eqb_false_ne _ _ Htok). cbn [negb].
  set (tok := TrimSpace (client_token k)).
  destruct (HasPrefix tok "Bearer " || HasPrefix tok "Basic ") eqn:Hp.
  - exists tok. split; [done|]. split; [done|]. split; [|done].
    apply (HasSuffix_self_app "").
  - destruct (2 <=? Count tok ".").
    + exists ("Bearer " +:+ tok). split; [done|]. split; [|split; [|done]].
      * unfold HasPrefix. by rewrite prefix_app.
      * apply HasSuffix_self_app.
    + exists ("Basic " +:+ tok). split; [done|]. split; [|split; [|done]].
      * unfold HasPrefix. rewrite (prefix_app "Basic "). apply orb_true_r.
      * apply HasSuffix_self_app.
Qed.

Lemma token_takes_precedence_witness :
  ∃ v,
    authorization {| client_username := "admin"; client_password := "pw";
                     client_token := " aaa.bbb.ccc " |}
    = AuthorizationHeader v ∧
    (HasPrefix v "Bearer " || HasPrefix v "Basic ") = true ∧
    HasSuffix v (TrimSpace " aaa.bbb.ccc ") = true ∧
    ∀ u p, authorization {| client_username := u; client_password := p;
                            client_token := " aaa.bbb.ccc " |}
           = AuthorizationHeader v.
Proof.
  apply (token_takes_precedence
           {| client_username := "admin"; client_password := "pw";
              client_token := " aaa.bbb.ccc " |}).
  vm_compute. discriminate.
Defined.

Lemma app_longer (a s : string) : a ≠ "" → a +:+ s ≠ s.
Proof.
  intros Ha Heq. apply (f_equal String.length) in Heq.
  rewrite length_app_s in Heq. destruct a; [done|]. simpl in Heq. lia.
Qed.

(** X5.  The two tiers of table deletion authenticate alike only for an
    opaque token.  [deleteTableByLogical] always sends a token as
    [Basic <token>]; the client, configured from the same environment,
    sends a token that carries its own scheme verbatim and a JWT-shaped
    token (two or more periods) as [Bearer <token>]. *)
Theorem delete_authorization_agreement (env : Env) :
  let k := {| client_username := PINOT_USERNAME env;
              client_password := PINOT_PASSWORD env;
              client_token := PINOT_TOKEN env |} in
  let tok := TrimSpace (PINOT_TOKEN env) in
  delete_authorization env = authorization k ↔
  tok = "" ∨
  ((HasPrefix tok "Bearer " || HasPrefix tok "Basic ") = false
   ∧ Count tok "." < 2).
Proof.
  intros k tok. unfold delete_authorization, authorization. subst k.
  cbn [client_token client_username client_password]. fold tok.
  destruct (String.eqb tok "") eqn:Hb; cbn [negb].
  { apply String.eqb_eq in Hb. split; [by left|done]. }
  apply String.eqb_neq in Hb.
  destruct (HasPrefix tok "Bearer " || HasPrefix tok "Basic ") eqn:Hp.
  { split.
    - intros [= Heq]. by apply (app_longer "Basic " tok) in Heq.
    - by intros [? | [? _]]. }
  destruct (2 <=? Count tok ".") eqn:Hc.
  - apply Nat.leb_le in Hc. split.
    + by intros [= ?].
    + intros [? | [_ ?]]; [done|lia].
  - apply Nat.leb_gt in Hc. split; [|done]. intros _. right. by split.
Qed.

(** ** Provider configuration *)

Lemma HasSuffix_cons (c : ascii) (s suffix : string) :
  String.length suffix = 1 → s ≠ "" →
  HasSuffix (String c s) suffix = HasSuffix s suffix.
Proof.
  intros Hl Hs. unfold HasSuffix. rewrite Hl.
  destruct s as [|c' s]; [done|]. cbn [String.length].
  replace (S (S (String.length s)) - 1) with (S (String.length s)) by lia.
  replace (S (String.length s) - 1) with (String.length s) by lia.
  replace (1 <=? S (S (String.length s))) with true
    by (symmetry; apply Nat.leb_le; lia).
  replace (1 <=? S (String.length s)) with true
    by (symmetry; apply Nat.leb_le; lia).
  reflexivity.
Qed.

Lemma TrimRight_no_slash (s : string) : HasSuffix (TrimRight s "/") "/" = false.
Proof.
  induction s as [|c s IH]; [done|]. simpl.
  destruct (TrimRight s "/") as [|c' t] eqn:E.
  - destruct (in_cutset "/" c) eqn:Hc; [done|].
    unfold in_cutset in Hc. simpl in Hc. rewrite orb_false_r in Hc.
    unfold HasSuffix. simpl.
    destruct (Ascii.eqb_spec c "/"); [done|].
    destruct (String.eqb_spec (String c "") "/") as [[= ?]|?]; done.
  - rewrite HasSuffix_cons by done. exact IH.
Qed.

Lemma TrimRight_only_trims (s : string) :
  ∃ t, s = TrimRight s "/" +:+ t ∧ TrimRight t "/" = "".
Proof.
  induction s as [|c s (t & Hs & Ht)]; [by exists ""|]. simpl.
  destruct (TrimRight s "/") as [|c' u] eqn:E.
  - destruct (in_cutset "/" c) eqn:Hc.
    + exists (String c s). split; [done|]. simpl. by rewrite E, Hc.
    + exists t. split; [by rewrite Hs at 1|done].
  - exists t. split; [|done]. rewrite app_cons. by rewrite <- Hs.
Qed.

(** X6.  The provider gets a client exactly when a controller URL is
    available.  An explicit, non-empty [controller_url] wins over
    [PINOT_CONTROLLER_URL]; a null, unknown or empty one falls back to the
    environment; with neither, configuration fails with the single
    missing-URL error and no client. *)
Theorem Configure_controller_url (env : Env) (config : PinotProviderModel) :
  (∀ u, ControllerURL config = StringValue u → u ≠ "" →
     ∃ k, Configure env config
          = ([], Some ({| controllerURL := TrimRight u "/" |}, k))) ∧
  (ValueString (ControllerURL config) = "" →
   PINOT_CONTROLLER_URL env ≠ "" →
   ∃ k, Configure env config
        = ([], Some ({| controllerURL :=
                          TrimRight (PINOT_CONTROLLER_URL env) "/" |}, k))) ∧
  (ValueString (ControllerURL config) = "" →
   PINOT_CONTROLLER_URL env = "" →
   Configure env config
   = (AddError "Missing Pinot Controller URL"
        "Set controller_url or PINOT_CONTROLLER_URL." [], None)).
Proof.
  unfold Configure, or_from_config. repeat split.
  - intros u -> Hu. cbn [IsNull ValueString negb andb].
    rewrite !(eqb_false_ne _ _ Hu). cbn [negb].
    rewrite !(eqb_false_ne _ _ Hu). cbn. eauto.
  - intros -> He. rewrite andb_false_r, !(eqb_false_ne _ _ He). cbn. eauto.
  - intros -> ->. by rewrite andb_false_r.
Qed.

Lemma Configure_controller_url_witness :
  (∃ k, Configure (env_with_url "http://env:9000")
          (config_with_url (StringValue "http://cfg:9000/"))
        = ([], Some ({| controllerURL := TrimRight "http://cfg:9000/" "/" |},
                     k))) ∧
  (∃ k, Configure (env_with_url "http://env:9000")
          (config_with_url (StringValue ""))
        = ([], Some ({| controllerURL :=
                          TrimRight (PINOT_CONTROLLER_URL
                                       (env_with_url "http://env:9000")) "/"
                     |}, k))) ∧
  Configure (env_with_url "") (config_with_url StringNull)
  = (AddError "Missing Pinot Controller URL"
       "Set controller_url or PINOT_CONTROLLER_URL." [], None).
Proof.
  split; [|split].
  - apply (proj1 (Configure_controller_url _ _) "http://cfg:9000/");
      [reflexivity | discriminate].
  - apply (proj1 (proj2 (Configure_controller_url _ _)));
      [reflexivity | discriminate].
  - apply (proj2 (proj2 (Configure_controller_url _ _))); reflexivity.
Defined.

(** X7.  Whatever is configured, the controller URL the client holds does
    not end in a slash, and it is the configured URL with nothing but
    trailing slashes removed. *)
Theorem client_url_has_no_trailing_slash (url username password
    token : string) :
  let c := (NewPinotClientWithToken url username password token).1 in
  HasSuffix (controllerURL c) "/" = false ∧
  ∃ slashes, url = controllerURL c +:+ slashes ∧ TrimRight slashes "/" = "".
Proof.
  intros c. subst c. cbn [NewPinotClientWithToken fst controllerURL].
  split; [apply TrimRight_no_slash | apply TrimRight_only_trims].
Qed.

(** ** Table deletion *)

Lemma ToUpper_empty (s : string) : ToUpper s = "" ↔ s = "".
Proof. by destruct s. Qed.

Section DeletionFacts.
Variable PathEscape : string → string.
Variable url_Parse_error : string → option error.

(** X8.  When neither the attributes nor the identifier yield both a name
    and a flavor, deletion fails before anything is sent and the resource
    stays in the state. *)
Theorem table_delete_needs_identity (env : Env) (c : PinotClient)
    (data : TableResourceModel) (w : World) :
  (TrimSpace (ValueString (TableName data)) = ""
   ∧ (splitTableID (ValueString (ID data))).1 = "")
  ∨ (TrimSpace (ValueString (TableType data)) = ""
     ∧ (splitTableID (ValueString (ID data))).2 = "") →
  TableDelete PathEscape url_Parse_error env c data w =
  (fail "Error Deleting Pinot Table"
     "Missing table_name or table_type; cannot compute DELETE endpoint."
     (Some data), w).
Proof.
  intros H. unfold TableDelete.
  destruct (splitTableID (ValueString (ID data))) as [l t]. simpl in H.
  destruct H as [[Hn ->] | [Ht ->]].
  - rewrite Hn. by cbn [String.eqb orb].
  - rewrite Ht. cbn [ToUpper String.eqb orb].
    destruct (TrimSpace (ValueString (TableName data)) =? "")%string;
      cbn [orb String.eqb]; by rewrite ?Bool.orb_true_r.
Qed.

(** With both attributes present they are what deletion addresses. *)
Lemma TableDelete_from_attributes (env : Env) (c : PinotClient)
    (data : TableResourceModel) (w : World) :
  let n := TrimSpace (ValueString (TableName data)) in
  let t := ToUpper (TrimSpace (ValueString (TableType data))) in
  n ≠ "" → t ≠ "" →
  TableDelete PathEscape url_Parse_error env c data w =
  (let* err := deleteTableByLogical PathEscape url_Parse_error env n t in
   match err with
   | None => ret {| Diagnostics := []; State := None |}
   | Some err =>
       let* fallbackErr := DeleteTable c (n +:+ "_" +:+ t) in
       match fallbackErr with
       | None => ret {| Diagnostics := []; State := None |}
       | Some fallbackErr =>
           ret (fail "Error Deleting Pinot Table"
                  ("logical delete failed: " +:+ Error err
                   +:+ "; fallback delete failed: " +:+ Error fallbackErr)
                  (Some data))
       end
   end) w.
Proof.
  intros n t Hn Ht. unfold TableDelete. fold n t.
  rewrite (eqb_false_ne _ _ Hn), (eqb_false_ne _ _ Ht). cbn [orb].
  rewrite (eqb_false_ne _ _ Hn), (eqb_false_ne _ _ Ht). cbn [orb].
  replace (joinTableID n t) with (n +:+ "_" +:+ t); [done|].
  unfold joinTableID.
  replace (TrimSpace n) with n by (subst n; by rewrite TrimSpace_idemp).
  replace (ToUpper (TrimSpace t)) with t
    by (subst t; by rewrite TrimSpace_ToUpper, TrimSpace_idemp, ToUpper_idemp).
  by rewrite (eqb_false_ne _ _ Hn), (eqb_false_ne _ _ Ht).
Qed.

Lemma deleteTableByLogical_reply (env : Env) (n t : string) (status : nat)
    (b : Body) (rest : list Reply) (snt : list Request) :
  TrimRight (PINOT_CONTROLLER_URL env) "/" ≠ "" →
  url_Parse_error (TrimRight (PINOT_CONTROLLER_URL env) "/" +:+ "/tables/"
                   +:+ PathEscape n) = None →
  deleteTableByLogical PathEscape url_Parse_error env n t
    {| replies := Resp status b :: rest; sent := snt |} =
  (if deleted_status status then None
   else Some (Errorf ("unexpected status deleting table " +:+ Quote n
                      +:+ " type " +:+ Quote t +:+ ": " +:+ Itoa status)),
   {| replies := rest; sent := snt ++ [logical_delete env n (ToUpper t)] |}).
Proof.
  intros Hbase Hparse. unfold deleteTableByLogical.
  rewrite (eqb_false_ne _ _ Hbase), Hparse.
  unfold bind, roundTrip, ret, deleted_status. cbn [replies sent].
  by destruct (_ || _).
Qed.

Lemma valid_flavor_normal (v : TfString) :
  valid_flavor v →
  ToUpper (TrimSpace (ValueString v)) = ValueString v
  ∧ ValueString v ≠ "" ∧ ToUpper (ValueString v) = ValueString v.
Proof. by intros [-> | ->]. Qed.

(** X9.  With a name, a flavor the schema admits, a reachable controller
    URL, and a reply 200, 202, 204 or 404 to the logical delete, deletion
    is done after that one request, which names the table by its trimmed
    name: no diagnostic, the resource leaves the state.  A table that is
    already gone (404) counts as deleted. *)
Theorem table_delete_primary (env : Env) (c : PinotClient)
    (data : TableResourceModel) (status : nat) (b : Body)
    (rest : list Reply) (snt : list Request) :
  let n := TrimSpace (ValueString (TableName data)) in
  let t := ValueString (TableType data) in
  n ≠ "" → valid_flavor (TableType data) →
  TrimRight (PINOT_CONTROLLER_URL env) "/" ≠ "" →
  url_Parse_error (TrimRight (PINOT_CONTROLLER_URL env) "/" +:+ "/tables/"
                   +:+ PathEscape n) = None →
  deleted_status status = true →
  TableDelete PathEscape url_Parse_error env c data
    {| replies := Resp status b :: rest; sent := snt |} =
  ({| Diagnostics := []; State := None |},
   {| replies := rest; sent := snt ++ [logical_delete env n t] |}).
Proof.
  intros n t Hn (Ht & Ht' & Hup)%valid_flavor_normal Hbase Hparse Hok.
  rewrite TableDelete_from_attributes by (by rewrite ?Ht).
  rewrite Ht. fold n t. unfold bind.
  rewrite deleteTableByLogical_reply by done. rewrite Hok.
  subst t. by rewrite Hup.
Qed.



End DeletionFacts.

Lemma table_delete_needs_identity_witness :
  TableDelete (λ s, s) (λ _, None) (env_with_url "http://pinot:9000")
    sample_client
    (table_in_state "events" StringNull "events") idle_world
  = (fail "Error Deleting Pinot Table"
       "Missing table_name or table_type; cannot compute DELETE endpoint."
       (Some (table_in_state "events" StringNull "events")), idle_world).
Proof.
  apply table_delete_needs_identity. right. split; reflexivity.
Defined.

Lemma table_delete_primary_witness :
  TableDelete (λ s, s) (λ _, None) (env_with_url "http://pinot:9000/")
    sample_client padded_table
    {| replies := [Resp 404 (json_body JNull)]; sent := [] |}
  = ({| Diagnostics := []; State := None |},
     {| replies := [];
        sent := [] ++ [logical_delete (env_with_url "http://pinot:9000/")
                         (TrimSpace (ValueString (TableName padded_table)))
                         (ValueString (TableType padded_table))] |}).
Proof.
  apply (table_delete_primary (λ s, s) (λ _, None)
           (env_with_url "http://pinot:9000/") sample_client padded_table).
  - vm_compute. discriminate.
  - left. reflexivity.
  - vm_compute. discriminate.
  - reflexivity.
  - reflexivity.
Defined.



(** ** Import of tables *)

(** X11.  An import identifier is accepted exactly when it is a non-empty
    name followed by [_OFFLINE] or [_REALTIME]; the name and the flavor are
    then what the import records.  The recorded identifier is re-derived
    and therefore has the name trimmed (and is empty for a blank name). *)
Theorem table_import_outcome (id : string) :
  match TableImportState id with
  | (diags, Some imp) =>
      diags = [] ∧
      ∃ name kind,
        name ≠ "" ∧ (kind = "OFFLINE" ∨ kind = "REALTIME") ∧
        id = name +:+ "_" +:+ kind ∧
        imported_name imp = Some name ∧ imported_kind imp = Some kind ∧
        imported_id imp =
          Some (if String.eqb (TrimSpace name) "" then ""
                else TrimSpace name +:+ "_" +:+ kind)
  | (diags, None) =>
      HasError diags = true ∧
      (id = "_OFFLINE" ∨ id = "_REALTIME"
       ∨ HasSuffix id "_OFFLINE" = false ∧ HasSuffix id "_REALTIME" = false)
  end.
Proof.
  unfold TableImportState.
  pose proof (splitTableID_flavored id) as Hfl.
  assert ((splitTableID id).2 = "" →
          HasSuffix id "_OFFLINE" = false ∧ HasSuffix id "_REALTIME" = false)
    as Hno.
  { unfold splitTableID. by repeat destruct (HasSuffix id _). }
  destruct (splitTableID id) as [logical typ]. simpl in *.
  destruct (String.eqb_spec logical "") as [-> | Hl]; cbn [orb].
  - split; [done|].
    destruct (String.eqb_spec typ "") as [-> | Ht].
    + right; right. by apply Hno.
    + destruct (Hfl Ht) as [[-> | ->] ->]; auto.
  - destruct (String.eqb_spec typ "") as [-> | Ht].
    + split; [done|]. right; right. by apply Hno.
    + split; [done|]. destruct (Hfl Ht) as [Hk Hid].
      exists logical, typ. repeat split; try done. cbn [imported_id].
      f_equal. unfold joinTableID.
      destruct (String.eqb_spec (TrimSpace logical) "") as [E | E];
        cbn [orb]; [by rewrite E|].
      by destruct Hk as [-> | ->].
Qed.

(** X12.  Importing the identifier that [Create] records brings back the
    trimmed name, the upper-case flavor and the very same identifier. *)
Theorem table_import_of_created_id (name kind : string) :
  TrimSpace name ≠ "" →
  ToUpper (TrimSpace kind) = "OFFLINE" ∨ ToUpper (TrimSpace kind) = "REALTIME" →
  TableImportState (joinTableID name kind) =
  ([], Some {| imported_id := Some (joinTableID name kind);
               imported_name := Some (TrimSpace name);
               imported_kind := Some (ToUpper (TrimSpace kind)) |}).
Proof.
  intros Hn Hk.
  assert (ToUpper (TrimSpace kind) ≠ "") as Hk'
    by (by destruct Hk as [-> | ->]).
  assert (joinTableID name kind
          = TrimSpace name +:+ "_" +:+ ToUpper (TrimSpace kind)) as Hj.
  { unfold joinTableID.
    by rewrite (eqb_false_ne _ "" Hn), (eqb_false_ne _ "" Hk'). }
  set (n := TrimSpace name) in *. set (k := ToUpper (TrimSpace kind)) in *.
  assert (splitTableID (n +:+ "_" +:+ k) = (n, k)) as Hs.
  { unfold splitTableID. destruct Hk as [-> | ->].
    - rewrite HasSuffix_app by done. simpl. by rewrite TrimSuffix_app.
    - replace (n +:+ "_" +:+ "REALTIME") with ((n +:+ "_") +:+ "REALTIME")
        by apply app_assoc_s.
      rewrite HasSuffix_app by done. simpl. rewrite app_assoc_s.
      rewrite HasSuffix_app by done. simpl.
      by rewrite (TrimSuffix_app _ "_REALTIME"). }
  unfold TableImportState. rewrite Hj, Hs.
  rewrite (eqb_false_ne n "") by done.
  rewrite (eqb_false_ne k "") by done. cbn [orb].
  f_equal. f_equal. f_equal. f_equal.
  unfold joinTableID.
  replace (TrimSpace n) with n by (subst n; by rewrite TrimSpace_idemp).
  replace (ToUpper (TrimSpace k)) with k
    by (subst k; by rewrite TrimSpace_ToUpper, TrimSpace_idemp, ToUpper_idemp).
  by rewrite (eqb_false_ne n "" Hn), (eqb_false_ne k "" Hk').
Qed.

Lemma table_import_of_created_id_witness :
  TableImportState (joinTableID " events " "offline") =
  ([], Some {| imported_id := Some (joinTableID " events " "offline");
               imported_name := Some (TrimSpace " events ");
               imported_kind := Some (ToUpper (TrimSpace "offline")) |}).
Proof.
  apply table_import_of_created_id.
  - vm_compute. discriminate.
  - left. reflexivity.
Defined.

(** ** Where the secret is, and where it is not *)

Lemma at_scm_location (d : obj) :
  at_path scm_location (JObj d) =
  match d !! "ingestionConfig" with
  | Some (JObj ing) =>
      match ing !! "streamIngestionConfig" with
      | Some (JObj si) => si !! "streamConfigMaps"
      | _ => None
      end
  | _ => None
  end.
Proof.
  cbn [at_path scm_location].
  destruct (d !! "ingestionConfig") as [[| | | | |ing]|]; try done.
  cbn [mbind option_bind].
  destruct (ing !! "streamIngestionConfig") as [[| | | | |si]|]; try done.
  cbn [mbind option_bind]. by destruct (si !! "streamConfigMaps").
Qed.

Lemma at_scm_location_redacted (d : obj) :
  at_path scm_location (JObj (redacted d))
  = strip_container <$> at_path scm_location (JObj d).
Proof.
  rewrite !at_scm_location. unfold redacted.
  destruct (d !! "ingestionConfig") as [[| | | | |ing]|] eqn:Hi;
    rewrite ?Hi; try done.
  rewrite lookup_insert_eq. unfold redacted_ingestion.
  destruct (ing !! "streamIngestionConfig") as [[| | | | |si]|] eqn:Hs;
    rewrite ?Hs; try done.
  rewrite lookup_insert_eq. unfold redacted_scm.
  destruct (si !! "streamConfigMaps") as [[| | | |l|scm]|] eqn:Hc;
    rewrite ?Hc, ?lookup_insert_eq; done.
Qed.

Lemma strip_element_clean (el : json) :
  element_holds_secret (strip_element el) = false.
Proof.
  destruct el as [| | | | |m]; try done. cbn.
  rewrite copy_map_without_delete, lookup_delete_eq.
  apply bool_decide_eq_false. by intros [? ?].
Qed.

Lemma strip_element_id (el : json) :
  element_holds_secret el = false → strip_element el = el.
Proof.
  destruct el as [| | | | |m]; try done. cbn.
  intros H%bool_decide_eq_false. rewrite copy_map_without_delete.
  f_equal. apply delete_id. by apply eq_None_not_Some.
Qed.

Lemma strip_elements_id (l : list json) :
  existsb element_holds_secret l = false → strip_element <$> l = l.
Proof.
  induction l as [|el l IH]; [done|]. rewrite fmap_cons. cbn [existsb].
  intros [H1 H2]%orb_false_elim.
  by rewrite strip_element_id, IH.
Qed.

Lemma strip_container_id (v : json) :
  match v with
  | JObj scm => bool_decide (is_Some (scm !! sasl_key))
  | JArr l => existsb element_holds_secret l
  | _ => false
  end = false →
  strip_container v = v.
Proof.
  destruct v as [| | | |l|scm]; try done; cbn.
  - intros H. by rewrite strip_elements_id.
  - intros H%bool_decide_eq_false. f_equal. apply delete_id.
    by apply eq_None_not_Some.
Qed.

(** X13.  The redacted document never carries the secret, in either shape
    of [streamConfigMaps], whatever the document was. *)
Theorem redaction_clears_secret (input : option obj) :
  holds_secret (marshal_map (removeSaslJaasFromTableConfig input)) = false.
Proof.
  destruct input as [d|]; [|done].
  rewrite redact_unfold. unfold holds_secret, marshal_map.
  rewrite at_scm_location_redacted.
  destruct (at_path scm_location (JObj d)) as [[| | | |l|scm]|]; try done;
    cbn.
  - induction l as [|el l IH]; [done|]. rewrite fmap_cons. cbn [existsb].
    by rewrite strip_element_clean, IH.
  - rewrite lookup_delete_eq. apply bool_decide_eq_false. by intros [? ?].
Qed.

(** X14.  After injection the document carries the given value: under the
    key of the map shape, or in the first element of the list shape. *)
Theorem injection_places_secret (d : obj) (s : string) :
  match at_path scm_location (JObj (injectKafkaSasl d s)) with
  | Some (JObj scm) => scm !! sasl_key = Some (JStr s)
  | Some (JArr (JObj first :: _)) => first !! sasl_key = Some (JStr s)
  | _ => False
  end.
Proof.
  rewrite at_scm_location. unfold injectKafkaSasl.
  rewrite !lookup_insert_eq.
  destruct (default ∅ (as_map (default ∅ (as_map (d !! "ingestionConfig"))
                                 !! "streamIngestionConfig"))
              !! "streamConfigMaps") as [[| | | |[|[| | | | |m] l]|scm]|];
    by rewrite ?lookup_insert_eq.
Qed.

(** X15.  On a document that carries no secret, redaction changes
    nothing. *)
Theorem redaction_keeps_clean_document (d : obj) :
  holds_secret (JObj d) = false →
  removeSaslJaasFromTableConfig (Some d) = Some d.
Proof.
  unfold holds_secret. rewrite at_scm_location, redact_unfold.
  intros H. f_equal. unfold redacted.
  destruct (d !! "ingestionConfig") as [[| | | | |ing]|] eqn:Hi; try done.
  unfold redacted_ingestion.
  destruct (ing !! "streamIngestionConfig") as [[| | | | |si]|] eqn:Hs;
    try (by rewrite insert_id).
  assert (redacted_scm si = si) as ->.
  { unfold redacted_scm.
    destruct (si !! "streamConfigMaps") as [[| | | |l|scm]|] eqn:Hc;
      try done.
    - rewrite strip_elements_id by done. by rewrite insert_id.
    - apply bool_decide_eq_false in H.
      rewrite delete_id by (by apply eq_None_not_Some).
      by rewrite insert_id. }
  rewrite (insert_id ing) by done. by rewrite insert_id.
Qed.

Lemma redaction_keeps_clean_document_witness :
  removeSaslJaasFromTableConfig
    (Some {[ "ingestionConfig" :=
               JObj {[ "streamIngestionConfig" :=
                         JObj {[ "streamConfigMaps" :=
                                   JArr [JObj {[ "streamType" :=
                                                   JStr "kafka" ]}] ]} ]} ]})
  = Some {[ "ingestionConfig" :=
              JObj {[ "streamIngestionConfig" :=
                        JObj {[ "streamConfigMaps" :=
                                  JArr [JObj {[ "streamType" :=
                                                  JStr "kafka" ]}] ]} ]} ]}.
Proof.
  apply redaction_keeps_clean_document. vm_compute. reflexivity.
Defined.

(** X16.  Injection followed by redaction gives back the document it
    started from, when that document already has a [streamConfigMaps] that
    is a map, or a list whose first element is a map, and carries no
    secret: the state then shows the configuration as it was written. *)
Theorem inject_then_redact_restores (d : obj) (s : string) :
  holds_secret (JObj d) = false →
  match at_path scm_location (JObj d) with
  | Some (JObj _) | Some (JArr (JObj _ :: _)) => True
  | _ => False
  end →
  inject_then_redact d s = JObj d.
Proof.
  unfold holds_secret, inject_then_redact.
  rewrite at_scm_location, redact_unfold.
  destruct (d !! "ingestionConfig") as [[| | | | |ing]|] eqn:Hi; try done.
  destruct (ing !! "streamIngestionConfig") as [[| | | | |si]|] eqn:Hs;
    try done.
  intros Hclean Hshape. f_equal.
  unfold injectKafkaSasl. rewrite Hi. cbn [as_map default from_option id].
  rewrite Hs. cbn [as_map default from_option id].
  unfold redacted. rewrite lookup_insert_eq, insert_insert_eq.
  unfold redacted_ingestion. rewrite lookup_insert_eq, insert_insert_eq.
  unfold redacted_scm. rewrite lookup_insert_eq.
  destruct (si !! "streamConfigMaps") as [[| | | |[|[| | | | |m] l]|scm]|]
    eqn:Hc; try done; rewrite insert_insert_eq.
  - cbn in Hclean. apply orb_false_elim in Hclean as [Hm Hl].
    apply bool_decide_eq_false in Hm.
    rewrite fmap_cons. cbn [strip_element].
    rewrite copy_map_without_delete, delete_insert_eq.
    rewrite delete_id by (by apply eq_None_not_Some).
    rewrite strip_elements_id by done.
    rewrite (insert_id si) by done. rewrite (insert_id ing) by done.
    by rewrite insert_id.
  - apply bool_decide_eq_false in Hclean.
    rewrite delete_insert_eq.
    rewrite delete_id by (by apply eq_None_not_Some).
    rewrite (insert_id si) by done. rewrite (insert_id ing) by done.
    by rewrite insert_id.
Qed.

Lemma inject_then_redact_restores_witness :
  inject_then_redact
    {[ "tableName" := JStr "events_REALTIME";
       "ingestionConfig" :=
         JObj {[ "streamIngestionConfig" :=
                   JObj {[ "streamConfigMaps" :=
                             JArr [JObj {[ "streamType" := JStr "kafka" ]}]
                        ]} ]} ]} "secret"
  = JObj {[ "tableName" := JStr "events_REALTIME";
            "ingestionConfig" :=
              JObj {[ "streamIngestionConfig" :=
                        JObj {[ "streamConfigMaps" :=
                                  JArr [JObj {[ "streamType" := JStr "kafka" ]}]
                             ]} ]} ]}.
Proof.
  apply inject_then_redact_restores.
  - vm_compute. reflexivity.
  - vm_compute. exact I.
Defined.

(** ** Table lifecycle: requests sent and state recorded *)

Lemma injected_holds_secret (d : obj) (s : string) :
  holds_secret (JObj (injectKafkaSasl d s)) = true.
Proof.
  unfold holds_secret. rewrite at_scm_location. unfold injectKafkaSasl.
  rewrite !lookup_insert_eq.
  destruct (default ∅ (as_map (default ∅ (as_map (d !! "ingestionConfig"))
                                 !! "streamIngestionConfig"))
              !! "streamConfigMaps") as [[| | | |[|[| | | | |m] l]|scm]|];
    cbn [existsb element_holds_secret orb];
    rewrite ?lookup_insert_eq; try done.
  all: try (rewrite bool_decide_eq_true_2 by (by eexists); done).
Qed.

Lemma redacted_state_clean (tableConfig : option obj) :
  holds_secret (marshal_map (removeSaslJaasFromTableConfig tableConfig))
  = false.
Proof.
  destruct tableConfig as [d|]; [|done].
  rewrite redact_unfold. unfold holds_secret, marshal_map.
  rewrite at_scm_location_redacted.
  destruct (at_path scm_location (JObj d)) as [[| | | |l|scm]|]; try done;
    cbn.
  - induction l as [|el l IH]; [done|]. rewrite fmap_cons. cbn [existsb].
    by rewrite strip_element_clean, IH.
  - rewrite lookup_delete_eq. apply bool_decide_eq_false. by intros [? ?].
Qed.

(** What [buildSaslIfProvided] returns when it does not fail. *)
Lemma buildSaslIfProvided_ok (data : TableResourceModel) (saslValue : string) :
  buildSaslIfProvided data = (saslValue, None) →
  IsNull (KafkaUsername data) = IsNull (KafkaPassword data) ∧
  saslValue = (if IsNull (KafkaUsername data) then ""
               else buildSaslJaas (ValueString (KafkaUsername data))
                      (ValueString (KafkaPassword data))) ∧
  (saslValue =? "")%string = IsNull (KafkaUsername data).
Proof.
  unfold buildSaslIfProvided.
  destruct (IsNull (KafkaUsername data)), (IsNull (KafkaPassword data));
    cbn [andb orb]; try done.
  - by intros [= <-].
  - destruct (_ || _); [done|]. by intros [= <-].
Qed.

Lemma sent_CreateTable c tableConfig w :
  sent (CreateTable c tableConfig w).2
  = sent w ++ [{| method := "POST"; url := pasted c "/tables";
                  payload := Some tableConfig |}].
Proof.
  unfold CreateTable, bind.
  pose proof (sent_doRequest "POST" (pasted c "/tables")
                (Some tableConfig) w) as Hs.
  by destruct (doRequest _ _ _ w) as [[resp|e] w'].
Qed.

(** X17.  Whenever [Create] returns, for a flavor the schema admits: with
    an error diagnostic nothing is recorded; without one the state has the
    composite identifier, a document free of the secret, and the secret in
    its own attribute exactly when credentials were given, and the
    controller has received one [POST /tables] whose body, with credentials
    given, carries the secret. *)
Theorem table_create_outcome (c : PinotClient) (data : TableResourceModel)
    (w w' : World) (resp : Response TableResourceModel) :
  valid_flavor (TableType data) →
  TableCreate c data w = (Returned resp, w') →
  if HasError (Diagnostics resp) then State resp = None
  else
    ∃ st body,
      State resp = Some st ∧
      ID st = StringValue (joinTableID (ValueString (TableName data))
                             (ValueString (TableType data))) ∧
      holds_secret (TableConfig st) = false ∧
      SaslJaasConfig st =
        (if IsNull (KafkaUsername data) then StringNull
         else StringValue (buildSaslJaas (ValueString (KafkaUsername data))
                             (ValueString (KafkaPassword data)))) ∧
      sent w' = sent w ++ [{| method := "POST";
                              url := pasted c "/tables";
                              payload := Some body |}] ∧
      (IsNull (KafkaUsername data) = false → holds_secret body = true).
Proof.
  intros _. unfold TableCreate.
  destruct (unmarshal_table_config (TableConfig data)) as [tableConfig|e];
    [|by intros [= <- <-]].
  destruct (negb (_ =? _)%string); [by intros [= <- <-]|].
  destruct (negb (EqualFold _ _)); [by intros [= <- <-]|].
  destruct (buildSaslIfProvided data) as [saslValue [err|]] eqn:Hsasl;
    [by intros [= <- <-]|].
  apply buildSaslIfProvided_ok in Hsasl as (_ & Hvalue & Hempty).
  destruct (inject_if_built tableConfig saslValue) as [injected|msg] eqn:Hinj;
    [|done].
  unfold bind.
  pose proof (sent_CreateTable c (marshal_map injected) w) as Hsent.
  destruct (CreateTable c (marshal_map injected) w) as [[err|] w1];
    intros [= <- <-]; [done|].
  cbn [Diagnostics HasError existsb State].
  eexists _, (marshal_map injected).
  split; [reflexivity|]. cbn [table_state ID TableConfig SaslJaasConfig].
  split; [done|]. split; [apply redacted_state_clean|].
  split; [|split; [exact Hsent|]].
  - rewrite Hempty. destruct (IsNull (KafkaUsername data)); [done|].
    by rewrite Hvalue.
  - intros Hgiven. unfold inject_if_built in Hinj.
    rewrite Hempty, Hgiven in Hinj.
    destruct tableConfig as [m|]; [|done].
    injection Hinj as <-. apply injected_holds_secret.
Qed.

Lemma table_create_outcome_witness :
  ∃ resp w',
    TableCreate sample_client plan_with_credentials
      {| replies := [Resp 200 (json_body JNull)]; sent := [] |}
    = (Returned resp, w') ∧
    (if HasError (Diagnostics resp) then State resp = None
     else
       ∃ st body,
         State resp = Some st ∧
         ID st = StringValue
                   (joinTableID (ValueString (TableName plan_with_credentials))
                      (ValueString (TableType plan_with_credentials))) ∧
         holds_secret (TableConfig st) = false ∧
         SaslJaasConfig st =
           (if IsNull (KafkaUsername plan_with_credentials) then StringNull
            else StringValue
                   (buildSaslJaas
                      (ValueString (KafkaUsername plan_with_credentials))
                      (ValueString (KafkaPassword plan_with_credentials)))) ∧
         sent w' = sent {| replies := [Resp 200 (json_body JNull)];
                           sent := [] |}
                   ++ [{| method := "POST";
                          url := pasted sample_client "/tables";
                          payload := Some body |}] ∧
         (IsNull (KafkaUsername plan_with_credentials) = false →
          holds_secret body = true)).
Proof.
  eexists _, _.
  refine (let H := _ in
          conj H (table_create_outcome sample_client plan_with_credentials
                    _ _ _ (or_intror eq_refl) H)).
  vm_compute. reflexivity.
Defined.

Lemma sent_UpdateTable c tableConfig w :
  sent (UpdateTable c tableConfig w).2 = sent w ∨
  ∃ m tableName,
    tableConfig = JObj m ∧ m !! "tableName" = Some (JStr tableName) ∧
    sent (UpdateTable c tableConfig w).2
    = sent w ++ [{| method := "PUT";
                    url := pasted c ("/tables/" +:+ tableName);
                    payload := Some tableConfig |}].
Proof.
  unfold UpdateTable.
  destruct tableConfig as [| | | | |m]; try (by left).
  destruct (m !! "tableName") as [[| | |tableName| |]|] eqn:Hn;
    try (by left).
  right. exists m, tableName. split; [done|]. split; [done|].
  unfold bind.
  pose proof (sent_doRequest "PUT" (pasted c ("/tables/" +:+ tableName))
                (Some (JObj m)) w) as Hs.
  by destruct (doRequest _ _ _ w) as [[resp|e] w'].
Qed.

Lemma sent_ReloadTable c logicalName tableType w :
  sent (ReloadTable c logicalName tableType w).2 = sent w ∨
  sent (ReloadTable c logicalName tableType w).2
  = sent w ++ [{| method := "POST";
                  url := endpoint c ["segments"; logicalName; "reload"]
                           [("type", ToUpper tableType)];
                  payload := None |}].
Proof.
  unfold ReloadTable.
  destruct (0 <? _); [by left|]. right. unfold bind.
  pose proof (sent_doRequest "POST"
                (endpoint c ["segments"; logicalName; "reload"]
                   [("type", ToUpper tableType)]) None w) as Hs.
  by destruct (doRequest _ _ _ w) as [[resp|e] w'].
Qed.

(** X18.  Whenever [Update] returns: with an error diagnostic the prior
    state stays and at most the one [PUT] was sent; without one the new
    state keeps the identifier, holds a document free of the secret, and
    any diagnostic is the reload warning: a failed reload never fails the
    update. *)
Theorem table_update_outcome (c : PinotClient)
    (prior data : TableResourceModel) (w w' : World)
    (resp : Response TableResourceModel) :
  TableUpdate c prior data w = (Returned resp, w') →
  if HasError (Diagnostics resp) then
    State resp = Some prior ∧
    ∃ reqs, sent w' = sent w ++ reqs ∧ length reqs ≤ 1
  else
    (∃ st, State resp = Some st ∧ ID st = ID data ∧
           holds_secret (TableConfig st) = false) ∧
    (∀ d, d ∈ Diagnostics resp →
          severity d = SeverityWarning ∧
          summary d = "Pinot Segment Reload Failed") ∧
    ∃ put reqs, sent w' = sent w ++ put :: reqs ∧ method put = "PUT"
                ∧ length reqs ≤ 1.
Proof.
  unfold TableUpdate.
  assert (∃ reqs : list Request, sent w = sent w ++ reqs ∧ length reqs ≤ 1)
    as Hnone
    by (exists []; split; [by rewrite app_nil_r | simpl; lia]).
  destruct (unmarshal_table_config (TableConfig data)) as [tableConfig|e];
    [|by intros [= <- <-]].
  destruct (negb _ && negb _); [by intros [= <- <-]|].
  destruct (negb _ && negb _); [by intros [= <- <-]|].
  destruct (buildSaslIfProvided data) as [saslValue [err|]] eqn:Hsasl;
    [by intros [= <- <-]|].
  destruct (inject_if_built tableConfig saslValue) as [injected|msg] eqn:Hinj;
    [|done].
  unfold bind.
  pose proof (sent_UpdateTable c (marshal_map injected) w) as Hput.
  destruct (UpdateTable c (marshal_map injected) w) as [[err|] w1] eqn:Hup.
  { intros [= <- <-]. cbn [Diagnostics State HasError existsb]. cbn.
    split; [done|]. cbn [snd] in Hput.
    destruct Hput as [-> | (m & tn & _ & _ & ->)]; [done|].
    eexists [_]. split; [done | simpl; lia]. }
  assert (∃ put, sent w1 = sent w ++ [put] ∧ method put = "PUT")
    as (put & Hw1 & Hmethod).
  { destruct Hput as [Hsame | (m & tn & Hm & Hn & Hs)].
    - exfalso. unfold UpdateTable in Hup.
      destruct (marshal_map injected) as [| | | | |m]; try done.
      destruct (m !! "tableName") as [[| | |tn| |]|]; try done.
      unfold bind in Hup.
      pose proof (sent_doRequest "PUT" (pasted c ("/tables/" +:+ tn))
                    (Some (JObj m)) w) as Hs.
      destruct (doRequest _ _ _ w) as [[r|e] w2]; unfold ret in Hup;
        [|done].
      injection Hup as <-. cbn [snd] in *. rewrite Hs in Hsame.
      apply (f_equal length) in Hsame. rewrite length_app in Hsame.
      cbn in Hsame. lia.
    - eexists. by split; [exact Hs|]. }
  pose proof (sent_ReloadTable c (ValueString (TableName data))
                (ValueString (TableType data)) w1) as Hreload.
  destruct (ReloadTable c _ _ w1) as [rerr w2].
  intros [= <- <-]. cbn [Diagnostics State snd] in *.
  assert (∃ reqs, sent w2 = sent w ++ put :: reqs ∧ length reqs ≤ 1)
    as (reqs & Hw2 & Hlen).
  { destruct Hreload as [-> | ->]; rewrite Hw1.
    - exists []. split; [done | simpl; lia].
    - rewrite <- app_assoc. eexists [_]. split; [done | simpl; lia]. }
  destruct rerr as [err|]; cbn.
  - split; [eexists; split; [reflexivity|]; split;
            [done|apply redacted_state_clean]|].
    split; [|by exists put, reqs].
    by intros d ->%list_elem_of_singleton.
  - split; [eexists; split; [reflexivity|]; split;
            [done|apply redacted_state_clean]|].
    split; [|by exists put, reqs].
    by intros d ?%elem_of_nil.
Qed.

Lemma table_update_outcome_witness :
  ∃ resp w',
    TableUpdate sample_client plan_without_identity plan_with_credentials
      {| replies := [Resp 200 (json_body JNull); Resp 500 (json_body JNull)];
         sent := [] |}
    = (Returned resp, w') ∧
    (if HasError (Diagnostics resp) then
       State resp = Some plan_without_identity ∧
       ∃ reqs,
         sent w' = sent {| replies := [Resp 200 (json_body JNull);
                                       Resp 500 (json_body JNull)];
                           sent := [] |} ++ reqs ∧ length reqs ≤ 1
     else
       (∃ st, State resp = Some st ∧ ID st = ID plan_with_credentials ∧
              holds_secret (TableConfig st) = false) ∧
       (∀ d, d ∈ Diagnostics resp →
             severity d = SeverityWarning ∧
             summary d = "Pinot Segment Reload Failed") ∧
       ∃ put reqs,
         sent w' = sent {| replies := [Resp 200 (json_body JNull);
                                       Resp 500 (json_body JNull)];
                           sent := [] |} ++ put :: reqs ∧
         method put = "PUT" ∧ length reqs ≤ 1).
Proof.
  eexists _, _.
  refine (let H := _ in
          conj H (table_update_outcome sample_client plan_without_identity
                    plan_with_credentials _ _ _ H)).
  vm_compute. reflexivity.
Defined.


(** X30.  For a flavor the schema admits, every request an update adds is
    the reload of the planned table, or a [PUT] whose target is the
    client's URL followed by [/tables/] and the composite identifier of the
    plan (or by [/tables/] alone, when the document names the table by the
    empty string): the document cannot direct the update elsewhere.  The
    identifier is pasted as it is; what the controller makes of a name
    that holds [/], [?] or [#] is not the subject here. *)
Theorem table_update_targets (c : PinotClient)
    (prior data : TableResourceModel) (w : World) (req : Request) :
  valid_flavor (TableType data) →
  req ∈ sent (TableUpdate c prior data w).2 →
  req ∈ sent w
  ∨ req = {| method := "POST";
             url := endpoint c
                      ["segments"; ValueString (TableName data); "reload"]
                      [("type", ToUpper (ValueString (TableType data)))];
             payload := None |}
  ∨ ∃ tn body,
      req = {| method := "PUT"; url := pasted c ("/tables/" +:+ tn);
               payload := Some body |} ∧
      (tn = "" ∨ tn = joinTableID (ValueString (TableName data))
                        (ValueString (TableType data))).
Proof.
  intros _. unfold TableUpdate.
  destruct (unmarshal_table_config (TableConfig data)) as [tableConfig|e];
    [|by left].
  set (full := joinTableID _ _).
  set (tn := as_string (map_index tableConfig "tableName")).
  destruct (negb (tn =? "")%string && negb (tn =? full)%string) eqn:Hname;
    [by left|].
  assert (tn = "" ∨ tn = full) as Htn.
  { apply andb_false_iff in Hname as [H|H]; apply negb_false_iff in H;
      apply String.eqb_eq in H; auto. }
  destruct (negb (as_string (map_index tableConfig "tableType") =? "")%string
            && _); [by left|].
  destruct (buildSaslIfProvided data) as [saslValue [err|]]; [by left|].
  destruct (inject_if_built tableConfig saslValue) as [injected|msg] eqn:Hinj;
    [|by left].
  assert (as_string (map_index injected "tableName") = tn) as Hkept.
  { unfold inject_if_built in Hinj.
    destruct (saslValue =? "")%string; [by injection Hinj as <-|].
    destruct tableConfig as [m|]; [|done]. injection Hinj as <-.
    subst tn. cbn [map_index mbind option_bind].
    by rewrite injectKafkaSasl_keeps_name. }
  unfold bind.
  pose proof (sent_UpdateTable c (marshal_map injected) w) as Hput.
  assert (∀ r, r ∈ sent (UpdateTable c (marshal_map injected) w).2 →
               r ∈ sent w ∨
               ∃ tn body,
                 r = {| method := "PUT"; url := pasted c ("/tables/" +:+ tn);
                        payload := Some body |} ∧ (tn = "" ∨ tn = full))
    as Hputs.
  { intros r. destruct Hput as [-> | (m & name & Hm & Hn & ->)]; [by left|].
    intros [Hr | ->%list_elem_of_singleton]%elem_of_app; [by left|].
    right. exists name, (marshal_map injected). split; [done|].
    destruct injected as [m'|]; [|done]. injection Hm as ->.
    cbn [map_index mbind option_bind] in Hkept. rewrite Hn in Hkept.
    cbn [as_string] in Hkept. by rewrite Hkept. }
  destruct (UpdateTable c (marshal_map injected) w) as [[err|] w1];
    cbn [snd] in Hputs.
  { unfold ret. cbn [snd]. intros Hr.
    destruct (Hputs _ Hr) as [?|?]; auto. }
  pose proof (sent_ReloadTable c (ValueString (TableName data))
                (ValueString (TableType data)) w1) as Hreload.
  destruct (ReloadTable c _ _ w1) as [rerr w2]. unfold ret.
  cbn [snd] in *.
  destruct Hreload as [-> | ->].
  - intros Hr. destruct (Hputs _ Hr) as [?|?]; auto.
  - intros [Hr | ->%list_elem_of_singleton]%elem_of_app.
    + destruct (Hputs _ Hr) as [?|?]; auto.
    + right; by left.
Qed.

Lemma table_update_targets_witness :
  sent (TableUpdate sample_client plan_without_identity
          plan_with_credentials idle_world).2 ≠ [] ∧
  ∀ req,
    req ∈ sent (TableUpdate sample_client plan_without_identity
                  plan_with_credentials idle_world).2 →
    req ∈ sent idle_world
    ∨ req = {| method := "POST";
               url := endpoint sample_client
                        ["segments";
                         ValueString (TableName plan_with_credentials);
                         "reload"]
                        [("type",
                          ToUpper (ValueString
                                     (TableType plan_with_credentials)))];
               payload := None |}
    ∨ ∃ tn body,
        req = {| method := "PUT";
                 url := pasted sample_client ("/tables/" +:+ tn);
                 payload := Some body |} ∧
        (tn = "" ∨ tn = joinTableID
                          (ValueString (TableName plan_with_credentials))
                          (ValueString (TableType plan_with_credentials))).
Proof.
  split.
  - vm_compute. discriminate.
  - intros req.
    exact (table_update_targets sample_client plan_without_identity
             plan_with_credentials idle_world req (or_intror eq_refl)).
Defined.

(** ** Users: update, deletion, import *)

Lemma Cut_first (before after : string) (sep : ascii) :
  Count before sep = 0 →
  Cut (before +:+ String sep after) sep = Some (before, after).
Proof.
  induction before as [|c before IH].
  - intros _. change (Cut (String sep after) sep = Some (""%string, after)).
    cbn [Cut]. by rewrite Ascii.eqb_refl.
  - rewrite app_cons. cbn [Cut Count].
    destruct (Ascii.eqb c sep); [done|]. intros H. by rewrite IH.
Qed.

Lemma Cut_absent (s : string) (sep : ascii) :
  Count s sep = 0 → Cut s sep = None.
Proof.
  induction s as [|c s IH]; [done|]. cbn [Count Cut].
  destruct (Ascii.eqb c sep); [done|]. intros H. by rewrite IH.
Qed.

(** X20.  Import of a user: [username|component] sets the three
    attributes, the identifier being the user name; the separator is the
    first bar, so a component may contain one.  An identifier without a bar
    is taken for the user name alone, and the component stays unset. *)
Theorem user_import_outcome (user comp : string) :
  Count user "|" = 0 →
  UserImportState (user +:+ "|" +:+ comp)
  = {| imported_id := Some user; imported_name := Some user;
       imported_kind := Some comp |}
  ∧ UserImportState user
    = {| imported_id := None; imported_name := Some user;
         imported_kind := None |}.
Proof.
  intros H. unfold UserImportState, SplitN2. split.
  - change ("|" +:+ comp) with (String "|" comp). by rewrite Cut_first.
  - by rewrite Cut_absent.
Qed.

Lemma user_import_outcome_witness :
  UserImportState ("alice" +:+ "|" +:+ "BROKER|x")
  = {| imported_id := Some "alice"; imported_name := Some "alice";
       imported_kind := Some "BROKER|x" |}
  ∧ UserImportState "alice"
    = {| imported_id := None; imported_name := Some "alice";
         imported_kind := None |}.
Proof. apply user_import_outcome. reflexivity. Defined.




Lemma known_strings_values (l : list string) :
  known_strings (StringValue <$> l) = Some l.
Proof.
  unfold known_strings. induction l as [|s l IH]; [done|].
  rewrite fmap_cons. cbn [mapM]. rewrite IH. done.
Qed.

(** X23.  A list of strings put into the state is read back from it
    unchanged, nil included, and without a diagnostic. *)
Theorem string_list_roundtrip (s : option (list string))
    (diags : list Diagnostic) :
  toStringSlice diags (ListValueFrom s) = (s, diags).
Proof.
  destruct s as [l|]; [|done].
  unfold ListValueFrom, toStringSlice. by rewrite known_strings_values.
Qed.

(** X24.  Once the controller has accepted the [POST], creation of a user
    succeeds even if the read-back is refused: the state is then filled
    from the plan. *)
Theorem user_create_survives_failed_readback (c : PinotClient)
    (data : UserResourceModel) (tables_ perms_ : option (list string))
    (status status2 : nat) (b b2 : Body) (rest : list Reply)
    (snt : list Request) :
  IsNull (Password data) = false →
  ValueString (Password data) ≠ "" →
  toStringSlice [] (Tables data) = (tables_, []) →
  toStringSlice [] (Permissions data) = (perms_, []) →
  status < 400 → 400 ≤ status2 →
  ∃ body,
    UserCreate c data
      {| replies := Resp status b :: Resp status2 b2 :: rest; sent := snt |}
    = ({| Diagnostics := [];
          State := Some
            {| UserID := StringValue (ValueString (Username data));
               Username := StringValue (ValueString (Username data));
               Password := Password data;
               Component := StringValue (ValueString (Component data));
               Role := StringValue (ValueString (Role data));
               Tables := ListValueFrom tables_;
               Permissions := ListValueFrom perms_ |} |},
       {| replies := rest;
          sent := snt ++ [{| method := "POST";
                             url := pasted c "/users";
                             payload := Some body |};
                          user_request "GET" c
                            (ValueString (Username data))
                            (ValueString (Component data)) None] |}).
Proof.
  intros Hnull Hpw Ht Hp Hok Hbad. eexists.
  unfold UserCreate. rewrite Hnull, (eqb_false_ne _ _ Hpw), Ht, Hp.
  cbn [orb HasError existsb].
  unfold bind, CreateUser, bind. rewrite doRequest_reply.
  apply Nat.leb_gt in Hok. rewrite Hok. unfold ret.
  cbn [username component].
  unfold fetchUser, bind, GetUser, bind. rewrite doRequest_reply.
  apply Nat.leb_le in Hbad. rewrite Hbad. unfold ret.
  rewrite <- app_assoc. reflexivity.
Qed.

Lemma user_create_survives_failed_readback_witness :
  ∃ body,
    UserCreate sample_client (sample_user_plan (StringValue "s3cret"))
      {| replies := Resp 200 (json_body JNull)
                    :: Resp 500 (json_body JNull) :: [];
         sent := [] |}
    = ({| Diagnostics := [];
          State := Some
            {| UserID := StringValue
                 (ValueString (Username (sample_user_plan
                                           (StringValue "s3cret"))));
               Username := StringValue
                 (ValueString (Username (sample_user_plan
                                           (StringValue "s3cret"))));
               Password := Password (sample_user_plan (StringValue "s3cret"));
               Component := StringValue
                 (ValueString (Component (sample_user_plan
                                            (StringValue "s3cret"))));
               Role := StringValue
                 (ValueString (Role (sample_user_plan
                                       (StringValue "s3cret"))));
               Tables := ListValueFrom None;
               Permissions := ListValueFrom (Some ["READ"]) |} |},
       {| replies := [];
          sent := [] ++ [{| method := "POST";
                            url := pasted sample_client "/users";
                            payload := Some body |};
                         user_request "GET" sample_client
                           (ValueString (Username (sample_user_plan
                                                     (StringValue "s3cret"))))
                           (ValueString (Component (sample_user_plan
                                                      (StringValue "s3cret"))))
                           None] |}).
Proof.
  apply (user_create_survives_failed_readback sample_client
           (sample_user_plan (StringValue "s3cret")) None (Some ["READ"])
           200 500).
  - reflexivity.
  - vm_compute. discriminate.
  - reflexivity.
  - reflexivity.
  - lia.
  - lia.
Defined.

(** ** Schemas *)

Lemma lookup_put_list_ne {A} (k k' : string) (marshal : A → json)
    (l : list A) (m : obj) :
  k ≠ k' → put_list k' marshal l m !! k = m !! k.
Proof.
  intros Hk. destruct l; [done|]. cbn [put_list].
  by rewrite lookup_insert_ne.
Qed.

(** An object that names a field once, or not at all. *)
Lemma struct_member_only (m : obj) (name k : string) (v : json) :
  m !! k = Some v → names name k = true →
  (∀ k', is_Some (m !! k') → names name k' = true → k' = k) →
  struct_member m name = Decoded (Some v).
Proof.
  intros Hk Hn Honly. unfold struct_member, members_named.
  assert (filter (λ kv : string * json, names name kv.1 = true) m
          = {[ k := v ]}) as ->.
  { apply map_eq. intros i. apply option_eq. intros x.
    rewrite map_lookup_filter_Some, lookup_singleton_Some. cbn [fst]. split.
    - intros [Hi Hni]. assert (i = k) as -> by (by apply Honly).
      split; [done|]. congruence.
    - by intros [<- <-]. }
  by rewrite map_to_list_singleton.
Qed.

Lemma struct_member_absent (m : obj) (name : string) :
  (∀ k', is_Some (m !! k') → names name k' = false) →
  struct_member m name = Decoded None.
Proof.
  intros Hnone. unfold struct_member, members_named.
  assert (filter (λ kv : string * json, names name kv.1 = true) m = ∅) as ->.
  { apply map_eq. intros i. apply option_eq. intros x.
    rewrite map_lookup_filter_Some, lookup_empty. cbn [fst]. split; [|done].
    intros [Hi Hni]. rewrite Hnone in Hni by (by eexists). done. }
  by rewrite map_to_list_empty.
Qed.

(** The member for a field, in an object all of whose keys are among
    [keys], of which only [name] itself names the field. *)
Lemma struct_member_exact (m : obj) (keys : list string) (name : string) :
  (∀ k, is_Some (m !! k) → k ∈ keys) →
  forallb (λ k, implb (names name k) (String.eqb k name)) keys = true →
  names name name = true →
  struct_member m name = Decoded (m !! name).
Proof.
  intros Hkeys Hall Hself.
  assert (∀ k, is_Some (m !! k) → names name k = true → k = name) as Honly.
  { intros k Hk Hn. apply Hkeys in Hk.
    rewrite forallb_forall in Hall. apply list_elem_of_In, Hall in Hk.
    rewrite Hn in Hk. by apply String.eqb_eq in Hk. }
  destruct (m !! name) as [v|] eqn:E.
  - by apply (struct_member_only _ _ name).
  - apply struct_member_absent. intros k Hk.
    destruct (names name k) eqn:Hn; [|done].
    apply Honly in Hn; [|done]. subst k. rewrite E in Hk. by destruct Hk.
Qed.

Lemma decode_elements_marshal {A} (decode : json → decoding A)
    (marshal : A → json) (l : list A) :
  (∀ x, decode (marshal x) = Decoded x) →
  decode_elements decode (marshal <$> l) = Decoded l.
Proof.
  intros H. induction l as [|x l IH]; [done|].
  rewrite fmap_cons. cbn [decode_elements and_then].
  rewrite H. cbn [and_then]. by rewrite IH.
Qed.

Lemma marshal_FieldSpec_keys (f : FieldSpec) (m : obj) (k : string) :
  marshal_FieldSpec f = JObj m → is_Some (m !! k) →
  k ∈ ["singleValueField"; "defaultNullValue"; "name"; "dataType"].
Proof.
  unfold marshal_FieldSpec. intros [= <-] Hk.
  destruct (field_singleValueField f), (field_defaultNullValue f);
    repeat (apply lookup_insert_is_Some' in Hk as [<-|Hk]; [set_solver|]);
    rewrite lookup_empty in Hk; by destruct Hk.
Qed.

Lemma decode_marshal_FieldSpec (f : FieldSpec) :
  decode_FieldSpec (marshal_FieldSpec f) = Decoded f.
Proof.
  pose proof (marshal_FieldSpec_keys f) as Hkeys.
  destruct (marshal_FieldSpec f) as [| | | | |m] eqn:E;
    try (unfold marshal_FieldSpec in E; discriminate).
  specialize (Hkeys m). cbn [decode_FieldSpec].
  unfold field_string, field_bool, field_any.
  rewrite !(struct_member_exact m _ _ (λ k, Hkeys k eq_refl)) by reflexivity.
  unfold marshal_FieldSpec in E. injection E as <-.
  destruct f as [n t sv dv]. cbn [field_name field_dataType
    field_singleValueField field_defaultNullValue and_then].
  destruct sv, dv; by simplify_map_eq.
Qed.

Lemma decode_marshal_DateTimeSpec (d : DateTimeSpec) :
  decode_DateTimeSpec (marshal_DateTimeSpec d) = Decoded d.
Proof.
  destruct d as [n t f g]. unfold marshal_DateTimeSpec, decode_DateTimeSpec.
  cbn [dt_name dt_dataType dt_format dt_granularity].
  unfold field_string.
  assert (∀ k, is_Some (({[ "name" := JStr n; "dataType" := JStr t;
                            "format" := JStr f;
                            "granularity" := JStr g ]} : obj) !! k) →
               k ∈ ["name"; "dataType"; "format"; "granularity"]) as Hkeys.
  { intros k Hk.
    apply lookup_insert_is_Some' in Hk as [<-|Hk]; [set_solver|].
    apply lookup_insert_is_Some' in Hk as [<-|Hk]; [set_solver|].
    apply lookup_insert_is_Some' in Hk as [<-|Hk]; [set_solver|].
    apply lookup_singleton_is_Some in Hk as <-. set_solver. }
  rewrite !(struct_member_exact _ _ _ Hkeys) by reflexivity.
  by simplify_map_eq.
Qed.

Lemma marshal_schema_name (s : PinotSchema) :
  marshal_schema s !! "schemaName" = Some (JStr (schemaName s)).
Proof.
  unfold marshal_schema. rewrite !lookup_put_list_ne by done.
  destruct (enableColumnBasedNull s); by simplify_map_eq.
Qed.

Lemma is_Some_put_list {A} (k k' : string) (marshal : A → json)
    (l : list A) (m : obj) :
  is_Some (put_list k' marshal l m !! k) → k = k' ∨ is_Some (m !! k).
Proof.
  destruct l; cbn [put_list]; [by right|].
  intros [<-|H]%lookup_insert_is_Some'; auto.
Qed.

Lemma marshal_schema_keys (s : PinotSchema) (k : string) :
  is_Some (marshal_schema s !! k) →
  k ∈ ["schemaName"; "enableColumnBasedNullHandling"; "dimensionFieldSpecs";
       "metricFieldSpecs"; "dateTimeFieldSpecs"].
Proof.
  unfold marshal_schema. intros Hk.
  apply is_Some_put_list in Hk as [->|Hk]; [set_solver|].
  apply is_Some_put_list in Hk as [->|Hk]; [set_solver|].
  apply is_Some_put_list in Hk as [->|Hk]; [set_solver|].
  destruct (enableColumnBasedNull s).
  - apply lookup_insert_is_Some' in Hk as [<-|Hk]; [set_solver|].
    apply lookup_singleton_is_Some in Hk as <-. set_solver.
  - apply lookup_singleton_is_Some in Hk as <-. set_solver.
Qed.

Lemma list_member_decoded {A} (decode : json → decoding A)
    (marshal : A → json) (k : string) (l : list A) (m : obj) :
  (∀ x, decode (marshal x) = Decoded x) → m !! k = None →
  match put_list k marshal l m !! k with
  | None | Some JNull => Decoded []
  | Some (JArr l) => decode_elements decode l
  | Some _ => Mismatch
  end = Decoded l.
Proof.
  intros H Hm. destruct l as [|x l].
  - cbn [put_list]. by rewrite Hm.
  - cbn [put_list]. rewrite lookup_insert_eq.
    by apply decode_elements_marshal.
Qed.

(** X25.  Encoding a schema and decoding the result gives the schema
    back: the fields the provider knows survive the trip to the
    controller. *)
Theorem schema_roundtrip (s : PinotSchema) :
  decode_schema (JObj (marshal_schema s)) = Decoded s.
Proof.
  unfold decode_schema, field_string, field_bool, field_list.
  rewrite !(struct_member_exact _ _ _ (marshal_schema_keys s))
    by reflexivity.
  rewrite marshal_schema_name. cbn [and_then].
  assert (marshal_schema s !! "enableColumnBasedNullHandling"
          = if enableColumnBasedNull s then Some (JBool true) else None)
    as ->.
  { unfold marshal_schema. rewrite !lookup_put_list_ne by done.
    destruct (enableColumnBasedNull s); by simplify_map_eq. }
  assert (∀ e : bool,
            match (if e then Some (JBool true) else None) with
            | None | Some JNull => Decoded false
            | Some (JBool b) => Decoded b
            | Some _ => Mismatch
            end = Decoded e) as Hb by (by intros []).
  rewrite Hb. cbn [and_then].
  unfold marshal_schema.
  rewrite (list_member_decoded decode_FieldSpec marshal_FieldSpec)
    by (try apply decode_marshal_FieldSpec;
        rewrite !lookup_put_list_ne by done;
        destruct (enableColumnBasedNull s); by simplify_map_eq).
  cbn [and_then]. rewrite lookup_put_list_ne by done.
  rewrite (list_member_decoded decode_FieldSpec marshal_FieldSpec)
    by (try apply decode_marshal_FieldSpec;
        rewrite !lookup_put_list_ne by done;
        destruct (enableColumnBasedNull s); by simplify_map_eq).
  cbn [and_then]. rewrite !lookup_put_list_ne by done.
  rewrite (list_member_decoded decode_DateTimeSpec marshal_DateTimeSpec)
    by (try apply decode_marshal_DateTimeSpec;
        destruct (enableColumnBasedNull s); by simplify_map_eq).
  cbn [and_then]. by destruct s.
Qed.

Lemma dom_put_list {A} (k : string) (marshal : A → json) (l : list A)
    (m : obj) :
  dom (put_list k marshal l m) ⊆@{gset string} {[ k ]} ∪ dom m.
Proof.
  destruct l; cbn [put_list]; [set_solver|]. rewrite dom_insert. set_solver.
Qed.

(** X26.  The body built for the controller has no keys beyond the five
    the provider knows: any other field of the schema document is left
    out. *)
Theorem schema_body_known_keys (s : PinotSchema) :
  dom (marshal_schema s) ⊆@{gset string}
    {[ "schemaName"; "enableColumnBasedNullHandling"; "dimensionFieldSpecs";
       "metricFieldSpecs"; "dateTimeFieldSpecs" ]}.
Proof.
  unfold marshal_schema.
  etrans; [apply dom_put_list|].
  apply union_least; [set_solver|].
  etrans; [apply dom_put_list|].
  apply union_least; [set_solver|].
  etrans; [apply dom_put_list|].
  apply union_least; [set_solver|].
  destruct (enableColumnBasedNull s);
    rewrite ?dom_insert, dom_singleton; apply elem_of_subseteq; intros k;
    rewrite !elem_of_union, !elem_of_singleton; tauto.
Qed.

Lemma sent_CreateSchema c schema w :
  sent (CreateSchema c schema w).2
  = sent w ++ [{| method := "POST"; url := pasted c "/schemas";
                  payload := Some schema |}].
Proof.
  unfold CreateSchema, bind.
  pose proof (sent_doRequest "POST" (pasted c "/schemas")
                (Some schema) w) as Hs.
  by destruct (doRequest _ _ _ w) as [[resp|e] w'].
Qed.

(** X27.  Creation of a schema, for a document that names no field twice:
    the controller is contacted only if the document decodes and the name
    it gives the schema, under whatever spelling of the key [schemaName]
    the decoder accepts, equals the [schema_name] attribute.  Then, and
    always then, one [POST] to the controller URL followed by [/schemas]
    is sent with the re-encoded schema and, on success, the name is
    recorded as identifier.  Otherwise nothing is sent and nothing
    recorded. *)
Theorem schema_create_request (c : PinotClient) (data : SchemaResourceModel)
    (run : M (Response SchemaResourceModel)) (w : World) :
  SchemaCreate c data = Some run →
  let '(resp, w') := run w in
  (sent w' = sent w ∧ State resp = None ∧ HasError (Diagnostics resp) = true
   ∨ ∃ s,
       decode_schema (Schema data) = Decoded s ∧
       schemaName s = ValueString (SchemaName data) ∧
       sent w' = sent w ++ [{| method := "POST";
                               url := pasted c "/schemas";
                               payload := Some (JObj (marshal_schema s)) |}] ∧
       (State resp = None ∧ HasError (Diagnostics resp) = true
        ∨ Diagnostics resp = [] ∧
          State resp = Some {| SchemaID := StringValue (schemaName s);
                               SchemaName := SchemaName data;
                               Schema := Schema data |})) ∧
  (∀ s, decode_schema (Schema data) = Decoded s →
        schemaName s = ValueString (SchemaName data) →
        sent w' = sent w ++ [{| method := "POST";
                                url := pasted c "/schemas";
                                payload := Some (JObj (marshal_schema s)) |}]).
Proof.
  unfold SchemaCreate.
  destruct (decode_schema (Schema data)) as [s| |]; [| |done];
    intros [= <-]; [|by split; [left|]].
  destruct (String.eqb_spec (ValueString (SchemaName data)) (schemaName s))
    as [Hname | Hname]; cbn [negb];
    [|split; [by left|]; by intros s' [= <-] Heq].
  unfold bind.
  pose proof (sent_CreateSchema c (JObj (marshal_schema s)) w) as Hs.
  destruct (CreateSchema c (JObj (marshal_schema s)) w) as [[err|] w1];
    unfold ret; cbn [snd] in Hs;
    (split; [right; exists s|by intros s' [= <-] _]).
  - repeat split; try done. by left.
  - repeat split; try done. by right.
Qed.

Lemma schema_create_request_witness :
  ∃ run,
    SchemaCreate sample_client folded_schema_plan = Some run ∧
    let '(resp, w') := run idle_world in
    (sent w' = sent idle_world ∧ State resp = None
     ∧ HasError (Diagnostics resp) = true
     ∨ ∃ s,
         decode_schema (Schema folded_schema_plan) = Decoded s ∧
         schemaName s = ValueString (SchemaName folded_schema_plan) ∧
         sent w' = sent idle_world
                   ++ [{| method := "POST";
                          url := pasted sample_client "/schemas";
                          payload := Some (JObj (marshal_schema s)) |}] ∧
         (State resp = None ∧ HasError (Diagnostics resp) = true
          ∨ Diagnostics resp = [] ∧
            State resp = Some {| SchemaID := StringValue (schemaName s);
                                 SchemaName := SchemaName folded_schema_plan;
                                 Schema := Schema folded_schema_plan |})) ∧
    (∀ s, decode_schema (Schema folded_schema_plan) = Decoded s →
          schemaName s = ValueString (SchemaName folded_schema_plan) →
          sent w' = sent idle_world
                    ++ [{| method := "POST";
                           url := pasted sample_client "/schemas";
                           payload := Some (JObj (marshal_schema s)) |}]).
Proof.
  eexists.
  refine (let H := _ in
          conj H (schema_create_request sample_client folded_schema_plan
                    _ idle_world H)).
  vm_compute. reflexivity.
Defined.


